(** * LTC generator of libs/ardour/session_ltc.cc

    A shallow embedding of [Session::send_ltc_for_cycle], of the helpers
    it calls ([ltc_tx_reset], [ltc_tx_cleanup], [ltc_tx_parse_offset],
    [ltc_tx_recalculate_position]) and of [ltc_tx_initialize].

    Conventions.
    - [samplepos_t], [samplecnt_t], [sampleoffset_t], [pframes_t] and
      [int32_t] values are integers in [Z]; the C++ arithmetic on them has no
      defined wrap-around (signed overflow) and none is modelled.  The one
      conversion from an unsigned to a signed type, [(int32_t) n_samples],
      is modelled with its wrap-around ([int32_t]).
    - The two [assert]s of [send_ltc_for_cycle] are not modelled; what is
      stated about the return of a cycle assumes their conditions.
    - [double] and [float] values are exact rationals in [Q]: the rounding of
      IEEE arithmetic is not modelled, only the real-number meaning of the
      expressions.  Division by zero yields [0] in [Q].
    - libltc's encoder is an opaque primitive: an interface ([LTCEncoder])
      over an abstract encoder state.
    - [DEBUG_TRACE] output is kept as a list of events in the field [dbg]. *)

From Stdlib Require Import ZArith QArith Qround Qabs List Bool Lia Lqa.
Import ListNotations.

Open Scope Z_scope.

(** ** Numeric primitives of <math.h> over exact rationals *)

Module Num.

Definition Qltb (x y : Q) : bool := negb (Qle_bool y x).
Definition Qneqb (x y : Q) : bool := negb (Qeq_bool x y).

Definition fabs (x : Q) : Q := Qabs x.
Definition ceil (x : Q) : Z := Qceiling x.
Definition floor (x : Q) : Z := Qfloor x.

(** Conversion of a [double] to an integer type truncates toward zero. *)
Definition trunc (x : Q) : Z :=
  if Qle_bool 0 x then Qfloor x else Qceiling x.

(** [rint] in the default rounding mode: to nearest, ties to even. *)
Definition rint (x : Q) : Z :=
  let f := Qfloor x in
  let r := (x - inject_Z f)%Q in
  if Qltb r (1 # 2) then f
  else if Qltb (1 # 2) r then f + 1
  else if Z.even f then f else f + 1.

(** [fmod x y = x - trunc (x / y) * y]; the result has the sign of [x]. *)
Definition fmod (x y : Q) : Q :=
  (x - inject_Z (trunc (x / y)) * y)%Q.

Definition MAX (a b : Q) : Q := if Qltb b a then a else b.
Definition MIN (a b : Q) : Q := if Qltb a b then a else b.

(** [SIGNUM(a) = (a) < 0 ? -1 : 1] *)
Definition SIGNUM (a : Q) : Z := if Qltb a 0 then -1 else 1.

End Num.
Import Num.

(** [(int32_t) x] for a [pframes_t] (unsigned, 32 bit) [x]: the value modulo
    2^32 in the signed range. *)
Definition int32_t (x : Z) : Z :=
  (x + 2147483648) mod 4294967296 - 2147483648.

(** ** Timecode types *)

(** [Timecode::TimecodeFormat]; the members are those listed in
    session_utils/new_aaf_session.cc, [set_session_timecode]. *)
Inductive TimecodeFormat : Type :=
| timecode_23976
| timecode_24
| timecode_24976
| timecode_25
| timecode_2997
| timecode_2997drop
| timecode_30
| timecode_30drop
| timecode_5994
| timecode_60.

Definition TimecodeFormat_eqb (a b : TimecodeFormat) : bool :=
  match a, b with
  | timecode_23976, timecode_23976 | timecode_24, timecode_24
  | timecode_24976, timecode_24976 | timecode_25, timecode_25
  | timecode_2997, timecode_2997 | timecode_2997drop, timecode_2997drop
  | timecode_30, timecode_30 | timecode_30drop, timecode_30drop
  | timecode_5994, timecode_5994 | timecode_60, timecode_60 => true
  | _, _ => false
  end.

(** Frame rate of a format, with the edit rates that
    [set_session_timecode] pairs with each member. *)
Definition timecode_to_frames_per_second (t : TimecodeFormat) : Q :=
  match t with
  | timecode_23976 => 24000 # 1001
  | timecode_24 => 24
  | timecode_24976 => 25000 # 1001
  | timecode_25 => 25
  | timecode_2997 | timecode_2997drop => 30000 # 1001
  | timecode_30 | timecode_30drop => 30
  | timecode_5994 => 60000 # 1001
  | timecode_60 => 60
  end.

Definition timecode_has_drop_frames (t : TimecodeFormat) : bool :=
  match t with
  | timecode_2997drop | timecode_30drop => true
  | _ => false
  end.

Inductive LTC_TV_STANDARD : Type := LTC_TV_525_60 | LTC_TV_625_50 | LTC_TV_FILM_24.

(** The macro [TV_STANDARD(tcf)]. *)
Definition TV_STANDARD (tcf : TimecodeFormat) : LTC_TV_STANDARD :=
  if Qeq_bool (timecode_to_frames_per_second tcf) 25 then LTC_TV_625_50
  else if timecode_has_drop_frames tcf then LTC_TV_525_60
  else LTC_TV_FILM_24.

(** [Timecode::Time], the members the generator reads or writes. *)
Record Time : Type := mkTime {
  negative : bool;
  hours : Z;
  minutes : Z;
  seconds : Z;
  frames : Z;
  rate : Q;
  drop : bool }.

(** libltc's [SMPTETimecode], the members the generator writes. *)
Record SMPTETimecode : Type := mkSMPTE {
  tc_hours : Z;
  tc_mins : Z;
  tc_secs : Z;
  tc_frame : Z }.

(** libltc's [LTCFrame]: the drop-frame bit and the other 79 bits. *)
Record LTCFrame : Type := mkFrame {
  dfbit : bool;
  frame_bits : Z }.

Inductive SyncSource : Type := Engine | MTC | MIDIClock | LTC.

Definition is_MIDIClock (s : SyncSource) : bool :=
  match s with MIDIClock => true | _ => false end.

(** ** The encoder primitive (libltc) *)

Class LTCEncoder (E : Type) : Type := {
  ltc_encoder_reset : E -> E;
  (** [None]: non-zero return value. *)
  ltc_encoder_reinit : E -> Z -> Q -> LTC_TV_STANDARD -> option E;
  ltc_encoder_set_filter : E -> Q -> E;
  ltc_encoder_set_timecode : E -> SMPTETimecode -> E;
  ltc_encoder_get_timecode : E -> SMPTETimecode;
  ltc_encoder_get_frame : E -> LTCFrame;
  ltc_encoder_set_frame : E -> LTCFrame -> E;
  ltc_encoder_inc_timecode : E -> E;
  ltc_encoder_dec_timecode : E -> E;
  (** first component [true]: non-zero return value. *)
  ltc_encoder_encode_byte : E -> Z -> Q -> bool * E;
  (** the samples copied out and the encoder with its buffer flushed. *)
  ltc_encoder_get_buffer : E -> list Z * E;
  ltc_encoder_buffer_flush : E -> E }.

(** ** Debug trace *)

(** One constructor per [DEBUG_TRACE] (or [PBD::error]) of the source that
    the properties below refer to; [EvSoft] and [EvSample] mark two program
    points that have no trace statement of their own. *)
Inductive Event : Type :=
| EvReset                          (* "reset" *)
| EvCleanup                        (* "cleanup" *)
| EvError                          (* PBD::error "invalid framerate" *)
| EvReinit                         (* "1: TC format mismatch - reinit" *)
| EvDirection                      (* "transport changed direction" *)
| EvSpeedChange                    (* "2: speed change from: to" *)
| EvNotRolling                     (* "transport is not rolling or speed < 0.1" *)
| EvNoRollSeek                     (* "2: no-roll seek from" *)
| EvOutOfBounds                    (* "speed is out of bounds." *)
| EvStartedRolling                 (* "transport started rolling - reset" *)
| EvResampleDestroy                (* "resampling buffer would destroy information." *)
| EvSpeed (speed : Q)              (* "2: transport speed" *)
| EvAlign (cycle_start tc_start soff : Z)    (* "3: A3cycle: = A3tc: +off:" *)
| EvRealign (cycle_start tc_start soff : Z)  (* "4: now: trs: toff" *)
| EvRestart (soff byte cyc_off : Z)          (* "5 restart encoder: soff byte cycoff" *)
| EvRestartAt (pos : Z)            (* "5 restart @" *)
| EvSoft                           (* the speed adjustment of the jitter branch *)
| EvSample (txf : Z)               (* out[txf++] = val *)
| EvEncError (byte : Z)            (* "6.3 encoder error byte" *)
| EvEncEmpty                       (* "6.3 encoder empty buffer." *)
| EvDone.                          (* "7 enc:" *)

Definition is_EvSample (e : Event) : bool :=
  match e with EvSample _ => true | _ => false end.
Definition is_EvReset (e : Event) : bool :=
  match e with EvReset => true | _ => false end.
Definition is_EvError (e : Event) : bool :=
  match e with EvError => true | _ => false end.
Definition is_EvRealign (e : Event) : bool :=
  match e with EvRealign _ _ _ => true | _ => false end.
Definition is_EvAlign (e : Event) : bool :=
  match e with EvAlign _ _ _ => true | _ => false end.
Definition is_EvSoft (e : Event) : bool :=
  match e with EvSoft => true | _ => false end.
Definition is_EvNoRollSeek (e : Event) : bool :=
  match e with EvNoRollSeek => true | _ => false end.
Definition is_EvNotRolling (e : Event) : bool :=
  match e with EvNotRolling => true | _ => false end.

(** ** Session state and configuration *)

(** The members of [class Session] that belong to the LTC generator.
    [ltc_encoder] and [ltc_enc_buf] are the two heap objects; a session in
    which both pointers are [NULL] (before [ltc_tx_initialize], after
    [ltc_tx_cleanup]) is [None] in [option (Session E)]: no other member is
    read in that state.  [ltc_enc_buf] maps an index to the byte stored
    there; the capacity of the allocation is not modelled. *)
Record Session (E : Type) : Type := mkSession {
  ltc_encoder : E;
  ltc_enc_buf : Z -> Z;
  ltc_enc_tcformat : TimecodeFormat;
  ltc_buf_off : Z;
  ltc_buf_len : Z;
  ltc_speed : Q;
  ltc_enc_byte : Z;
  ltc_enc_pos : Z;
  ltc_enc_cnt : Q;
  restarting : bool;
  ltc_prev_cycle : Z;
  ltc_timecode_offset : Z;
  ltc_timecode_negative_offset : bool;
  ltc_out_latency_max : Z;
  dbg : list Event   (* newest event first *) }.

Arguments mkSession {E}.
Arguments ltc_encoder {E}.
Arguments ltc_enc_buf {E}.
Arguments ltc_enc_tcformat {E}.
Arguments ltc_buf_off {E}.
Arguments ltc_buf_len {E}.
Arguments ltc_speed {E}.
Arguments ltc_enc_byte {E}.
Arguments ltc_enc_pos {E}.
Arguments ltc_enc_cnt {E}.
Arguments restarting {E}.
Arguments ltc_prev_cycle {E}.
Arguments ltc_timecode_offset {E}.
Arguments ltc_timecode_negative_offset {E}.
Arguments ltc_out_latency_max {E}.
Arguments dbg {E}.

(** What a cycle reads from its collaborators: configuration, engine and
    transport master, and the timecode conversions of libtemporal and
    libltc, which depend on the session's frame rate and sample rate. *)
Record Env : Type := mkEnv {
  ltc_output_port : bool;
  transport_master_current : bool;
  sync_src : SyncSource;
  freewheeling : bool;
  send_ltc : bool;
  external_sync : bool;
  ltc_output_volume : Q;
  ltc_send_continuously : bool;
  timecode_format : TimecodeFormat;
  nominal_sample_rate : Z;
  sample_rate : Z;
  engine_sample_rate : Z;
  samples_per_timecode_frame : Q;
  (** [config.get_timecode_generator_offset()] parsed and converted to
      samples, and the [negative] flag of the parsed timecode. *)
  timecode_generator_offset : Z;
  timecode_generator_offset_negative : bool;
  transport_master_is_external : bool;
  transport_master_resolution : Z;
  (** [sample_to_timecode sample offset_is_negative offset_samples] *)
  sample_to_timecode : Z -> bool -> Z -> Time;
  (** [timecode_to_sample timecode offset_is_negative offset_samples] *)
  timecode_to_sample : Time -> bool -> Z -> Z;
  ltc_frame_alignment : Q -> LTC_TV_STANDARD -> Z }.

(** What one call leaves behind: the session, the port buffer and the
    events of the call in the order they happened. *)
Record Result (E : Type) : Type := mkResult {
  r_session : option (Session E);
  r_out : list Q;
  r_trace : list Event }.

Arguments mkResult {E}.
Arguments r_session {E}.
Arguments r_out {E}.
Arguments r_trace {E}.

Section Updates.
Context {E : Type}.
Implicit Type s : Session E.

Definition set_encoder (e : E) s : Session E :=
  mkSession e (ltc_enc_buf s) (ltc_enc_tcformat s) (ltc_buf_off s)
    (ltc_buf_len s) (ltc_speed s) (ltc_enc_byte s) (ltc_enc_pos s)
    (ltc_enc_cnt s) (restarting s) (ltc_prev_cycle s) (ltc_timecode_offset s)
    (ltc_timecode_negative_offset s) (ltc_out_latency_max s) (dbg s).

Definition set_enc_buf (b : Z -> Z) s : Session E :=
  mkSession (ltc_encoder s) b (ltc_enc_tcformat s) (ltc_buf_off s)
    (ltc_buf_len s) (ltc_speed s) (ltc_enc_byte s) (ltc_enc_pos s)
    (ltc_enc_cnt s) (restarting s) (ltc_prev_cycle s) (ltc_timecode_offset s)
    (ltc_timecode_negative_offset s) (ltc_out_latency_max s) (dbg s).

Definition set_enc_tcformat (f : TimecodeFormat) s : Session E :=
  mkSession (ltc_encoder s) (ltc_enc_buf s) f (ltc_buf_off s)
    (ltc_buf_len s) (ltc_speed s) (ltc_enc_byte s) (ltc_enc_pos s)
    (ltc_enc_cnt s) (restarting s) (ltc_prev_cycle s) (ltc_timecode_offset s)
    (ltc_timecode_negative_offset s) (ltc_out_latency_max s) (dbg s).

Definition set_buf_off (v : Z) s : Session E :=
  mkSession (ltc_encoder s) (ltc_enc_buf s) (ltc_enc_tcformat s) v
    (ltc_buf_len s) (ltc_speed s) (ltc_enc_byte s) (ltc_enc_pos s)
    (ltc_enc_cnt s) (restarting s) (ltc_prev_cycle s) (ltc_timecode_offset s)
    (ltc_timecode_negative_offset s) (ltc_out_latency_max s) (dbg s).

Definition set_buf_len (v : Z) s : Session E :=
  mkSession (ltc_encoder s) (ltc_enc_buf s) (ltc_enc_tcformat s) (ltc_buf_off s)
    v (ltc_speed s) (ltc_enc_byte s) (ltc_enc_pos s)
    (ltc_enc_cnt s) (restarting s) (ltc_prev_cycle s) (ltc_timecode_offset s)
    (ltc_timecode_negative_offset s) (ltc_out_latency_max s) (dbg s).

Definition set_speed (v : Q) s : Session E :=
  mkSession (ltc_encoder s) (ltc_enc_buf s) (ltc_enc_tcformat s) (ltc_buf_off s)
    (ltc_buf_len s) v (ltc_enc_byte s) (ltc_enc_pos s)
    (ltc_enc_cnt s) (restarting s) (ltc_prev_cycle s) (ltc_timecode_offset s)
    (ltc_timecode_negative_offset s) (ltc_out_latency_max s) (dbg s).

Definition set_enc_byte (v : Z) s : Session E :=
  mkSession (ltc_encoder s) (ltc_enc_buf s) (ltc_enc_tcformat s) (ltc_buf_off s)
    (ltc_buf_len s) (ltc_speed s) v (ltc_enc_pos s)
    (ltc_enc_cnt s) (restarting s) (ltc_prev_cycle s) (ltc_timecode_offset s)
    (ltc_timecode_negative_offset s) (ltc_out_latency_max s) (dbg s).

Definition set_enc_pos (v : Z) s : Session E :=
  mkSession (ltc_encoder s) (ltc_enc_buf s) (ltc_enc_tcformat s) (ltc_buf_off s)
    (ltc_buf_len s) (ltc_speed s) (ltc_enc_byte s) v
    (ltc_enc_cnt s) (restarting s) (ltc_prev_cycle s) (ltc_timecode_offset s)
    (ltc_timecode_negative_offset s) (ltc_out_latency_max s) (dbg s).

Definition set_enc_cnt (v : Q) s : Session E :=
  mkSession (ltc_encoder s) (ltc_enc_buf s) (ltc_enc_tcformat s) (ltc_buf_off s)
    (ltc_buf_len s) (ltc_speed s) (ltc_enc_byte s) (ltc_enc_pos s)
    v (restarting s) (ltc_prev_cycle s) (ltc_timecode_offset s)
    (ltc_timecode_negative_offset s) (ltc_out_latency_max s) (dbg s).

Definition set_restarting (v : bool) s : Session E :=
  mkSession (ltc_encoder s) (ltc_enc_buf s) (ltc_enc_tcformat s) (ltc_buf_off s)
    (ltc_buf_len s) (ltc_speed s) (ltc_enc_byte s) (ltc_enc_pos s)
    (ltc_enc_cnt s) v (ltc_prev_cycle s) (ltc_timecode_offset s)
    (ltc_timecode_negative_offset s) (ltc_out_latency_max s) (dbg s).

Definition set_prev_cycle (v : Z) s : Session E :=
  mkSession (ltc_encoder s) (ltc_enc_buf s) (ltc_enc_tcformat s) (ltc_buf_off s)
    (ltc_buf_len s) (ltc_speed s) (ltc_enc_byte s) (ltc_enc_pos s)
    (ltc_enc_cnt s) (restarting s) v (ltc_timecode_offset s)
    (ltc_timecode_negative_offset s) (ltc_out_latency_max s) (dbg s).

Definition set_timecode_offset (v : Z) (neg : bool) s : Session E :=
  mkSession (ltc_encoder s) (ltc_enc_buf s) (ltc_enc_tcformat s) (ltc_buf_off s)
    (ltc_buf_len s) (ltc_speed s) (ltc_enc_byte s) (ltc_enc_pos s)
    (ltc_enc_cnt s) (restarting s) (ltc_prev_cycle s) v
    neg (ltc_out_latency_max s) (dbg s).

Definition set_dbg (v : list Event) s : Session E :=
  mkSession (ltc_encoder s) (ltc_enc_buf s) (ltc_enc_tcformat s) (ltc_buf_off s)
    (ltc_buf_len s) (ltc_speed s) (ltc_enc_byte s) (ltc_enc_pos s)
    (ltc_enc_cnt s) (restarting s) (ltc_prev_cycle s) (ltc_timecode_offset s)
    (ltc_timecode_negative_offset s) (ltc_out_latency_max s) v.

(** [DEBUG_TRACE (DEBUG::TXLTC, ...)] *)
Definition trace (ev : Event) s : Session E := set_dbg (ev :: dbg s) s.

End Updates.

(** ** Memory primitives on the byte buffer and on the port buffer *)

(** [memmove (&buf[dst], &buf[src], count)] *)
Definition memmove (buf : Z -> Z) (dst src count : Z) : Z -> Z :=
  fun j => if (dst <=? j) && (j <? dst + count) then buf (j - dst + src) else buf j.

(** [memset (&buf[dst], v, count)] *)
Definition memset (buf : Z -> Z) (dst v count : Z) : Z -> Z :=
  fun j => if (dst <=? j) && (j <? dst + count) then v else buf j.

(** The copy that [ltc_encoder_get_buffer (e, &buf[dst])] makes. *)
Definition copy_out (buf : Z -> Z) (dst : Z) (l : list Z) : Z -> Z :=
  fun j => if (dst <=? j) && (j <? dst + Z.of_nat (length l))
           then nth (Z.to_nat (j - dst)) l 0 else buf j.

(** [out[i] = v] on the port buffer. *)
Fixpoint store_nat (out : list Q) (i : nat) (v : Q) : list Q :=
  match out, i with
  | [], _ => []
  | _ :: t, O => v :: t
  | h :: t, S i => h :: store_nat t i v
  end.

Definition store (out : list Q) (i : Z) (v : Q) : list Q :=
  if i <? 0 then out else store_nat out (Z.to_nat i) v.

(** [buf.silence (n_samples)] *)
Definition silence (n_samples : Z) : list Q := repeat 0%Q (Z.to_nat n_samples).

(** [memset (out, 0, count * sizeof (Sample))] *)
Fixpoint zero_prefix (out : list Q) (count : nat) : list Q :=
  match out, count with
  | _ :: t, S c => 0%Q :: zero_prefix t c
  | _, _ => out
  end.

(** ** The generator *)

(** Control flow of a cycle: leave the cycle with a session, leave it after
    [ltc_tx_cleanup] (only the trace is left), or go on. *)
Inductive Step (E A : Type) : Type :=
| Leave (s : Session E)
| Dead (log : list Event)
| Next (a : A).

Arguments Leave {E A}.
Arguments Dead {E A}.
Arguments Next {E A}.

Section Generator.
Context {E : Type} {enc : LTCEncoder E}.
Implicit Type s : Session E.
Implicit Type env : Env.

(** The macro [LTC_RISE_TIME(speed)]. *)
Definition LTC_RISE_TIME env (speed : Q) : Q :=
  MIN 100 (MAX 40 (4000000 / (if Qeq_bool speed 0 then 1 else speed)
                   / inject_Z (engine_sample_rate env)))%Q.

Definition ltc_tx_reset s : Session E :=
  let s := trace EvReset s in
  let s := set_enc_pos (-9999) s in
  let s := set_buf_len 0 s in
  let s := set_buf_off 0 s in
  let s := set_enc_byte 0 s in
  let s := set_enc_cnt 0 s in
  set_encoder (ltc_encoder_reset (ltc_encoder s)) s.

(** [ltc_tx_cleanup]: both objects are freed; what remains is the trace. *)
Definition ltc_tx_cleanup s : list Event := EvCleanup :: dbg s.

Definition ltc_tx_parse_offset env s : Session E :=
  let s := set_timecode_offset (timecode_generator_offset env)
             (negb (timecode_generator_offset_negative env)) s in
  set_prev_cycle (-1) s.

Definition ltc_tx_recalculate_position env s : Session E :=
  let enctc := ltc_encoder_get_timecode (ltc_encoder s) in
  let a3tc := mkTime false (tc_hours enctc) (tc_mins enctc) (tc_secs enctc)
                (tc_frame enctc)
                (timecode_to_frames_per_second (ltc_enc_tcformat s))
                (timecode_has_drop_frames (ltc_enc_tcformat s)) in
  let s := set_enc_pos (timecode_to_sample env a3tc
                          (ltc_timecode_negative_offset s)
                          (ltc_timecode_offset s)) s in
  set_restarting false s.

(** [ltc_tx_initialize], given the encoder that [ltc_encoder_create] and
    [ltc_encoder_set_bufsize] return and the latency that
    [ltc_tx_resync_latency] reads from the port; the buffer comes from
    [calloc].  The trace of the initialisation is dropped. *)
Definition ltc_tx_initialize env (e : E) (latency_max : Z) : Session E :=
  let s := mkSession (ltc_encoder_set_filter e (LTC_RISE_TIME env 1))
             (fun _ => 0) (timecode_format env) 0 0 0%Q 0 0 0%Q false (-1)
             0 false latency_max [] in
  let s := ltc_tx_parse_offset env s in
  let s := set_speed 0%Q s in
  let s := set_prev_cycle (-1) s in
  let s := ltc_tx_reset s in
  let s := set_restarting false s in
  set_dbg [] s.

(** *** (1) check fps *)
Definition check_fps env s : Step E (Session E) :=
  let cur_timecode := timecode_format env in
  if negb (TimecodeFormat_eqb cur_timecode (ltc_enc_tcformat s)) then
    let s := trace EvReinit s in
    match ltc_encoder_reinit (ltc_encoder s) (nominal_sample_rate env)
            (timecode_to_frames_per_second cur_timecode)
            (TV_STANDARD cur_timecode) with
    | None => Dead (ltc_tx_cleanup (trace EvError s))
    | Some e =>
        let s := set_encoder
                   (ltc_encoder_set_filter e (LTC_RISE_TIME env (ltc_speed s))) s in
        let s := set_enc_tcformat cur_timecode s in
        let s := ltc_tx_parse_offset env s in
        Next (ltc_tx_reset s)
    end
  else Next s.

(** *** (2) speed and direction *)

(** [new_ltc_speed = (end_sample - start_sample) / (double) n_samples] *)
Definition raw_speed (start_sample end_sample n_samples : Z) : Q :=
  (inject_Z (end_sample - start_sample) / inject_Z n_samples)%Q.

(** Port latency compensation and TV standard offset: [cycle_start_sample]. *)
Definition cycle_start env s (start_sample : Z) (new_ltc_speed : Q) : Z :=
  let c :=
    if Qltb new_ltc_speed 0 then start_sample - ltc_out_latency_max s
    else if Qltb 0 new_ltc_speed then start_sample + ltc_out_latency_max s
    else start_sample in
  let c :=
    if Qneqb new_ltc_speed 0
    then c - ltc_frame_alignment env (samples_per_timecode_frame env)
               (TV_STANDARD (timecode_format env))
    else c in
  if c <? 0 then 0 else c.

Definition rescale_speed env (new_ltc_speed : Q) : Q :=
  if negb (nominal_sample_rate env =? sample_rate env)
  then (new_ltc_speed
        * (inject_Z (nominal_sample_rate env) / inject_Z (sample_rate env)))%Q
  else new_ltc_speed.

Definition direction_check s (new_ltc_speed : Q) : Session E :=
  if negb (SIGNUM new_ltc_speed =? SIGNUM (ltc_speed s))
  then ltc_tx_reset (trace EvDirection s)
  else s.

Definition speed_change_check env s (new_ltc_speed : Q) : Session E * bool :=
  if Qneqb (ltc_speed s) new_ltc_speed
  then (set_encoder (ltc_encoder_set_filter (ltc_encoder s)
                       (LTC_RISE_TIME env new_ltc_speed))
          (trace EvSpeedChange s), true)
  else (s, false).

(** The block "transport is not rolling or speed < 0.1". *)
Definition not_rolling_check env s (start_sample end_sample : Z)
    (new_ltc_speed : Q) : Step E (Session E * Q) :=
  if (end_sample =? start_sample) || Qltb (fabs new_ltc_speed) (1 # 10) then
    let s := trace EvNotRolling s in
    let new_ltc_speed := 0%Q in
    if negb (ltc_send_continuously env) then Leave (set_speed new_ltc_speed s)
    else if negb (start_sample =? ltc_prev_cycle s)
         then Next (ltc_tx_reset (trace EvNoRollSeek s), new_ltc_speed)
         else Next (s, new_ltc_speed)
  else Next (s, new_ltc_speed).

Definition started_rolling_check s (new_ltc_speed : Q) : Session E :=
  if Qeq_bool (ltc_speed s) 0 && Qneqb new_ltc_speed 0
  then ltc_tx_reset (trace EvStartedRolling s)
  else s.

(** The insertion loop
    [for (int rp = ltc_buf_off; rp < ltc_buf_len - 1; ++rp)]. *)
Fixpoint resample_insert (fuel : nat) (off : Z) (avg_distance : Q)
    (rp incnt : Z) (buf : Z -> Z) (len : Z) : option ((Z -> Z) * Z) :=
  if rp <? len - 1 then
    match fuel with
    | O => None
    | S fuel =>
        let ro := rp - off in
        if Qltb (inject_Z ro) (inject_Z incnt * avg_distance)
        then resample_insert fuel off avg_distance (rp + 1) incnt buf len
        else
          let v1 := buf rp in
          let v2 := buf (rp + 1) in
          if negb (v1 =? v2)
             && Qltb (inject_Z ro) (inject_Z (incnt + 1) * avg_distance)
          then resample_insert fuel off avg_distance (rp + 1) incnt buf len
          else resample_insert fuel off avg_distance (rp + 1) (incnt + 1)
                 (memmove buf (rp + 1) rp (len - rp)) (len + 1)
    end
  else Some (buf, len).

(** The removal loop. *)
Fixpoint resample_remove (fuel : nat) (off : Z) (avg_distance : Q)
    (rp rmcnt : Z) (buf : Z -> Z) (len : Z) : option ((Z -> Z) * Z) :=
  if rp <? len - 1 then
    match fuel with
    | O => None
    | S fuel =>
        let ro := rp - off in
        if Qltb (inject_Z ro) (inject_Z rmcnt * avg_distance)
        then resample_remove fuel off avg_distance (rp + 1) rmcnt buf len
        else
          let v1 := buf rp in
          let v2 := buf (rp + 1) in
          if negb (v1 =? v2)
             && Qltb (inject_Z ro) (inject_Z (rmcnt + 1) * avg_distance)
          then resample_remove fuel off avg_distance (rp + 1) rmcnt buf len
          else resample_remove fuel off avg_distance (rp + 1) (rmcnt + 1)
                 (memmove buf rp (rp + 1) (len - rp - 1)) (len - 1)
    end
  else Some (buf, len).

(** Re-sampling of the queued bytes after a speed change; returns the session
    and [poff].  [None]: a loop ran out of fuel. *)
Definition resample env s (new_ltc_speed poff : Q) : option (Session E * Q) :=
  let oldbuflen := inject_Z (ltc_buf_len s - ltc_buf_off s) in
  let newbuflen :=
    (inject_Z (ltc_buf_len s - ltc_buf_off s)
     * fabs (ltc_speed s / new_ltc_speed))%Q in
  let bufrspdiff := inject_Z (rint (newbuflen - oldbuflen)) in
  if Qltb newbuflen (fabs bufrspdiff) || Qltb oldbuflen (fabs bufrspdiff) then
    Some (ltc_tx_reset (trace EvResampleDestroy s), 0%Q)
  else if Qneqb bufrspdiff 0 && Qltb oldbuflen newbuflen then
    let samples_to_insert := ceil (newbuflen - oldbuflen) in
    let avg_distance := (newbuflen / inject_Z samples_to_insert)%Q in
    match resample_insert
            (Z.to_nat (ltc_buf_len s - ltc_buf_off s + samples_to_insert))
            (ltc_buf_off s) avg_distance (ltc_buf_off s) 0
            (ltc_enc_buf s) (ltc_buf_len s) with
    | None => None
    | Some (buf, len) => Some (set_buf_len len (set_enc_buf buf s), poff)
    end
  else if Qneqb bufrspdiff 0 && Qltb newbuflen oldbuflen then
    let samples_to_remove := ceil (oldbuflen - newbuflen) in
    if Qle_bool oldbuflen (inject_Z samples_to_remove)
    then Some (set_buf_len 0 (set_buf_off 0 s), poff)
    else
      let avg_distance := (newbuflen / inject_Z samples_to_remove)%Q in
      match resample_remove (Z.to_nat (ltc_buf_len s - ltc_buf_off s))
              (ltc_buf_off s) avg_distance (ltc_buf_off s) 0
              (ltc_enc_buf s) (ltc_buf_len s) with
      | None => None
      | Some (buf, len) => Some (set_buf_len len (set_enc_buf buf s), poff)
      end
  else Some (s, poff).

(** What step (2) hands to step (3). *)
Record Tracked : Type := mkTracked {
  t_session : Session E;
  t_cycle_start : Z;
  t_speed : Q;
  t_poff : Q }.

(** The rest of step (2) once the speed of the block is known: the bounds
    check, the start of rolling, [poff] and the re-sampling. *)
Definition settle_speed env s (start_sample cycle_start_sample : Z)
    (new_ltc_speed : Q) (speed_changed : bool) : option (Step E Tracked) :=
  if Qltb 10 (fabs new_ltc_speed)
  then Some (Leave (ltc_tx_reset (trace EvOutOfBounds s)))
  else
    let s := started_rolling_check s new_ltc_speed in
    let poff := (inject_Z (ltc_buf_len s - ltc_buf_off s) * ltc_speed s)%Q in
    match (if speed_changed && Qneqb new_ltc_speed 0
           then resample env s new_ltc_speed poff
           else Some (s, poff)) with
    | None => None
    | Some (s, poff) =>
        let s := set_prev_cycle start_sample s in
        let s := set_speed new_ltc_speed s in
        let s := trace (EvSpeed (ltc_speed s)) s in
        Some (Next (mkTracked s cycle_start_sample new_ltc_speed poff))
    end.

Definition speed_and_direction env s (start_sample end_sample n_samples : Z)
    : option (Step E Tracked) :=
  let new_ltc_speed := raw_speed start_sample end_sample n_samples in
  let cycle_start_sample := cycle_start env s start_sample new_ltc_speed in
  let new_ltc_speed := rescale_speed env new_ltc_speed in
  let s := direction_check s new_ltc_speed in
  let '(s, speed_changed) := speed_change_check env s new_ltc_speed in
  match not_rolling_check env s start_sample end_sample new_ltc_speed with
  | Leave s => Some (Leave s)
  | Dead l => Some (Dead l)
  | Next (s, new_ltc_speed) =>
      settle_speed env s start_sample cycle_start_sample new_ltc_speed
        speed_changed
  end.

(** *** (3) bit/sample alignment *)

(** [tc_sample_start]: [cycle_start_sample] rounded down to its timecode
    frame by [sample_to_timecode] and converted back. *)
Definition tc_start_of env s (cycle_start_sample : Z) : Time :=
  sample_to_timecode env cycle_start_sample
    (ltc_timecode_negative_offset s) (ltc_timecode_offset s).

Definition tc_sample_start_of env s (cycle_start_sample : Z) : Z :=
  timecode_to_sample env (tc_start_of env s cycle_start_sample)
    (ltc_timecode_negative_offset s) (ltc_timecode_offset s).

Definition soff_of env s (cycle_start_sample : Z) (new_ltc_speed : Q) : Z :=
  if Qeq_bool new_ltc_speed 0 then 0
  else cycle_start_sample - tc_sample_start_of env s cycle_start_sample.

(** *** (4) check if alignment matches *)

Definition maxdiff env s : Q :=
  if transport_master_is_external env
  then inject_Z (transport_master_resolution env)
  else
    let m := (inject_Z (ceil (fabs (ltc_speed s))) * 2)%Q in
    let m := if negb (nominal_sample_rate env =? sample_rate env)
             then (m * 3)%Q else m in
    if TimecodeFormat_eqb (ltc_enc_tcformat s) timecode_23976
       || TimecodeFormat_eqb (ltc_enc_tcformat s) timecode_24976
    then (m * 15)%Q else m.

(** [const samplecnt_t wrap24h = 86400. * sample_rate ()] *)
Definition wrap24h env : Z := trunc (86400 * inject_Z (sample_rate env)).

(** The condition of the [if] that guards "(5) re-align". *)
Definition needs_realign env s (cycle_start_sample : Z) (poff : Q) : bool :=
  (ltc_enc_pos s <? 0)
  || (Qneqb (ltc_speed s) 0
      && Qltb (maxdiff env s)
           (fabs (fmod (inject_Z (ceil (inject_Z (ltc_enc_pos s)
                                        + ltc_enc_cnt s - poff)))
                       (inject_Z (wrap24h env))
                  - inject_Z (Z.rem cycle_start_sample (wrap24h env))))).

(** *** (5) re-align *)

(** The seeding of the encoder: [ltc_tx_reset], [ltc_encoder_set_timecode]
    and the drop-frame workaround. *)
Definition seed_encoder env s (tc_start : Time) : Session E :=
  let s := ltc_tx_reset s in
  let tc := mkSMPTE (Z.rem (hours tc_start) 24) (minutes tc_start)
              (seconds tc_start) (frames tc_start) in
  let s := set_encoder (ltc_encoder_set_timecode (ltc_encoder s) tc) s in
  let ltcframe := ltc_encoder_get_frame (ltc_encoder s) in
  let ltcframe := mkFrame (timecode_has_drop_frames (timecode_format env))
                    (frame_bits ltcframe) in
  set_encoder (ltc_encoder_set_frame (ltc_encoder s) ltcframe) s.

(** The byte to send and its distance from the current position: the
    session with [ltc_enc_byte] and [ltc_enc_cnt] set, and [cyc_off]. *)
Definition byte_for_offset env s (soff : Z) : Session E * Z :=
  let fptcf := samples_per_timecode_frame env in
  if Qltb (ltc_speed s) 0 then
    let s := set_enc_byte (floor (10 * inject_Z soff / fptcf)) s in
    let s := set_enc_cnt (inject_Z (ltc_enc_byte s) * fptcf / 10)%Q s in
    (s, soff - ceil (ltc_enc_cnt s))
  else
    let s := set_enc_byte (ceil (10 * inject_Z soff / fptcf)) s in
    let s := set_enc_cnt (inject_Z (ltc_enc_byte s) * fptcf / 10)%Q s in
    let cyc_off := ceil (ltc_enc_cnt s) - soff in
    if ltc_enc_byte s =? 10
    then (set_encoder (ltc_encoder_inc_timecode (ltc_encoder s))
            (set_enc_byte 0 s), cyc_off)
    else (s, cyc_off).

Definition mark_restarting s : Session E :=
  if (Qltb (ltc_speed s) 0 && negb (ltc_enc_byte s =? 9))
     || (Qle_bool 0 (ltc_speed s) && negb (ltc_enc_byte s =? 0))
  then set_restarting true s
  else s.

(** What steps (3)-(5) hand to step (6): the session, the port buffer and
    the index [txf] of the next sample to write. *)
Definition realign env s (n_samples cycle_start_sample : Z) (tc_start : Time)
    (tc_sample_start soff : Z) (out : list Q)
    : Step E (Session E * list Q * Z) :=
  let s := seed_encoder env s tc_start in
  let s := trace (EvRealign cycle_start_sample tc_sample_start soff) s in
  if (soff <? 0) || Qle_bool (samples_per_timecode_frame env) (inject_Z soff)
  then Leave (ltc_tx_reset s)
  else
    let '(s, cyc_off) := byte_for_offset env s soff in
    let s := trace (EvRestart soff (ltc_enc_byte s) cyc_off) s in
    let s := mark_restarting s in
    if (0 <=? cyc_off) && (cyc_off <=? int32_t n_samples) then
      let txf := rint (inject_Z cyc_off / fabs (ltc_speed s)) in
      let out := zero_prefix out (Z.to_nat cyc_off) in
      let s := set_enc_pos (Z.rem tc_sample_start (wrap24h env)) s in
      Next (trace (EvRestartAt (ltc_enc_pos s)) s, out, txf)
    else Leave s.

(** The condition of the [else if]: the jitter branch is taken. *)
Definition soft_condition env s : bool :=
  Qneqb (ltc_speed s) 0
  && Qltb 3 (samples_per_timecode_frame env / ltc_speed s / 80).

Definition soft_correction env s (cycle_start_sample : Z) (poff : Q) : Session E :=
  let s := trace EvSoft s in
  set_speed
    (ltc_speed s
     - fmod (inject_Z (ltc_enc_pos s) + ltc_enc_cnt s - poff
             - inject_Z cycle_start_sample)
            (inject_Z (wrap24h env))
       / inject_Z (engine_sample_rate env))%Q s.

Definition align env (t : Tracked) (n_samples : Z) (out : list Q)
    : Step E (Session E * list Q * Z) :=
  let s := t_session t in
  let cycle_start_sample := t_cycle_start t in
  let tc_start := tc_start_of env s cycle_start_sample in
  let tc_sample_start := tc_sample_start_of env s cycle_start_sample in
  let soff := soff_of env s cycle_start_sample (t_speed t) in
  let s := trace (EvAlign cycle_start_sample tc_sample_start soff) s in
  if needs_realign env s cycle_start_sample (t_poff t)
  then realign env s n_samples cycle_start_sample tc_start tc_sample_start
         soff out
  else if soft_condition env s
       then Next (soft_correction env s cycle_start_sample (t_poff t), out, 0)
       else Next (s, out, 0).

(** *** (6) encode and output *)

(** [ltcvol = Config->get_ltc_output_volume () / 90.0] *)
Definition ltcvol env : Q := (ltc_output_volume env / 90)%Q.

(** (6a) send remaining buffer:
    [while ((ltc_buf_off < ltc_buf_len) && (txf < n_samples))]. *)
Fixpoint send_remaining (fuel : nat) env s (n_samples : Z) (out : list Q)
    (txf : Z) : option (Session E * list Q * Z) :=
  if (ltc_buf_off s <? ltc_buf_len s) && (txf <? n_samples) then
    match fuel with
    | O => None
    | S fuel =>
        let v1 := (inject_Z (ltc_enc_buf s (ltc_buf_off s)) - 128)%Q in
        let s := set_buf_off (ltc_buf_off s + 1) s in
        let val := (v1 * ltcvol env)%Q in
        let s := trace (EvSample txf) s in
        send_remaining fuel env s n_samples (store out txf val) (txf + 1)
    end
  else Some (s, out, txf).

(** (6b), first part: the byte to encode when running backwards. *)
Definition step_back env s : Session E :=
  if Qltb (ltc_speed s) 0 then
    let s := set_enc_byte (Z.rem (ltc_enc_byte s + 9) 10) s in
    if ltc_enc_byte s =? 9 then
      let s := set_encoder (ltc_encoder_dec_timecode (ltc_encoder s)) s in
      let s := ltc_tx_recalculate_position env s in
      set_enc_cnt (samples_per_timecode_frame env) s
    else s
  else s.

(** (6b), second part: fill the byte buffer.  [inl]: the session and
    [enc_samples]; [inr]: the session after the encoder error. *)
Definition encode_next env s : Session E * Z + Session E :=
  if restarting s then
    let enc_samples := trunc (samples_per_timecode_frame env / 10) in
    inl (set_enc_buf (memset (ltc_enc_buf s) (ltc_buf_len s) 127 enc_samples) s,
         enc_samples)
  else
    let '(err, e) :=
      ltc_encoder_encode_byte (ltc_encoder s) (ltc_enc_byte s)
        (if Qeq_bool (ltc_speed s) 0 then 1 else 1 / ltc_speed s)%Q in
    let s := set_encoder e s in
    if err then
      let s := trace (EvEncError (ltc_enc_byte s)) s in
      let s := set_encoder (ltc_encoder_buffer_flush (ltc_encoder s)) s in
      inr (ltc_tx_reset s)
    else
      let '(samples, e) := ltc_encoder_get_buffer (ltc_encoder s) in
      let s := set_encoder e s in
      inl (set_enc_buf (copy_out (ltc_enc_buf s) (ltc_buf_len s) samples) s,
           Z.of_nat (length samples)).

(** (6b), last part: count the byte and bump the timecode. *)
Definition step_forward env s (enc_samples : Z) : Session E :=
  let fptcf := samples_per_timecode_frame env in
  let s := set_buf_len (ltc_buf_len s + enc_samples) s in
  let s := if Qltb (ltc_speed s) 0
           then set_enc_cnt (ltc_enc_cnt s - fptcf / 10)%Q s
           else set_enc_cnt (ltc_enc_cnt s + fptcf / 10)%Q s in
  if Qle_bool 0 (ltc_speed s) then
    let s := set_enc_byte (Z.rem (ltc_enc_byte s + 1) 10) s in
    if (ltc_enc_byte s =? 0) && Qneqb (ltc_speed s) 0 then
      let s := set_encoder (ltc_encoder_inc_timecode (ltc_encoder s)) s in
      let s := ltc_tx_recalculate_position env s in
      set_enc_cnt 0 s
    else if ltc_enc_byte s =? 0 then
      set_restarting false (set_enc_cnt 0 s)
    else s
  else s.

(** The loop [while (1)] of step (6).  [None]: out of fuel. *)
Fixpoint encode_and_output (fuel : nat) env s (n_samples : Z) (out : list Q)
    (txf : Z) : option (Session E * list Q) :=
  match fuel with
  | O => None
  | S fuel =>
      match send_remaining (Z.to_nat (n_samples - txf)) env s n_samples out txf with
      | None => None
      | Some (s, out, txf) =>
          if n_samples <=? txf then Some (trace EvDone s, out)
          else
            let s := set_buf_len 0 s in
            let s := set_buf_off 0 s in
            let s := step_back env s in
            match encode_next env s with
            | inr s => Some (s, out)
            | inl (s, enc_samples) =>
                if enc_samples <=? 0 then
                  let s := trace EvEncEmpty s in
                  let s := set_encoder
                             (ltc_encoder_buffer_flush (ltc_encoder s)) s in
                  Some (ltc_tx_reset s, out)
                else
                  encode_and_output fuel env (step_forward env s enc_samples)
                    n_samples out txf
            end
      end
  end.

(** *** The cycle *)

Definition leave s (out : list Q) : Result E :=
  mkResult (Some (set_dbg [] s)) out (rev (dbg s)).

Definition gone (log : list Event) (out : list Q) : Result E :=
  mkResult None out (rev log).

(** The guards at the top of [send_ltc_for_cycle] that follow the test of
    the two pointers. *)
Definition generation_off env : bool :=
  negb (transport_master_current env)
  || freewheeling env
  || negb (send_ltc env)
  || (external_sync env && is_MIDIClock (sync_src env)).

(** [Session::send_ltc_for_cycle]; a session enters with an empty trace.
    [None]: one of the loops ran out of fuel. *)
Definition send_ltc_for_cycle env (ss : option (Session E))
    (start_sample end_sample n_samples : Z) : option (Result E) :=
  if negb (ltc_output_port env) then Some (mkResult ss [] [])
  else
    let out := silence n_samples in
    match ss with
    | None => Some (mkResult None out [])
    | Some s =>
        if generation_off env then Some (leave s out)
        else
          match check_fps env s with
          | Leave s => Some (leave s out)
          | Dead l => Some (gone l out)
          | Next s =>
              if Qltb 30 (timecode_to_frames_per_second (timecode_format env))
              then Some (leave s out)
              else
                match speed_and_direction env s start_sample end_sample
                        n_samples with
                | None => None
                | Some (Leave s) => Some (leave s out)
                | Some (Dead l) => Some (gone l out)
                | Some (Next t) =>
                    match align env t n_samples out with
                    | Leave s => Some (leave s out)
                    | Dead l => Some (gone l out)
                    | Next (s, out, txf) =>
                        match encode_and_output
                                (S (Z.to_nat (n_samples - txf)))
                                env s n_samples out txf with
                        | None => None
                        | Some (s, out) => Some (leave s out)
                        end
                    end
                end
          end
    end.

(** Consecutive cycles: the session of one call enters the next. *)
Record Cycle : Type := mkCycle {
  c_env : Env;
  c_start : Z;
  c_end : Z;
  c_n : Z }.

Fixpoint run (ss : option (Session E)) (cs : list Cycle)
    : option (list (Result E) * option (Session E)) :=
  match cs with
  | [] => Some ([], ss)
  | c :: cs =>
      match send_ltc_for_cycle (c_env c) ss (c_start c) (c_end c) (c_n c) with
      | None => None
      | Some r =>
          match run (r_session r) cs with
          | None => None
          | Some (rs, ss') => Some (r :: rs, ss')
          end
      end
  end.

End Generator.

(** ** A test encoder and a test configuration

    Concrete collaborators on which the generator can be run: an encoder
    that keeps the timecode as a frame count and emits a fixed level per
    byte, and a session at 48 kHz and 25 fps without generator offset. *)

Module TestEncoder.

Record Enc : Type := mkEnc {
  e_frame : Z;          (* timecode as a count of frames *)
  e_fps : Z;            (* frames per second, rounded up *)
  e_spb : Q;            (* samples per byte at speed 1 *)
  e_df : bool;          (* drop-frame bit of the frame *)
  e_queue : list Z;     (* encoded samples not yet fetched *)
  e_budget : nat }.     (* bytes that can still be encoded *)

Definition frame_of (fps : Z) (tc : SMPTETimecode) : Z :=
  ((tc_hours tc * 60 + tc_mins tc) * 60 + tc_secs tc) * fps + tc_frame tc.

Definition timecode_of (fps frame : Z) : SMPTETimecode :=
  mkSMPTE ((frame / (fps * 3600)) mod 24) ((frame / (fps * 60)) mod 60)
    ((frame / fps) mod 60) (frame mod fps).

Definition reset (e : Enc) : Enc :=
  mkEnc (e_frame e) (e_fps e) (e_spb e) (e_df e) [] (e_budget e).

(** Modelled from the spec: [reinit] fails if the requested frame rate
    exceeds 30 fps; on success all buffered state is discarded. *)
Definition reinit (e : Enc) (sr : Z) (fps : Q) (std : LTC_TV_STANDARD)
    : option Enc :=
  if Qltb 30 fps then None
  else Some (mkEnc (e_frame e) (Qceiling fps) (inject_Z sr / fps / 10)%Q
               (e_df e) [] (e_budget e)).

Definition set_timecode (e : Enc) (tc : SMPTETimecode) : Enc :=
  mkEnc (frame_of (e_fps e) tc) (e_fps e) (e_spb e) (e_df e) (e_queue e)
    (e_budget e).

Definition set_frame (e : Enc) (f : LTCFrame) : Enc :=
  mkEnc (frame_bits f) (e_fps e) (e_spb e) (dfbit f) (e_queue e) (e_budget e).

Definition step_timecode (d : Z) (e : Enc) : Enc :=
  mkEnc ((e_frame e + d) mod (e_fps e * 86400)) (e_fps e) (e_spb e) (e_df e)
    (e_queue e) (e_budget e).

(** One byte at speed ratio [speed]: [trunc (spb * |speed|)] samples at one
    of the two levels of libltc's range (38..218); fails when the budget is
    used up. *)
Definition encode_byte (e : Enc) (byte : Z) (speed : Q) : bool * Enc :=
  match e_budget e with
  | O => (true, e)
  | S b =>
      let k := Z.to_nat (trunc (e_spb e * fabs speed)) in
      (false,
       mkEnc (e_frame e) (e_fps e) (e_spb e) (e_df e)
         (e_queue e ++ repeat (if Z.even byte then 218 else 38) k) b)
  end.

#[global] Instance test_encoder : LTCEncoder Enc := {|
  ltc_encoder_reset := reset;
  ltc_encoder_reinit := reinit;
  ltc_encoder_set_filter := fun e _ => e;
  ltc_encoder_set_timecode := set_timecode;
  ltc_encoder_get_timecode := fun e => timecode_of (e_fps e) (e_frame e);
  ltc_encoder_get_frame := fun e => mkFrame (e_df e) (e_frame e);
  ltc_encoder_set_frame := set_frame;
  ltc_encoder_inc_timecode := step_timecode 1;
  ltc_encoder_dec_timecode := step_timecode (-1);
  ltc_encoder_encode_byte := encode_byte;
  ltc_encoder_get_buffer := fun e => (e_queue e, reset e);
  ltc_encoder_buffer_flush := reset |}.

(** The encoder of a session at 48 kHz and 25 fps that can encode [budget]
    more bytes. *)
Definition enc25 (budget : nat) : Enc := mkEnc 0 25 192 false [] budget.

End TestEncoder.

Module TestEnv.

(** 48 kHz, 25 fps: 1920 samples per frame, no drop frames, no offset. *)
Definition sample_to_timecode25 (sample : Z) (_ : bool) (_ : Z) : Time :=
  let fr := sample / 1920 in
  mkTime false (fr / 90000) ((fr / 1500) mod 60) ((fr / 25) mod 60)
    (fr mod 25) 25 false.

Definition timecode_to_sample25 (tc : Time) (_ : bool) (_ : Z) : Z :=
  (((hours tc * 60 + minutes tc) * 60 + seconds tc) * 25 + frames tc) * 1920.

(** libltc's [ltc_frame_alignment]. *)
Definition frame_alignment (samples_per_frame : Q) (std : LTC_TV_STANDARD) : Z :=
  match std with
  | LTC_TV_525_60 => rint (samples_per_frame * 4 / 525)
  | LTC_TV_625_50 => rint (samples_per_frame * 1 / 625)
  | LTC_TV_FILM_24 => 0
  end.

(** Internal transport at 48 kHz, 25 fps, output volume 45 (gain 1/2). *)
Definition env25 (continuous : bool) : Env :=
  mkEnv true true Engine false true false 45 continuous timecode_25
    48000 48000 48000 1920 0 false false 0
    sample_to_timecode25 timecode_to_sample25 frame_alignment.

Definition with_format (f : TimecodeFormat) (env : Env) : Env :=
  mkEnv (ltc_output_port env) (transport_master_current env) (sync_src env)
    (freewheeling env) (send_ltc env) (external_sync env)
    (ltc_output_volume env) (ltc_send_continuously env) f
    (nominal_sample_rate env) (sample_rate env) (engine_sample_rate env)
    (samples_per_timecode_frame env) (timecode_generator_offset env)
    (timecode_generator_offset_negative env)
    (transport_master_is_external env) (transport_master_resolution env)
    (sample_to_timecode env) (timecode_to_sample env)
    (ltc_frame_alignment env).

(** The same session seen while [samples_per_timecode_frame] already is
    that of another frame rate. *)
Definition with_frame_samples (q : Q) (env : Env) : Env :=
  mkEnv (ltc_output_port env) (transport_master_current env) (sync_src env)
    (freewheeling env) (send_ltc env) (external_sync env)
    (ltc_output_volume env) (ltc_send_continuously env) (timecode_format env)
    (nominal_sample_rate env) (sample_rate env) (engine_sample_rate env)
    q (timecode_generator_offset env)
    (timecode_generator_offset_negative env)
    (transport_master_is_external env) (transport_master_resolution env)
    (sample_to_timecode env) (timecode_to_sample env)
    (ltc_frame_alignment env).

(** The session that [ltc_tx_initialize] leaves, without port latency. *)
Definition cold (budget : nat) : Session TestEncoder.Enc :=
  ltc_tx_initialize (enc := TestEncoder.test_encoder) (env25 true)
    (TestEncoder.enc25 budget) 0.

End TestEnv.

(** * Vocabulary of the properties *)

(** The events that steps (1) and (2) can log. *)
Definition tracker_event (e : Event) : bool :=
  match e with
  | EvReset | EvReinit | EvDirection | EvSpeedChange | EvNotRolling
  | EvNoRollSeek | EvOutOfBounds | EvStartedRolling | EvResampleDestroy
  | EvSpeed _ => true
  | _ => false
  end.

(** The events that steps (3) to (5) can log. *)
Definition align_event (e : Event) : bool :=
  match e with
  | EvAlign _ _ _ | EvReset | EvRealign _ _ _ | EvRestart _ _ _
  | EvRestartAt _ | EvSoft => true
  | _ => false
  end.

(** The events that step (6) can log. *)
Definition output_event (e : Event) : bool :=
  match e with
  | EvSample _ | EvDone | EvEncError _ | EvEncEmpty | EvReset => true
  | _ => false
  end.

(** The events that follow [EvRealign] within step (5). *)
Definition restart_event (e : Event) : bool :=
  match e with
  | EvReset | EvRestart _ _ _ | EvRestartAt _ => true
  | _ => false
  end.



(** [grown P old new]: [new] is [old] with events in front of it, all of
    which satisfy [P]. *)
Inductive grown (P : Event -> bool) (old : list Event) : list Event -> Prop :=
| grown_same : grown P old old
| grown_cons e l : P e = true -> grown P old l -> grown P old (e :: l).


(** The invariant of the byte buffer and of the byte index. *)
Definition buffer_inv {E : Type} (s : Session E) : Prop :=
  ltc_buf_off s <= ltc_buf_len s /\ 0 <= ltc_enc_byte s <= 9.

(** The session and the trace that a step leaves. *)
Definition step_dbg {E A : Type} (session_of : A -> Session E)
    (x : Step E A) : list Event :=
  match x with
  | Leave s => dbg s
  | Dead l => l
  | Next a => dbg (session_of a)
  end.

(** The session (if any) that a step leaves. *)
Definition step_session {E A : Type} (session_of : A -> Session E)
    (x : Step E A) : option (Session E) :=
  match x with
  | Leave s => Some s
  | Dead _ => None
  | Next a => Some (session_of a)
  end.


(** The ways through one cycle of a session with port, encoder and buffer:
    which step ended it, with the values handed from step to step. *)
Inductive cycle_path {E : Type} {enc : LTCEncoder E} (env : Env)
    (s : Session E) (st en n : Z) : Result E -> Prop :=
| path_off :
    generation_off env = true ->
    cycle_path env s st en n (leave s (silence n))
| path_dead l :
    generation_off env = false ->
    check_fps env s = Dead l ->
    cycle_path env s st en n (gone l (silence n))
| path_fps s1 :
    generation_off env = false ->
    check_fps env s = Next s1 ->
    Qltb 30 (timecode_to_frames_per_second (timecode_format env)) = true ->
    cycle_path env s st en n (leave s1 (silence n))
| path_skip s1 s2 :
    generation_off env = false ->
    check_fps env s = Next s1 ->
    Qltb 30 (timecode_to_frames_per_second (timecode_format env)) = false ->
    speed_and_direction env s1 st en n = Some (Leave s2) ->
    cycle_path env s st en n (leave s2 (silence n))
| path_defer s1 t s3 :
    generation_off env = false ->
    check_fps env s = Next s1 ->
    Qltb 30 (timecode_to_frames_per_second (timecode_format env)) = false ->
    speed_and_direction env s1 st en n = Some (Next t) ->
    align env t n (silence n) = Leave s3 ->
    cycle_path env s st en n (leave s3 (silence n))
| path_render s1 t s3 out3 txf3 s4 out4 :
    generation_off env = false ->
    check_fps env s = Next s1 ->
    Qltb 30 (timecode_to_frames_per_second (timecode_format env)) = false ->
    speed_and_direction env s1 st en n = Some (Next t) ->
    align env t n (silence n) = Next (s3, out3, txf3) ->
    encode_and_output (S (Z.to_nat (n - txf3))) env s3 n out3 txf3
    = Some (s4, out4) ->
    cycle_path env s st en n (leave s4 out4).


(** Members that steps (1) to (5) never write, or write only at one place. *)
Definition same_setup {E : Type} (s s' : Session E) : Prop :=
  ltc_out_latency_max s' = ltc_out_latency_max s
  /\ ltc_enc_tcformat s' = ltc_enc_tcformat s
  /\ ltc_timecode_offset s' = ltc_timecode_offset s
  /\ ltc_timecode_negative_offset s' = ltc_timecode_negative_offset s.

(** [s'] is [s] after zero or more [ltc_tx_reset]: the queue and the
    encoder position are those of [s], or those that a reset leaves. *)
Definition kept_or_reset {E : Type} (s s' : Session E) : Prop :=
  (ltc_buf_len s' = ltc_buf_len s /\ ltc_buf_off s' = ltc_buf_off s
   /\ ltc_enc_pos s' = ltc_enc_pos s /\ ltc_enc_cnt s' = ltc_enc_cnt s
   /\ ltc_enc_byte s' = ltc_enc_byte s)
  \/ (ltc_buf_len s' = 0 /\ ltc_buf_off s' = 0
      /\ ltc_enc_pos s' = -9999 /\ ltc_enc_cnt s' = 0%Q
      /\ ltc_enc_byte s' = 0).

Definition tracker_frame {E : Type} (s s' : Session E) : Prop :=
  same_setup s s'
  /\ ltc_speed s' = ltc_speed s
  /\ ltc_prev_cycle s' = ltc_prev_cycle s
  /\ restarting s' = restarting s.

(** The speed that step (2) settles on: [0] when not rolling. *)
Definition effective_speed (env : Env) (st en n : Z) : Q :=
  let v := rescale_speed env (raw_speed st en n) in
  if (en =? st) || Qltb (fabs v) (1 # 10) then 0%Q else v.


(** ** The alignment check, in the words of the specification *)

(** The two fractional formats near 24 fps. *)
Definition near24 (f : TimecodeFormat) : bool :=
  match f with
  | timecode_23976 | timecode_24976 => true
  | _ => false
  end.

(** [2 * ceil |speed|], times 3 when the sample rates differ, times 15 for
    the formats near 24 fps; the resolution of the transport master when it
    is external. *)
Definition tolerance (external : bool) (resolution : Z) (speed : Q)
    (rates_differ near_24 : bool) : Q :=
  if external then inject_Z resolution
  else (2 * inject_Z (Qceiling (Qabs speed))
        * (if rates_differ then 3 else 1)
        * (if near_24 then 15 else 1))%Q.

Definition tolerance_of {E : Type} (env : Env) (s : Session E) : Q :=
  tolerance (transport_master_is_external env)
    (transport_master_resolution env) (ltc_speed s)
    (negb (nominal_sample_rate env =? sample_rate env))
    (near24 (ltc_enc_tcformat s)).

(** The hard resync is due, for the session [s] that enters step (4): its
    speed is the speed of the current block. *)
Definition resync_due {E : Type} (env : Env) (s : Session E)
    (aligned_start : Z) (poff : Q) : Prop :=
  ltc_enc_pos s < 0
  \/ (~ (ltc_speed s == 0)%Q
      /\ (tolerance_of env s
          < Qabs (fmod (inject_Z (Qceiling (inject_Z (ltc_enc_pos s)
                                            + ltc_enc_cnt s - poff)))
                       (inject_Z (wrap24h env))
                  - inject_Z (Z.rem aligned_start (wrap24h env))))%Q).

(** The condition as claim C1 words it: the sentinel, or a previous speed
    [prev_speed] that is not 0 and a wrapped difference between the expected
    position and the aligned start beyond the tolerance for [prev_speed]. *)
Definition claimed_resync_due (env : Env) (tcformat : TimecodeFormat)
    (enc_pos : Z) (enc_cnt : Q) (buffered : Z) (prev_speed : Q)
    (aligned_start : Z) : bool :=
  (enc_pos =? -9999)
  || (Qneqb prev_speed 0
      && Qltb (tolerance (transport_master_is_external env)
                 (transport_master_resolution env) prev_speed
                 (negb (nominal_sample_rate env =? sample_rate env))
                 (near24 tcformat))
              (Qabs (fmod (inject_Z enc_pos + enc_cnt
                           - inject_Z buffered * prev_speed
                           - inject_Z aligned_start)
                          (inject_Z (wrap24h env))))).


(** The soft correction is due, as claim C7 words it: no hard resync in
    this block and one byte (a tenth of a frame) at the current speed
    lasting more than 3 samples. *)
Definition claimed_soft_due (hard_resync : bool) (fptcf speed : Q) : bool :=
  negb hard_resync && Qltb 3 (fptcf / 10 / Qabs speed).


(** ** The hard resync, in the words of the specification *)

(** The byte index covering [soff]: floor for reverse speed, ceil for
    forward speed (before index 10 wraps to 0). *)
Definition resync_byte (fptcf speed : Q) (soff : Z) : Z :=
  if Qltb speed 0 then Qfloor (10 * inject_Z soff / fptcf)
  else Qceiling (10 * inject_Z soff / fptcf).

(** The distance from the current position to that byte. *)
Definition resync_offset (fptcf speed : Q) (soff : Z) : Z :=
  let cnt := Qceiling (inject_Z (resync_byte fptcf speed soff) * fptcf / 10) in
  if Qltb speed 0 then soff - cnt else cnt - soff.

(** The byte index with index 10 wrapped to 0, as claim C4 words it. *)
Definition claimed_byte (fptcf speed : Q) (soff : Z) : Z :=
  if resync_byte fptcf speed soff =? 10 then 0
  else resync_byte fptcf speed soff.

Definition is_EvRestartAt (e : Event) : bool :=
  match e with EvRestartAt _ => true | _ => false end.


Definition is_EvRealign_at (c tcs soff : Z) (e : Event) : bool :=
  match e with
  | EvRealign a b d => (a =? c) && (b =? tcs) && (d =? soff)
  | _ => false
  end.


(** The encoder reported an error or returned no sample. *)
Definition is_enc_failure (e : Event) : bool :=
  match e with
  | EvEncError _ | EvEncEmpty => true
  | _ => false
  end.


(** In a trace (oldest event first), an [ltc_tx_reset] happens before the
    first sample is written to the port buffer. *)
Definition reset_precedes_output (tr : list Event) : Prop :=
  exists before after,
    tr = before ++ EvReset :: after /\ existsb is_EvSample before = false.

(** The events that steps (3) to (6) can log. *)
Definition late_event (e : Event) : bool := align_event e || output_event e.


(** ** Reading the results of consecutive cycles *)

Definition results_of {E : Type}
    (o : option (list (Result E) * option (Session E))) : list (Result E) :=
  match o with
  | Some (rs, _) => rs
  | None => []
  end.

(** The result of cycle number [k] (from 0). *)
Definition result_at {E : Type} (k : nat)
    (o : option (list (Result E) * option (Session E))) : option (Result E) :=
  nth_error (results_of o) k.

(** The session that cycle number [k] leaves. *)
Definition session_after {E : Type} (k : nat)
    (o : option (list (Result E) * option (Session E)))
    : option (Session E) :=
  match result_at k o with
  | Some r => r_session r
  | None => None
  end.

(** Cycles of [n] samples at a constant step of [step] timeline samples,
    the first one starting at [start]. *)
Definition constant_cycles (env : Env) (start step n : Z) (k : nat)
    : list Cycle :=
  map (fun i => mkCycle env (start + Z.of_nat i * step)
                  (start + Z.of_nat (S i) * step) n) (seq 0 k).


(** ** A start that no cycle reaches *)

(** What a session keeps while it waits for a start: the sentinel, at
    25 fps and without port latency. *)
Definition waiting {E : Type} (s : Session E) : Prop :=
  ltc_enc_pos s = -9999
  /\ ltc_enc_tcformat s = timecode_25
  /\ ltc_out_latency_max s = 0.

(** A cycle that got to "resync next cycle": silence, and a session that
    still waits. *)
Definition deferred {E : Type} (n : Z) (r : Result E) : Prop :=
  r_out r = silence n
  /\ exists s, r_session r = Some s /\ waiting s.



(** Sessions that the test configuration reaches. *)
Module Scenario.

(** One cycle of 256 samples at speed 1 from the cold session: the
    generator is locked, with bytes left in the queue. *)
Definition locked : Session TestEncoder.Enc :=
  match session_after 0
          (run (Some (TestEnv.cold 100))
             [mkCycle (TestEnv.env25 true) 3 259 256]) with
  | Some s => s
  | None => TestEnv.cold 100
  end.

(** Two cycles of 240 samples at speed 8. *)
Definition fast : list Cycle :=
  constant_cycles (TestEnv.env25 true) 3 1920 240 2.

(** [k] cycles of 128 samples at speed 3/2, the first one at sample 4: each
    cycle starts one sample after a byte boundary of the frame. *)
Definition stalled (k : nat) : list Cycle :=
  constant_cycles (TestEnv.env25 true) 4 192 128 k.

(** What the tracker hands to the alignment check for the block
    259 -> 515 of 256 samples from the cold session: speed 1 and, after the
    3 samples of frame alignment, the aligned start 256. *)
Definition handed : @Tracked TestEncoder.Enc :=
  match speed_and_direction (TestEnv.env25 true) (TestEnv.cold 100)
          259 515 256 with
  | Some (Next t) => t
  | _ => mkTracked (TestEnv.cold 100) 0 0 0
  end.


End Scenario.


(** * Vocabulary of the further properties *)

(** ** The port buffer of a cycle *)

(** The event of a sample written at an index from [lo] up to, not
    including, [hi]. *)
Definition sample_within (lo hi : Z) (e : Event) : bool :=
  match e with
  | EvSample i => (lo <=? i) && (i <? hi)
  | _ => false
  end.

(** What step (6) logs while it writes from index [lo] on into a buffer of
    [hi] samples. *)
Definition output_within (lo hi : Z) (e : Event) : bool :=
  sample_within lo hi e || (output_event e && negb (is_EvSample e)).

(** An event that writes no sample outside a port buffer of [n] samples. *)
Definition in_bounds (n : Z) (e : Event) : bool :=
  match e with
  | EvSample i => (0 <=? i) && (i <? n)
  | _ => true
  end.

(** A session whose trace shows a reset holds the sentinel. *)
Definition reset_shows {E : Type} (s : Session E) : Prop :=
  existsb is_EvReset (dbg s) = true -> ltc_enc_pos s = -9999.

(** ** The queue of encoded samples *)

(** [count] bytes of the buffer from index [from] on. *)
Fixpoint take_bytes (buf : Z -> Z) (from : Z) (count : nat) : list Z :=
  match count with
  | O => []
  | S c => buf from :: take_bytes buf (from + 1) c
  end.

(** The bytes of the buffer from [off] up to, not including, [len]. *)
Definition bytes (buf : Z -> Z) (off len : Z) : list Z :=
  take_bytes buf off (Z.to_nat (len - off)).

(** The samples that are encoded and not yet sent. *)
Definition queue {E : Type} (s : Session E) : list Z :=
  bytes (ltc_enc_buf s) (ltc_buf_off s) (ltc_buf_len s).

(** [squeezed l l']: [l'] is [l] with some of its elements left out. *)
Inductive squeezed {A : Type} : list A -> list A -> Prop :=
| squeezed_nil : squeezed [] []
| squeezed_drop x l l' : squeezed l l' -> squeezed (x :: l) l'
| squeezed_keep x l l' : squeezed l l' -> squeezed (x :: l) (x :: l').

(** [stretched l l']: [l'] is [l] with some of its elements repeated, each
    copy next to its original. *)
Inductive stretched {A : Type} : list A -> list A -> Prop :=
| stretched_nil : stretched [] []
| stretched_keep x l l' : stretched l l' -> stretched (x :: l) (x :: l')
| stretched_dup x l l' : stretched (x :: l) l' -> stretched (x :: l) (x :: l').

(** The number of queued samples, [oldbuflen] of the re-sampling. *)
Definition queue_length {E : Type} (s : Session E) : Z :=
  ltc_buf_len s - ltc_buf_off s.

(** [newbuflen]: the length the queue should have at speed [v]. *)
Definition resampled_length {E : Type} (s : Session E) (v : Q) : Q :=
  (inject_Z (queue_length s) * fabs (ltc_speed s / v))%Q.

(** The test "resampling buffer would destroy information". *)
Definition resample_destroys {E : Type} (s : Session E) (v : Q) : bool :=
  let oldbuflen := inject_Z (queue_length s) in
  let newbuflen := resampled_length s v in
  let bufrspdiff := inject_Z (rint (newbuflen - oldbuflen)) in
  Qltb newbuflen (fabs bufrspdiff) || Qltb oldbuflen (fabs bufrspdiff).



(** ** What steps (3) to (6) leave alone *)

(** The members that only the initialisation, step (1) and step (2)
    write. *)
Definition same_config {E : Type} (s s' : Session E) : Prop :=
  same_setup s s' /\ ltc_prev_cycle s' = ltc_prev_cycle s.


(** * Properties *)

(** ** Comparisons and rounding *)

Lemma Qltb_lt (x y : Q) : Qltb x y = true <-> (x < y)%Q.
Proof.
  unfold Qltb. rewrite negb_true_iff. split; intro H.
  - apply Qnot_le_lt. intro L. apply Qle_bool_iff in L. congruence.
  - destruct (Qle_bool y x) eqn:L; [|reflexivity].
    apply Qle_bool_iff in L. exfalso. exact (Qlt_not_le _ _ H L).
Qed.

Lemma Qltb_ge (x y : Q) : Qltb x y = false <-> (y <= x)%Q.
Proof.
  unfold Qltb. rewrite negb_false_iff. apply Qle_bool_iff.
Qed.

Lemma Qneqb_neq (x y : Q) : Qneqb x y = true <-> ~ (x == y)%Q.
Proof.
  unfold Qneqb. rewrite negb_true_iff. split; intro H.
  - now apply Qeq_bool_neq.
  - destruct (Qeq_bool x y) eqn:L; [|reflexivity].
    apply Qeq_bool_iff in L. contradiction.
Qed.

Lemma Qneqb_eq (x y : Q) : Qneqb x y = false <-> (x == y)%Q.
Proof.
  unfold Qneqb. rewrite negb_false_iff. apply Qeq_bool_iff.
Qed.

Lemma Qle_bool_gt (x y : Q) : Qle_bool x y = false <-> (y < x)%Q.
Proof.
  split; intro H.
  - apply Qnot_le_lt. intro L. apply Qle_bool_iff in L. congruence.
  - destruct (Qle_bool x y) eqn:L; [|reflexivity].
    apply Qle_bool_iff in L. exfalso. exact (Qlt_not_le _ _ H L).
Qed.

(** ** The trace only grows *)

Lemma grown_trans P l1 l2 l3 :
  grown P l1 l2 -> grown P l2 l3 -> grown P l1 l3.
Proof.
  intros H12 H23. induction H23; [assumption|].
  now constructor.
Qed.

Lemma grown_weaken (P Q : Event -> bool) l1 l2 :
  (forall e, P e = true -> Q e = true) -> grown P l1 l2 -> grown Q l1 l2.
Proof.
  intros HPQ H. induction H; constructor; auto.
Qed.

Lemma grown_app P l1 l2 :
  grown P l1 l2 -> exists front, l2 = front ++ l1 /\ forallb P front = true.
Proof.
  induction 1 as [|e l He _ [front [-> Hf]]].
  - exists []. split; reflexivity.
  - exists (e :: front). split; [reflexivity|]. simpl. now rewrite He, Hf.
Qed.

Lemma grown_In P l1 l2 e :
  grown P l1 l2 -> In e l2 -> P e = true \/ In e l1.
Proof.
  induction 1 as [|e' l He' _ IH]; intro Hin; [now right|].
  destruct Hin as [->|Hin]; [now left|auto].
Qed.

Lemma grown_existsb P (f : Event -> bool) l1 l2 :
  (forall e, P e = true -> f e = false) ->
  grown P l1 l2 -> existsb f l2 = existsb f l1.
Proof.
  intros HP H. induction H as [|e l He _ IH]; [reflexivity|].
  simpl. now rewrite (HP e He), IH.
Qed.

Lemma grown_existsb_mono P (f : Event -> bool) l1 l2 :
  grown P l1 l2 -> existsb f l1 = true -> existsb f l2 = true.
Proof.
  intros H H1. induction H as [|e l _ _ IH]; [assumption|].
  simpl. rewrite IH. apply orb_true_r.
Qed.

Section Properties.
Context {E : Type} {enc : LTCEncoder E}.
Implicit Type s : Session E.
Implicit Type env : Env.

(** ** The aligned start position *)

Lemma cycle_start_latency env s s' start_sample v :
  ltc_out_latency_max s' = ltc_out_latency_max s ->
  cycle_start env s' start_sample v = cycle_start env s start_sample v.
Proof. intro H. unfold cycle_start. now rewrite H. Qed.

Lemma cycle_start_cases env s (start_sample : Z) (v : Q) :
  let lat := ltc_out_latency_max s in
  let a := ltc_frame_alignment env (samples_per_timecode_frame env)
             (TV_STANDARD (timecode_format env)) in
  ((0 < v)%Q ->
   cycle_start env s start_sample v = Z.max 0 (start_sample + lat - a))
  /\ ((v < 0)%Q ->
      cycle_start env s start_sample v = Z.max 0 (start_sample - lat - a))
  /\ ((v == 0)%Q -> cycle_start env s start_sample v = Z.max 0 start_sample)
  /\ 0 <= cycle_start env s start_sample v.
Proof.
  intros lat a. unfold cycle_start. fold lat. fold a.
  repeat split.
  - intro Hv.
    assert (H1 : Qltb v 0 = false) by (apply Qltb_ge; now apply Qlt_le_weak).
    assert (H2 : Qltb 0 v = true) by now apply Qltb_lt.
    assert (H3 : Qneqb v 0 = true).
    { apply Qneqb_neq. intro H. rewrite H in Hv. exact (Qlt_irrefl _ Hv). }
    rewrite H1, H2, H3.
    destruct (start_sample + lat - a <? 0) eqn:L;
      [apply Z.ltb_lt in L | apply Z.ltb_ge in L]; lia.
  - intro Hv.
    assert (H1 : Qltb v 0 = true) by now apply Qltb_lt.
    assert (H3 : Qneqb v 0 = true).
    { apply Qneqb_neq. intro H. rewrite H in Hv. exact (Qlt_irrefl _ Hv). }
    rewrite H1, H3.
    destruct (start_sample - lat - a <? 0) eqn:L;
      [apply Z.ltb_lt in L | apply Z.ltb_ge in L]; lia.
  - intro Hv.
    assert (H1 : Qltb v 0 = false) by (apply Qltb_ge; rewrite Hv; apply Qle_refl).
    assert (H2 : Qltb 0 v = false) by (apply Qltb_ge; rewrite Hv; apply Qle_refl).
    assert (H3 : Qneqb v 0 = false) by now apply Qneqb_eq.
    rewrite H1, H2, H3.
    destruct (start_sample <? 0) eqn:L;
      [apply Z.ltb_lt in L | apply Z.ltb_ge in L]; lia.
  - match goal with |- 0 <= (if ?c <? 0 then _ else _) =>
      destruct (c <? 0) eqn:L; [lia | apply Z.ltb_ge in L; lia] end.
Qed.

(** ** What each step adds to the trace *)

Ltac break_in H :=
  match type of H with
  | context [if ?c then _ else _] => destruct c eqn:?
  | context [match ?c with _ => _ end] => destruct c eqn:?
  end.

Ltac break_goal :=
  match goal with
  | |- context [if ?c then _ else _] => destruct c eqn:?
  | |- context [match ?c with _ => _ end] => destruct c eqn:?
  end.

Ltac grow :=
  cbn; repeat first [apply grown_same | apply grown_cons; [reflexivity|]].

Lemma reset_grown P s :
  P EvReset = true -> grown P (dbg s) (dbg (ltc_tx_reset s)).
Proof. intro H. cbn. apply grown_cons; [assumption | apply grown_same]. Qed.

Lemma check_fps_grown env s :
  grown (fun e => tracker_event e || is_EvError e
                  || match e with EvCleanup => true | _ => false end)
    (dbg s) (step_dbg (fun a => a) (check_fps env s)).
Proof. unfold check_fps. repeat break_goal; grow. Qed.

Lemma check_fps_next env s s' :
  check_fps env s = Next s' -> grown tracker_event (dbg s) (dbg s').
Proof.
  unfold check_fps. intro H. repeat break_in H; inversion H; subst; grow.
Qed.

Lemma check_fps_never_leaves env s s' : check_fps env s <> Leave s'.
Proof. unfold check_fps. repeat break_goal; discriminate. Qed.

Lemma direction_check_grown s v :
  grown tracker_event (dbg s) (dbg (direction_check s v)).
Proof. unfold direction_check. break_goal; grow. Qed.

Lemma speed_change_check_grown env s v :
  grown tracker_event (dbg s) (dbg (fst (speed_change_check env s v))).
Proof. unfold speed_change_check. break_goal; grow. Qed.

Lemma not_rolling_check_grown env s st en v :
  grown tracker_event (dbg s)
    (step_dbg fst (not_rolling_check env s st en v)).
Proof. unfold not_rolling_check. repeat break_goal; grow. Qed.

Lemma started_rolling_check_grown s v :
  grown tracker_event (dbg s) (dbg (started_rolling_check s v)).
Proof. unfold started_rolling_check. break_goal; grow. Qed.

Lemma resample_grown env s v poff s' poff' :
  resample env s v poff = Some (s', poff') ->
  grown tracker_event (dbg s) (dbg s').
Proof.
  unfold resample. intro H.
  repeat break_in H; inversion H; subst; grow.
Qed.

Lemma speed_and_direction_grown env s st en n x :
  speed_and_direction env s st en n = Some x ->
  grown tracker_event (dbg s) (step_dbg t_session x).
Proof.
  unfold speed_and_direction, settle_speed. intro H.
  pose proof (direction_check_grown s (rescale_speed env (raw_speed st en n)))
    as G1.
  set (s1 := direction_check s _) in *.
  pose proof (speed_change_check_grown env s1
                (rescale_speed env (raw_speed st en n))) as G2.
  destruct (speed_change_check env s1 _) as [s2 changed] eqn:Hsc.
  cbn [fst] in G2.
  pose proof (not_rolling_check_grown env s2 st en
                (rescale_speed env (raw_speed st en n))) as G3.
  destruct (not_rolling_check env s2 st en _) as [s3|l|[s3 v]] eqn:Hnr.
  - inversion H; subst. cbn in *. eauto using grown_trans.
  - exfalso. revert Hnr. unfold not_rolling_check.
    repeat break_goal; discriminate.
  - cbn [step_dbg fst] in G3.
    assert (G123 : grown tracker_event (dbg s) (dbg s3))
      by eauto using grown_trans.
    destruct (Qltb 10 (fabs v)).
    + inversion H; subst. cbn [step_dbg].
      eapply grown_trans; [exact G123|]. grow.
    + pose proof (started_rolling_check_grown s3 v) as G4.
      set (s4 := started_rolling_check s3 v) in *.
      destruct (changed && Qneqb v 0).
      * destruct (resample env s4 v _) as [[s5 p5]|] eqn:Hr; [|discriminate].
        apply resample_grown in Hr.
        inversion H; subst. cbn [step_dbg t_session].
        apply (grown_trans _ _ (dbg s5)); [eauto using grown_trans | grow].
      * inversion H; subst. cbn [step_dbg t_session].
        apply (grown_trans _ _ (dbg s4)); [eauto using grown_trans | grow].
Qed.


Lemma recalculate_position_dbg env s :
  dbg (ltc_tx_recalculate_position env s) = dbg s.
Proof. reflexivity. Qed.

Lemma byte_for_offset_dbg env s soff :
  dbg (fst (byte_for_offset env s soff)) = dbg s.
Proof. unfold byte_for_offset. repeat break_goal; reflexivity. Qed.

Lemma mark_restarting_dbg s : dbg (mark_restarting s) = dbg s.
Proof. unfold mark_restarting. break_goal; reflexivity. Qed.

Lemma realign_shape env s n c tc tcs soff out :
  grown restart_event (EvRealign c tcs soff :: EvReset :: dbg s)
    (step_dbg (fun x => fst (fst x)) (realign env s n c tc tcs soff out)).
Proof.
  unfold realign.
  set (s1 := trace _ (seed_encoder env s tc)).
  assert (G1 : dbg s1 = EvRealign c tcs soff :: EvReset :: dbg s)
    by reflexivity.
  rewrite <- G1.
  destruct (_ || _).
  - grow.
  - pose proof (byte_for_offset_dbg env s1 soff) as Hb.
    destruct (byte_for_offset env s1 soff) as [s2 cyc_off].
    cbn [fst] in Hb.
    set (s3 := mark_restarting _).
    assert (G3 : grown restart_event (dbg s1) (dbg s3)).
    { subst s3. rewrite mark_restarting_dbg. cbn [dbg trace set_dbg].
      rewrite Hb. apply grown_cons; [reflexivity | apply grown_same]. }
    destruct (_ && _); cbn [step_dbg fst].
    + eapply grown_trans; [exact G3 | grow].
    + exact G3.
Qed.

(** The trace that steps (3) to (5) leave, by the branch taken. *)
Lemma align_shape env t n out :
  let s := t_session t in
  let c := t_cycle_start t in
  let ev := EvAlign c (tc_sample_start_of env s c) (soff_of env s c (t_speed t)) in
  let l := step_dbg (fun x => fst (fst x)) (align env t n out) in
  if needs_realign env (trace ev s) c (t_poff t)
  then grown restart_event
         (EvRealign c (tc_sample_start_of env s c) (soff_of env s c (t_speed t))
          :: EvReset :: ev :: dbg s) l
  else if soft_condition env (trace ev s)
       then l = EvSoft :: ev :: dbg s
       else l = ev :: dbg s.
Proof.
  intros s c ev l. subst l. unfold align. fold s. fold c. fold ev.
  destruct (needs_realign _ _ _ _).
  - apply (realign_shape env (trace ev s)).
  - destruct (soft_condition _ _); reflexivity.
Qed.

Lemma align_grown env t n out :
  grown align_event (dbg (t_session t))
    (step_dbg (fun x => fst (fst x)) (align env t n out)).
Proof.
  pose proof (align_shape env t n out) as H. cbn zeta in H.
  destruct (needs_realign _ _ _ _).
  - eapply grown_trans;
      [|eapply grown_weaken; [|exact H]; intros []; cbn; congruence].
    grow.
  - destruct (soft_condition _ _); rewrite H; grow.
Qed.

Lemma send_remaining_grown fuel : forall env s n out txf s' out' txf',
  send_remaining fuel env s n out txf = Some (s', out', txf') ->
  grown output_event (dbg s) (dbg s').
Proof.
  induction fuel as [|fuel IH]; intros env s n out txf s' out' txf' H;
    cbn [send_remaining] in H.
  - destruct (_ && _); [discriminate|]. inversion H; subst. apply grown_same.
  - destruct (_ && _).
    + apply IH in H. eapply grown_trans; [|exact H]. grow.
    + inversion H; subst. apply grown_same.
Qed.

Lemma step_back_dbg env s : dbg (step_back env s) = dbg s.
Proof. unfold step_back. repeat break_goal; reflexivity. Qed.

Lemma step_forward_dbg env s k : dbg (step_forward env s k) = dbg s.
Proof. unfold step_forward. repeat break_goal; reflexivity. Qed.

Lemma encode_next_grown env s :
  match encode_next env s with
  | inl (s', _) => dbg s' = dbg s
  | inr s' => grown output_event (dbg s) (dbg s')
  end.
Proof.
  unfold encode_next. destruct (restarting s); [reflexivity|].
  destruct (ltc_encoder_encode_byte _ _ _) as [err e].
  destruct err.
  - grow.
  - cbn. destruct (ltc_encoder_get_buffer e). reflexivity.
Qed.

Lemma encode_and_output_grown fuel : forall env s n out txf s' out',
  encode_and_output fuel env s n out txf = Some (s', out') ->
  grown output_event (dbg s) (dbg s').
Proof.
  induction fuel as [|fuel IH]; intros env s n out txf s' out' H;
    cbn [encode_and_output] in H; [discriminate|].
  destruct (send_remaining _ env s n out txf) as [[[s1 out1] txf1]|] eqn:Hs;
    [|discriminate].
  apply send_remaining_grown in Hs.
  destruct (n <=? txf1).
  - inversion H; subst. eapply grown_trans; [exact Hs | grow].
  - set (s2 := step_back env _) in H.
    assert (G2 : grown output_event (dbg s) (dbg s2)).
    { subst s2. rewrite step_back_dbg. exact Hs. }
    pose proof (encode_next_grown env s2) as Hn.
    destruct (encode_next env s2) as [[s3 k]|s3].
    + destruct (k <=? 0).
      * inversion H; subst. eapply grown_trans; [exact G2|].
        cbn. rewrite Hn. grow.
      * apply IH in H. rewrite step_forward_dbg, Hn in H.
        eauto using grown_trans.
    + inversion H; subst. eauto using grown_trans.
Qed.


(** ** The invariant of the byte buffer *)

Lemma byte_index_range (soff : Z) (fptcf : Q) :
  0 <= soff -> (inject_Z soff < fptcf)%Q ->
  0 <= floor (10 * inject_Z soff / fptcf) <= 9
  /\ 0 <= ceil (10 * inject_Z soff / fptcf) <= 10.
Proof.
  intros H0 Hlt.
  assert (Hs : (0 <= inject_Z soff)%Q).
  { change 0%Q with (inject_Z 0). now rewrite <- Zle_Qle. }
  assert (Hf : (0 < fptcf)%Q) by (eapply Qle_lt_trans; eassumption).
  set (x := (10 * inject_Z soff / fptcf)%Q).
  assert (Hx0 : (0 <= x)%Q).
  { apply Qle_shift_div_l; [assumption|]. rewrite Qmult_0_l.
    apply Qmult_le_0_compat; [discriminate | assumption]. }
  assert (Hx10 : (x < 10)%Q).
  { apply Qlt_shift_div_r; [assumption|].
    apply Qmult_lt_l; [reflexivity | assumption]. }
  unfold floor, ceil. repeat split.
  - change 0 with (Qfloor 0). now apply Qfloor_resp_le.
  - assert (H : (inject_Z (Qfloor x) < inject_Z 10)%Q).
    { eapply Qle_lt_trans; [apply Qfloor_le | exact Hx10]. }
    rewrite <- Zlt_Qlt in H. lia.
  - change 0 with (Qceiling 0). now apply Qceiling_resp_le.
  - change 10 with (Qceiling 10). apply Qceiling_resp_le.
    now apply Qlt_le_weak.
Qed.

Lemma buffer_inv_same s s' :
  ltc_buf_off s' = ltc_buf_off s -> ltc_buf_len s' = ltc_buf_len s ->
  ltc_enc_byte s' = ltc_enc_byte s -> buffer_inv s -> buffer_inv s'.
Proof. unfold buffer_inv. intros -> -> ->. auto. Qed.

Lemma reset_inv s : buffer_inv (ltc_tx_reset s).
Proof. unfold buffer_inv. cbn. lia. Qed.

Lemma check_fps_inv env s s' :
  buffer_inv s -> check_fps env s = Next s' -> buffer_inv s'.
Proof.
  unfold check_fps. intros Hi H.
  repeat break_in H; inversion H; subst; [apply reset_inv | assumption].
Qed.

Lemma direction_check_inv s v :
  buffer_inv s -> buffer_inv (direction_check s v).
Proof. unfold direction_check. intro. break_goal; [apply reset_inv | assumption]. Qed.

Lemma speed_change_check_inv env s v :
  buffer_inv s -> buffer_inv (fst (speed_change_check env s v)).
Proof. unfold speed_change_check. intro. break_goal; assumption. Qed.

Lemma not_rolling_check_inv env s st en v s' :
  buffer_inv s ->
  step_session fst (not_rolling_check env s st en v) = Some s' ->
  buffer_inv s'.
Proof.
  unfold not_rolling_check. intros Hi H.
  repeat break_in H; inversion H; subst; cbn [fst];
    first [apply reset_inv | assumption].
Qed.

Lemma started_rolling_check_inv s v :
  buffer_inv s -> buffer_inv (started_rolling_check s v).
Proof.
  unfold started_rolling_check. intro. break_goal; [apply reset_inv | assumption].
Qed.

Lemma resample_insert_len fuel : forall off avg rp incnt buf len buf' len',
  resample_insert fuel off avg rp incnt buf len = Some (buf', len') ->
  len <= len'.
Proof.
  induction fuel as [|fuel IH]; intros off avg rp incnt buf len buf' len' H;
    cbn [resample_insert] in H.
  - destruct (rp <? len - 1); [discriminate|]. inversion H; lia.
  - destruct (rp <? len - 1); [|inversion H; lia].
    repeat break_in H; apply IH in H; lia.
Qed.

Lemma resample_remove_len fuel : forall off avg rp rmcnt buf len buf' len',
  rp <= len ->
  resample_remove fuel off avg rp rmcnt buf len = Some (buf', len') ->
  rp <= len'.
Proof.
  induction fuel as [|fuel IH]; intros off avg rp rmcnt buf len buf' len' Hle H;
    cbn [resample_remove] in H.
  - destruct (rp <? len - 1); [discriminate|]. inversion H; lia.
  - destruct (rp <? len - 1) eqn:L; [|inversion H; lia].
    apply Z.ltb_lt in L.
    repeat break_in H; apply IH in H; lia.
Qed.

Lemma resample_inv env s v poff s' poff' :
  buffer_inv s -> resample env s v poff = Some (s', poff') -> buffer_inv s'.
Proof.
  unfold resample. intros Hi H.
  destruct (_ || _).
  { inversion H; subst. apply reset_inv. }
  destruct (_ && _).
  { destruct (resample_insert _ _ _ _ _ _ _) as [[b l]|] eqn:Hl; [|discriminate].
    apply resample_insert_len in Hl. inversion H; subst.
    unfold buffer_inv in *. cbn. lia. }
  destruct (_ && _); [|inversion H; subst; assumption].
  destruct (Qle_bool _ _).
  { inversion H; subst. unfold buffer_inv in *. cbn. lia. }
  destruct (resample_remove _ _ _ _ _ _ _) as [[b l]|] eqn:Hl; [|discriminate].
  apply resample_remove_len in Hl; [|apply Hi]. inversion H; subst.
  unfold buffer_inv in *. cbn. lia.
Qed.

Lemma speed_and_direction_inv env s st en n x s' :
  buffer_inv s ->
  speed_and_direction env s st en n = Some x ->
  step_session t_session x = Some s' -> buffer_inv s'.
Proof.
  unfold speed_and_direction, settle_speed. intros Hi H Hx.
  apply (direction_check_inv _ (rescale_speed env (raw_speed st en n))) in Hi.
  apply (speed_change_check_inv env _
           (rescale_speed env (raw_speed st en n))) in Hi.
  destruct (speed_change_check env _ _) as [s2 changed]. cbn [fst] in Hi.
  pose proof (not_rolling_check_inv env s2 st en
                (rescale_speed env (raw_speed st en n))) as Hnr.
  destruct (not_rolling_check env s2 st en _) as [s3|l|[s3 v]].
  - inversion H; subst. cbn in Hx. inversion Hx; subst. now apply Hnr.
  - inversion H; subst. discriminate.
  - specialize (Hnr s3 Hi eq_refl).
    destruct (Qltb 10 (fabs v)).
    + inversion H; subst. cbn in Hx. inversion Hx; subst. apply reset_inv.
    + apply (started_rolling_check_inv _ v) in Hnr.
      destruct (changed && Qneqb v 0).
      * destruct (resample env _ v _) as [[s5 p5]|] eqn:Hr; [|discriminate].
        apply resample_inv in Hr; [|assumption].
        inversion H; subst. cbn in Hx. inversion Hx; subst. exact Hr.
      * inversion H; subst. cbn in Hx. inversion Hx; subst. exact Hnr.
Qed.

Lemma byte_for_offset_inv env s soff :
  0 <= soff -> (inject_Z soff < samples_per_timecode_frame env)%Q ->
  ltc_buf_off s <= ltc_buf_len s ->
  buffer_inv (fst (byte_for_offset env s soff)).
Proof.
  intros H0 Hlt Hb.
  destruct (byte_index_range soff _ H0 Hlt) as [Hfl Hce].
  unfold byte_for_offset, buffer_inv.
  destruct (Qltb (ltc_speed s) 0); cbn.
  - auto.
  - destruct (ceil _ =? 10) eqn:L; cbn.
    + lia.
    + apply Z.eqb_neq in L. split; [assumption | lia].
Qed.

Lemma mark_restarting_inv s : buffer_inv s -> buffer_inv (mark_restarting s).
Proof. unfold mark_restarting. intro. break_goal; assumption. Qed.

(** After every hard resync, whatever the session was before. *)
Lemma realign_inv env s n c tc tcs soff out s' :
  step_session (fun x => fst (fst x)) (realign env s n c tc tcs soff out)
  = Some s' ->
  buffer_inv s'.
Proof.
  unfold realign. intro H.
  destruct (_ || _) eqn:G.
  - inversion H; subst. apply reset_inv.
  - apply orb_false_iff in G. destruct G as [G1 G2].
    apply Z.ltb_ge in G1. apply Qle_bool_gt in G2.
    set (s1 := trace _ (seed_encoder env s tc)) in *.
    pose proof (byte_for_offset_inv env s1 soff G1 G2) as Hb.
    destruct (byte_for_offset env s1 soff) as [s2 cyc_off]. cbn [fst] in Hb.
    specialize (Hb ltac:(cbn; lia)).
    assert (H3 : buffer_inv (mark_restarting
                               (trace (EvRestart soff (ltc_enc_byte s2) cyc_off) s2))).
    { apply mark_restarting_inv. exact Hb. }
    destruct (_ && _); inversion H; subst; cbn [fst]; exact H3.
Qed.

Lemma align_inv env t n out s' :
  buffer_inv (t_session t) ->
  step_session (fun x => fst (fst x)) (align env t n out) = Some s' ->
  buffer_inv s'.
Proof.
  unfold align. intros Hi H.
  destruct (needs_realign _ _ _ _).
  - now apply realign_inv in H.
  - destruct (soft_condition _ _); inversion H; subst; exact Hi.
Qed.


Lemma rem10_range (a : Z) : 0 <= a -> 0 <= Z.rem a 10 <= 9.
Proof.
  intro H. rewrite Z.rem_mod_nonneg by lia.
  pose proof (Z.mod_pos_bound a 10 ltac:(lia)). lia.
Qed.

(** What (6a) does to the session and to the write index. *)
Lemma send_remaining_spec fuel : forall env s n out txf s' out' txf',
  send_remaining fuel env s n out txf = Some (s', out', txf') ->
  ltc_buf_len s' = ltc_buf_len s
  /\ ltc_enc_byte s' = ltc_enc_byte s
  /\ ltc_buf_off s' - ltc_buf_off s = txf' - txf
  /\ txf <= txf'
  /\ (ltc_buf_off s <= ltc_buf_len s -> ltc_buf_off s' <= ltc_buf_len s')
  /\ (txf' < n -> ltc_buf_len s' <= ltc_buf_off s')
  /\ ltc_speed s' = ltc_speed s
  /\ ltc_enc_pos s' = ltc_enc_pos s
  /\ ltc_enc_cnt s' = ltc_enc_cnt s
  /\ restarting s' = restarting s
  /\ ltc_encoder s' = ltc_encoder s
  /\ ltc_enc_buf s' = ltc_enc_buf s
  /\ (txf <= n -> txf' <= n).
Proof.
  induction fuel as [|fuel IH]; intros env s n out txf s' out' txf' H;
    cbn [send_remaining] in H.
  - destruct (_ && _) eqn:C; [discriminate|]. inversion H; subst.
    apply andb_false_iff in C.
    repeat split; try reflexivity; lia.
  - destruct (_ && _) eqn:C.
    + apply andb_true_iff in C. destruct C as [C1 C2].
      apply Z.ltb_lt in C1. apply Z.ltb_lt in C2.
      apply IH in H. cbn in H.
      destruct H as (H1 & H2 & H3 & H4 & H5 & H6 & H7 & H8 & H9 & H10 & H11 & H12 & H13).
      repeat split; try assumption; try lia.
    + inversion H; subst. apply andb_false_iff in C.
      repeat split; try reflexivity; lia.
Qed.

Lemma send_remaining_total fuel : forall env s n out txf,
  n - txf <= Z.of_nat fuel ->
  exists r, send_remaining fuel env s n out txf = Some r.
Proof.
  induction fuel as [|fuel IH]; intros env s n out txf Hf;
    cbn [send_remaining].
  - destruct (_ && _) eqn:C; [|eauto].
    apply andb_true_iff in C. destruct C as [_ C]. apply Z.ltb_lt in C. lia.
  - destruct (_ && _) eqn:C; [|eauto].
    apply IH. lia.
Qed.

Lemma step_back_inv env s :
  buffer_inv s -> buffer_inv (step_back env s).
Proof.
  unfold step_back, buffer_inv. intros [Hb Hy].
  pose proof (rem10_range (ltc_enc_byte s + 9) ltac:(lia)).
  repeat break_goal; cbn; auto.
Qed.

Lemma step_back_buf env s :
  ltc_buf_off (step_back env s) = ltc_buf_off s
  /\ ltc_buf_len (step_back env s) = ltc_buf_len s.
Proof. unfold step_back. repeat break_goal; split; reflexivity. Qed.

Lemma encode_next_inv env s :
  buffer_inv s ->
  match encode_next env s with
  | inl (s', _) =>
      ltc_buf_off s' = ltc_buf_off s /\ ltc_buf_len s' = ltc_buf_len s
      /\ ltc_enc_byte s' = ltc_enc_byte s
  | inr s' => buffer_inv s'
  end.
Proof.
  intro Hi. unfold encode_next. destruct (restarting s); [now cbn|].
  destruct (ltc_encoder_encode_byte _ _ _) as [err e].
  destruct err.
  - apply reset_inv.
  - cbn. destruct (ltc_encoder_get_buffer e). now cbn.
Qed.

Lemma step_forward_inv env s k :
  0 < k -> ltc_buf_off s = 0 -> ltc_buf_len s = 0 ->
  0 <= ltc_enc_byte s <= 9 ->
  buffer_inv (step_forward env s k).
Proof.
  intros Hk Ho Hl Hy. unfold step_forward, buffer_inv.
  pose proof (rem10_range (ltc_enc_byte s + 1) ltac:(lia)).
  repeat break_goal; cbn; rewrite ?Ho, ?Hl; split; lia.
Qed.

Lemma encode_and_output_inv fuel : forall env s n out txf s' out',
  buffer_inv s ->
  encode_and_output fuel env s n out txf = Some (s', out') ->
  buffer_inv s'.
Proof.
  induction fuel as [|fuel IH]; intros env s n out txf s' out' Hi H;
    cbn [encode_and_output] in H; [discriminate|].
  destruct (send_remaining _ env s n out txf) as [[[s1 out1] txf1]|] eqn:Hs;
    [|discriminate].
  apply send_remaining_spec in Hs.
  destruct Hs as (H1 & H2 & _ & _ & H5 & _).
  assert (Hi1 : buffer_inv s1).
  { destruct Hi as [Ha Hb]. split; [auto | now rewrite H2]. }
  destruct (n <=? txf1).
  - inversion H; subst. exact Hi1.
  - set (s2 := step_back env _) in H.
    assert (Hi2 : buffer_inv s2).
    { subst s2. apply step_back_inv. destruct Hi1 as [_ Hb].
      split; cbn; [lia | exact Hb]. }
    assert (Hz : ltc_buf_off s2 = 0 /\ ltc_buf_len s2 = 0).
    { subst s2. destruct (step_back_buf env
        (set_buf_off 0 (set_buf_len 0 s1))) as [-> ->]. now cbn. }
    pose proof (encode_next_inv env s2 Hi2) as Hn.
    destruct (encode_next env s2) as [[s3 k]|s3].
    + destruct (k <=? 0) eqn:Hk.
      * inversion H; subst. apply reset_inv.
      * apply Z.leb_gt in Hk. apply IH in H; [assumption|].
        destruct Hn as (Ho & Hl & Hy). destruct Hz as [Hz1 Hz2].
        apply step_forward_inv; try lia. rewrite Hy. apply Hi2.
    + inversion H; subst. exact Hn.
Qed.

Lemma cycle_inv env s st en n r s' :
  buffer_inv s ->
  send_ltc_for_cycle env (Some s) st en n = Some r ->
  r_session r = Some s' -> buffer_inv s'.
Proof.
  unfold send_ltc_for_cycle, leave, gone. intros Hi H Hr.
  assert (Hset : forall s0, buffer_inv s0 -> buffer_inv (set_dbg [] s0))
    by (intros s0 H0; exact H0).
  destruct (negb (ltc_output_port env)).
  { inversion H; subst. cbn in Hr. inversion Hr; subst. exact Hi. }
  destruct (generation_off env).
  { inversion H; subst. cbn in Hr. inversion Hr; subst. auto. }
  destruct (check_fps env s) as [s1|l|s1] eqn:H1.
  { now apply check_fps_never_leaves in H1. }
  { inversion H; subst. discriminate. }
  apply check_fps_inv in H1; [|assumption].
  destruct (Qltb 30 _).
  { inversion H; subst. cbn in Hr. inversion Hr; subst. auto. }
  destruct (speed_and_direction env s1 st en n) as [x|] eqn:H2; [|discriminate].
  pose proof (speed_and_direction_inv env s1 st en n x) as I2.
  destruct x as [s2|l|t].
  { inversion H; subst. cbn in Hr. inversion Hr; subst.
    apply Hset. now apply I2. }
  { inversion H; subst. discriminate. }
  specialize (I2 (t_session t) H1 H2 eq_refl).
  pose proof (align_inv env t n (silence n)) as I3.
  destruct (align env t n (silence n)) as [s3|l|[[s3 out3] txf3]].
  { inversion H; subst. cbn in Hr. inversion Hr; subst.
    apply Hset. now apply I3. }
  { inversion H; subst. discriminate. }
  specialize (I3 s3 I2 eq_refl).
  destruct (encode_and_output _ env s3 n out3 txf3) as [[s4 out4]|] eqn:H4;
    [|discriminate].
  apply encode_and_output_inv in H4; [|assumption].
  inversion H; subst. cbn in Hr. inversion Hr; subst. auto.
Qed.


(** ** Every loop ends: the fuel given to it is never used up *)

Lemma encode_next_buf env s s' k :
  encode_next env s = inl (s', k) ->
  ltc_buf_off s' = ltc_buf_off s /\ ltc_buf_len s' = ltc_buf_len s.
Proof.
  unfold encode_next. destruct (restarting s).
  - intro H. inversion H; subst. now cbn.
  - destruct (ltc_encoder_encode_byte _ _ _) as [err e].
    destruct err; [discriminate|].
    cbn. destruct (ltc_encoder_get_buffer e). intro H. inversion H; subst.
    now cbn.
Qed.

Lemma step_forward_buf env s k :
  ltc_buf_off (step_forward env s k) = ltc_buf_off s
  /\ ltc_buf_len (step_forward env s k) = ltc_buf_len s + k.
Proof. unfold step_forward. repeat break_goal; split; reflexivity. Qed.

Lemma encode_and_output_total fuel : forall env s n out txf,
  (1 <= fuel)%nat ->
  n - txf + (if ltc_buf_off s <? ltc_buf_len s then 0 else 1)
  <= Z.of_nat fuel ->
  exists r, encode_and_output fuel env s n out txf = Some r.
Proof.
  induction fuel as [|fuel IH]; intros env s n out txf H1 Hm; [lia|].
  cbn [encode_and_output].
  destruct (send_remaining_total (Z.to_nat (n - txf)) env s n out txf
              ltac:(lia)) as [[[s1 out1] txf1] Hs].
  rewrite Hs. apply send_remaining_spec in Hs.
  destruct Hs as (Hl & _ & Ho & Ht & _ & Hx & _).
  destruct (n <=? txf1) eqn:L; [eauto|]. apply Z.leb_gt in L.
  specialize (Hx L).
  set (s2 := step_back env _).
  assert (Hz : ltc_buf_off s2 = 0 /\ ltc_buf_len s2 = 0).
  { subst s2. destruct (step_back_buf env
      (set_buf_off 0 (set_buf_len 0 s1))) as [-> ->]. now cbn. }
  destruct (encode_next env s2) as [[s3 k]|s3] eqn:Hn; [|eauto].
  apply encode_next_buf in Hn.
  destruct (k <=? 0) eqn:Hk; [eauto|]. apply Z.leb_gt in Hk.
  destruct (step_forward_buf env s3 k) as [Fo Fl].
  assert (Hnext : n - txf1 <= Z.of_nat fuel).
  { destruct (ltc_buf_off s <? ltc_buf_len s) eqn:B.
    - apply Z.ltb_lt in B. lia.
    - lia. }
  apply IH; [lia|].
  rewrite Fo, Fl. destruct Hn as [-> ->]. destruct Hz as [-> ->].
  destruct (0 <? 0 + k) eqn:B; [lia|]. apply Z.ltb_ge in B. lia.
Qed.

Lemma resample_remove_total fuel : forall off avg rp rmcnt buf len,
  len - 1 - rp <= Z.of_nat fuel ->
  exists r, resample_remove fuel off avg rp rmcnt buf len = Some r.
Proof.
  induction fuel as [|fuel IH]; intros off avg rp rmcnt buf len Hm;
    cbn [resample_remove].
  - destruct (rp <? len - 1) eqn:L; [|eauto]. apply Z.ltb_lt in L. lia.
  - destruct (rp <? len - 1) eqn:L; [|eauto]. apply Z.ltb_lt in L.
    repeat break_goal; apply IH; lia.
Qed.

Lemma resample_insert_total (off len0 nins : Z) (avg newlen : Q) :
  (0 < avg)%Q ->
  (inject_Z nins * avg == newlen)%Q ->
  (inject_Z (len0 - off + nins - 1) < newlen)%Q ->
  forall fuel rp incnt buf len,
    len = len0 + incnt -> 0 <= incnt <= nins -> off <= rp ->
    len0 - off + nins <= rp - off + Z.of_nat fuel ->
    exists r, resample_insert fuel off avg rp incnt buf len = Some r.
Proof.
  intros Havg Hnew Hbound.
  induction fuel as [|fuel IH]; intros rp incnt buf len Hlen Hin Hrp Hm;
    cbn [resample_insert].
  - destruct (rp <? len - 1) eqn:L; [|eauto]. apply Z.ltb_lt in L. lia.
  - destruct (rp <? len - 1) eqn:L; [|eauto]. apply Z.ltb_lt in L.
    destruct (Qltb (inject_Z (rp - off)) (inject_Z incnt * avg)) eqn:C1.
    { apply IH; lia. }
    destruct (_ && _).
    { apply IH; lia. }
    apply Qltb_ge in C1.
    assert (Hlt : (inject_Z incnt * avg < inject_Z nins * avg)%Q).
    { rewrite Hnew. eapply Qle_lt_trans; [exact C1|].
      eapply Qle_lt_trans; [|exact Hbound].
      rewrite <- Zle_Qle. lia. }
    apply Qmult_lt_r in Hlt; [|assumption].
    rewrite <- Zlt_Qlt in Hlt.
    apply IH; lia.
Qed.

Lemma resample_total env s v poff :
  exists r, resample env s v poff = Some r.
Proof.
  unfold resample.
  set (old := ltc_buf_len s - ltc_buf_off s).
  set (newlen := (inject_Z old * fabs (ltc_speed s / v))%Q).
  destruct (_ || _); [eauto|].
  destruct (_ && _) eqn:C.
  - apply andb_true_iff in C. destruct C as [_ C]. apply Qltb_lt in C.
    set (nins := ceil (newlen - inject_Z old)).
    assert (Hex : exists r,
      resample_insert (Z.to_nat (old + nins)) (ltc_buf_off s)
        (newlen / inject_Z nins) (ltc_buf_off s) 0 (ltc_enc_buf s)
        (ltc_buf_len s) = Some r).
    { destruct (ltc_buf_off s <? ltc_buf_len s - 1) eqn:L.
      - apply Z.ltb_lt in L.
        assert (Hold : (0 < inject_Z old)%Q).
        { change 0%Q with (inject_Z 0). rewrite <- Zlt_Qlt. subst old. lia. }
        assert (Hup : (newlen - inject_Z old <= inject_Z nins)%Q)
          by apply Qle_ceiling.
        assert (Hlo : (inject_Z (nins - 1) < newlen - inject_Z old)%Q)
          by apply Qceiling_lt.
        assert (Hpos : (0 < inject_Z nins)%Q) by lra.
        assert (Hnz : ~ (inject_Z nins == 0)%Q) by lra.
        apply (resample_insert_total (ltc_buf_off s) (ltc_buf_len s) nins
                 (newlen / inject_Z nins) newlen).
        + apply Qlt_shift_div_l; [assumption|]. lra.
        + now apply Qmult_div_r.
        + fold old.
          replace (old + nins - 1) with (old + (nins - 1)) by lia.
          rewrite inject_Z_plus. lra.
        + lia.
        + change 0%Q with (inject_Z 0) in Hpos. rewrite <- Zlt_Qlt in Hpos. lia.
        + lia.
        + fold old.
          change 0%Q with (inject_Z 0) in Hpos. rewrite <- Zlt_Qlt in Hpos. lia.
      - destruct (Z.to_nat (old + nins)); cbn [resample_insert]; rewrite L; eauto. }
    destruct Hex as [[b l] ->]. eauto.
  - match goal with
    | |- exists r, (if ?c then _ else _) = _ => destruct c; [|eauto]
    end.
    match goal with
    | |- exists r, (if ?c then _ else _) = _ => destruct c; [eauto|]
    end.
    match goal with
    | |- context [resample_remove ?f ?o ?a ?r ?c ?b ?l] =>
        destruct (resample_remove_total f o a r c b l ltac:(subst old; lia))
          as [[b' l'] ->]
    end.
    eauto.
Qed.

Lemma speed_and_direction_total env s st en n :
  exists x, speed_and_direction env s st en n = Some x.
Proof.
  unfold speed_and_direction, settle_speed.
  destruct (speed_change_check env _ _) as [s2 changed].
  destruct (not_rolling_check env s2 st en _) as [s3|l|[s3 v]]; eauto.
  destruct (Qltb 10 (fabs v)); eauto.
  destruct (changed && Qneqb v 0); eauto.
  destruct (resample_total env (started_rolling_check s3 v) v
              (inject_Z (ltc_buf_len (started_rolling_check s3 v)
                         - ltc_buf_off (started_rolling_check s3 v))
               * ltc_speed (started_rolling_check s3 v))%Q)
    as [[s5 p5] ->].
  eauto.
Qed.

(** The cycle always returns. *)
Lemma cycle_total env (ss : option (Session E)) st en n :
  exists r, send_ltc_for_cycle env ss st en n = Some r.
Proof.
  unfold send_ltc_for_cycle.
  destruct (negb (ltc_output_port env)); [eauto|].
  destruct ss as [s|]; [|eauto].
  destruct (generation_off env); [eauto|].
  destruct (check_fps env s) as [s1|l|s1]; eauto.
  destruct (Qltb 30 _); [eauto|].
  destruct (speed_and_direction_total env s1 st en n) as [x ->].
  destruct x as [s2|l|t]; eauto.
  destruct (align env t n (silence n)) as [s3|l|[[s3 out3] txf3]]; eauto.
  destruct (encode_and_output_total (S (Z.to_nat (n - txf3))) env s3 n out3
              txf3 ltac:(lia)) as [[s4 out4] ->].
  - destruct (ltc_buf_off s3 <? ltc_buf_len s3); lia.
  - eauto.
Qed.

Lemma run_total (cs : list Cycle) : forall ss : option (Session E),
  exists r, run ss cs = Some r.
Proof.
  induction cs as [|c cs IH]; intro ss; cbn [run]; [eauto|].
  destruct (cycle_total (c_env c) ss (c_start c) (c_end c) (c_n c)) as [r ->].
  destruct (IH (r_session r)) as [[rs ss'] ->]. eauto.
Qed.


(** ** The ways through a cycle *)

Lemma speed_and_direction_not_dead env s st en n l :
  speed_and_direction env s st en n <> Some (Dead l).
Proof.
  unfold speed_and_direction, settle_speed, not_rolling_check.
  repeat break_goal; discriminate.
Qed.

Lemma align_not_dead env t n out l : align env t n out <> Dead l.
Proof.
  unfold align, realign. repeat break_goal; discriminate.
Qed.

Lemma cycle_anatomy env s st en n r :
  ltc_output_port env = true ->
  send_ltc_for_cycle env (Some s) st en n = Some r ->
  cycle_path env s st en n r.
Proof.
  unfold send_ltc_for_cycle. intros Hp H. rewrite Hp in H. cbn [negb] in H.
  destruct (generation_off env) eqn:G.
  { inversion H; subst. now constructor. }
  destruct (check_fps env s) as [s1|l|s1] eqn:H1.
  { now apply check_fps_never_leaves in H1. }
  { inversion H; subst. now apply path_dead. }
  destruct (Qltb 30 _) eqn:F.
  { inversion H; subst. now apply (path_fps _ _ _ _ _ s1). }
  destruct (speed_and_direction env s1 st en n) as [x|] eqn:H2; [|discriminate].
  destruct x as [s2|l|t].
  { inversion H; subst. now apply (path_skip _ _ _ _ _ s1 s2). }
  { now apply speed_and_direction_not_dead in H2. }
  destruct (align env t n (silence n)) as [s3|l|[[s3 out3] txf3]] eqn:H3.
  { inversion H; subst. now apply (path_defer _ _ _ _ _ s1 t s3). }
  { now apply align_not_dead in H3. }
  destruct (encode_and_output _ env s3 n out3 txf3) as [[s4 out4]|] eqn:H4;
    [|discriminate].
  inversion H; subst.
  now apply (path_render _ _ _ _ _ s1 t s3 out3 txf3 s4 out4).
Qed.


(** ** What step (2) hands on *)

Lemma tracker_frame_refl s : tracker_frame s s.
Proof. repeat split. Qed.

Lemma tracker_frame_trans s1 s2 s3 :
  tracker_frame s1 s2 -> tracker_frame s2 s3 -> tracker_frame s1 s3.
Proof.
  unfold tracker_frame, same_setup.
  intros ((A1 & A2 & A3 & A4) & A5 & A6 & A7) ((B1 & B2 & B3 & B4) & B5 & B6 & B7).
  repeat split; congruence.
Qed.

Lemma kept_or_reset_refl s : kept_or_reset s s.
Proof. left. repeat split. Qed.

Lemma kept_or_reset_trans s1 s2 s3 :
  kept_or_reset s1 s2 -> kept_or_reset s2 s3 -> kept_or_reset s1 s3.
Proof.
  unfold kept_or_reset.
  intros [(A1 & A2 & A3 & A4 & A5)|A] [(B1 & B2 & B3 & B4 & B5)|B].
  - left. repeat split; congruence.
  - now right.
  - right. destruct A as (A1 & A2 & A3 & A4 & A5).
    repeat split; congruence.
  - now right.
Qed.

Lemma reset_frame s : tracker_frame s (ltc_tx_reset s).
Proof. repeat split. Qed.

Lemma reset_kept s e : kept_or_reset s (ltc_tx_reset (trace e s)).
Proof. right. repeat split. Qed.

Lemma direction_check_frame s v :
  tracker_frame s (direction_check s v) /\ kept_or_reset s (direction_check s v).
Proof.
  unfold direction_check. break_goal.
  - split; [repeat split | apply reset_kept].
  - split; [apply tracker_frame_refl | apply kept_or_reset_refl].
Qed.

Lemma speed_change_check_frame env s v :
  tracker_frame s (fst (speed_change_check env s v))
  /\ ltc_buf_len (fst (speed_change_check env s v)) = ltc_buf_len s
  /\ ltc_buf_off (fst (speed_change_check env s v)) = ltc_buf_off s
  /\ ltc_enc_pos (fst (speed_change_check env s v)) = ltc_enc_pos s
  /\ ltc_enc_cnt (fst (speed_change_check env s v)) = ltc_enc_cnt s
  /\ ltc_enc_byte (fst (speed_change_check env s v)) = ltc_enc_byte s
  /\ snd (speed_change_check env s v) = Qneqb (ltc_speed s) v.
Proof.
  unfold speed_change_check. break_goal; repeat split.
Qed.

Lemma started_rolling_check_frame s v :
  tracker_frame s (started_rolling_check s v)
  /\ kept_or_reset s (started_rolling_check s v).
Proof.
  unfold started_rolling_check. break_goal.
  - split; [repeat split | apply reset_kept].
  - split; [apply tracker_frame_refl | apply kept_or_reset_refl].
Qed.

Lemma resample_frame env s v poff s' poff' :
  resample env s v poff = Some (s', poff') ->
  tracker_frame s s'
  /\ ((ltc_enc_pos s' = ltc_enc_pos s /\ ltc_enc_cnt s' = ltc_enc_cnt s
       /\ dbg s' = dbg s /\ poff' = poff /\ ltc_enc_byte s' = ltc_enc_byte s)
      \/ (ltc_enc_pos s' = -9999 /\ poff' = 0%Q /\ ltc_buf_len s' = 0
          /\ ltc_buf_off s' = 0 /\ ltc_enc_cnt s' = 0%Q /\ ltc_enc_byte s' = 0)).
Proof.
  unfold resample. intro H.
  repeat break_in H; inversion H; subst;
    (split; [repeat split|]);
    first [left; repeat split; reflexivity | right; repeat split; reflexivity].
Qed.


Lemma not_rolling_check_next env s st en v s' v' :
  not_rolling_check env s st en v = Next (s', v') ->
  v' = (if (en =? st) || Qltb (fabs v) (1 # 10) then 0%Q else v)
  /\ tracker_frame s s' /\ kept_or_reset s s'
  /\ ((en =? st) || Qltb (fabs v) (1 # 10) = true ->
      ltc_send_continuously env = true).
Proof.
  unfold not_rolling_check. intro H.
  destruct (_ || _).
  - destruct (ltc_send_continuously env); cbn [negb] in H; [|discriminate].
    break_in H; inversion H; subst.
    + repeat split. right. repeat split.
    + repeat split. left. repeat split.
  - inversion H; subst.
    repeat split; [left; repeat split | discriminate].
Qed.

Lemma speed_and_direction_next env s st en n t :
  speed_and_direction env s st en n = Some (Next t) ->
  t_cycle_start t = cycle_start env s st (raw_speed st en n)
  /\ t_speed t = effective_speed env st en n
  /\ ltc_speed (t_session t) = t_speed t
  /\ ltc_prev_cycle (t_session t) = st
  /\ same_setup s (t_session t)
  /\ restarting (t_session t) = restarting s
  /\ Qltb 10 (fabs (t_speed t)) = false
  /\ ((t_poff t == 0)%Q
      \/ t_poff t = (inject_Z (ltc_buf_len s - ltc_buf_off s) * ltc_speed s)%Q)
  /\ (ltc_enc_pos (t_session t) = ltc_enc_pos s
      \/ ltc_enc_pos (t_session t) = -9999)
  /\ ((en =? st) || Qltb (fabs (rescale_speed env (raw_speed st en n))) (1 # 10)
      = true -> ltc_send_continuously env = true).
Proof.
  unfold speed_and_direction, settle_speed. intro H.
  set (v := rescale_speed env (raw_speed st en n)) in *.
  destruct (direction_check_frame s v) as [F1 K1].
  set (s1 := direction_check s v) in *.
  destruct (speed_change_check_frame env s1 v)
    as (F2 & L2 & O2 & P2 & C2 & B2 & _).
  destruct (speed_change_check env s1 v) as [s2 changed].
  cbn [fst snd] in *.
  assert (K2 : kept_or_reset s s2).
  { eapply kept_or_reset_trans; [exact K1|]. left. repeat split; assumption. }
  destruct (not_rolling_check env s2 st en v) as [s3|l|[s3 v']] eqn:Hnr;
    try discriminate.
  apply not_rolling_check_next in Hnr. destruct Hnr as (Hv & F3 & K3 & Hc).
  destruct (Qltb 10 (fabs v')) eqn:Hb; [discriminate|].
  destruct (started_rolling_check_frame s3 v') as [F4 K4].
  set (s4 := started_rolling_check s3 v') in *.
  assert (F : tracker_frame s s4) by eauto using tracker_frame_trans.
  assert (K : kept_or_reset s s4) by eauto using kept_or_reset_trans.
  assert (Hpoff : ((inject_Z (ltc_buf_len s4 - ltc_buf_off s4) * ltc_speed s4 == 0)%Q
                   \/ (inject_Z (ltc_buf_len s4 - ltc_buf_off s4) * ltc_speed s4
                       = inject_Z (ltc_buf_len s - ltc_buf_off s) * ltc_speed s)%Q)).
  { destruct F as (_ & Fs & _). rewrite Fs.
    destruct K as [(Kl & Ko & _)|(Kl & Ko & _)]; rewrite Kl, Ko.
    - now right.
    - left. cbn. apply Qmult_0_l. }
  assert (Hpos : ltc_enc_pos s4 = ltc_enc_pos s \/ ltc_enc_pos s4 = -9999).
  { destruct K as [(_ & _ & Kp & _)|(_ & _ & Kp & _)]; auto. }
  destruct F as ((S1 & S2 & S3 & S4) & Fs & Fp & Fr).
  destruct (changed && Qneqb v' 0).
  - destruct (resample env s4 v' _) as [[s5 p5]|] eqn:Hr; [|discriminate].
    apply resample_frame in Hr.
    destruct Hr as (((R1 & R2 & R3 & R4) & Rs & Rp & Rr) & Rk).
    assert (Ht : t = mkTracked
                       (trace (EvSpeed v') (set_speed v' (set_prev_cycle st s5)))
                       (cycle_start env s st (raw_speed st en n)) v' p5)
      by (inversion H; reflexivity).
    clear H. subst t. cbn.
    split; [reflexivity|].
    split; [unfold effective_speed; fold v; exact Hv|].
    split; [reflexivity|]. split; [reflexivity|].
    split; [unfold same_setup; cbn; repeat split; congruence|].
    split; [congruence|]. split; [exact Hb|].
    split; [|split; [|exact Hc]].
    + destruct Rk as [(_ & _ & _ & -> & _)|(_ & -> & _)];
        [exact Hpoff | left; reflexivity].
    + destruct Rk as [(-> & _)|(-> & _)]; auto.
  - assert (Ht : t = mkTracked
                       (trace (EvSpeed v') (set_speed v' (set_prev_cycle st s4)))
                       (cycle_start env s st (raw_speed st en n)) v'
                       (inject_Z (ltc_buf_len s4 - ltc_buf_off s4)
                        * ltc_speed s4)%Q)
      by (inversion H; reflexivity).
    clear H. subst t. cbn.
    split; [reflexivity|].
    split; [unfold effective_speed; fold v; exact Hv|].
    split; [reflexivity|]. split; [reflexivity|].
    split; [unfold same_setup; cbn; repeat split; congruence|].
    split; [congruence|]. split; [exact Hb|].
    split; [exact Hpoff|]. split; [exact Hpos | exact Hc].
Qed.

Lemma check_fps_setup env s s' :
  check_fps env s = Next s' ->
  ltc_out_latency_max s' = ltc_out_latency_max s
  /\ ltc_enc_tcformat s' = timecode_format env
  /\ ltc_speed s' = ltc_speed s
  /\ restarting s' = restarting s.
Proof.
  unfold check_fps. intro H.
  destruct (TimecodeFormat_eqb _ _) eqn:Q; cbn [negb] in H.
  - inversion H; subst. repeat split.
    destruct (timecode_format env), (ltc_enc_tcformat s'); try discriminate;
      reflexivity.
  - break_in H; inversion H; subst. repeat split.
Qed.


(** ** Events of a whole cycle *)

Lemma In_leave_trace s out e :
  In e (r_trace (leave s out)) <-> In e (dbg s).
Proof. unfold leave. cbn. symmetry. apply in_rev. Qed.

Lemma grown_from_nil_In P l e :
  grown P [] l -> In e l -> P e = true.
Proof.
  intros G Hin. destruct (grown_In _ _ _ _ G Hin) as [H|[]]. exact H.
Qed.

(** An [EvAlign], [EvRealign] or [EvSoft] in the trace of a cycle comes
    from step (3)-(5) of that cycle: the cycle reached it. *)
Lemma cycle_reaches_align env s st en n r e :
  dbg s = [] ->
  ltc_output_port env = true ->
  send_ltc_for_cycle env (Some s) st en n = Some r ->
  In e (r_trace r) ->
  tracker_event e = false -> output_event e = false ->
  is_EvError e = false -> e <> EvCleanup ->
  exists s1 t,
    generation_off env = false
    /\ check_fps env s = Next s1
    /\ Qltb 30 (timecode_to_frames_per_second (timecode_format env)) = false
    /\ speed_and_direction env s1 st en n = Some (Next t)
    /\ In e (step_dbg (fun x => fst (fst x)) (align env t n (silence n)))
    /\ ~ In e (dbg (t_session t)).
Proof.
  intros Hd Hp H Hin Ht Ho He Hc.
  apply cycle_anatomy in H; [|assumption].
  destruct H as [G|l G H1|s1 G H1 F|s1 s2 G H1 F H2|s1 t s3 G H1 F H2 H3
                |s1 t s3 out3 txf3 s4 out4 G H1 F H2 H3 H4].
  - apply In_leave_trace in Hin. rewrite Hd in Hin. destruct Hin.
  - exfalso. unfold gone in Hin. cbn in Hin. apply in_rev in Hin.
    pose proof (check_fps_grown env s) as Gr. rewrite H1, Hd in Gr.
    cbn [step_dbg] in Gr. apply (grown_from_nil_In _ _ e) in Gr; [|assumption].
    cbv beta in Gr. rewrite Ht, He in Gr.
    destruct e; try discriminate. now apply Hc.
  - exfalso. apply In_leave_trace in Hin.
    apply check_fps_next in H1. rewrite Hd in H1.
    apply (grown_from_nil_In _ _ e) in H1; [congruence | assumption].
  - exfalso. apply In_leave_trace in Hin.
    apply check_fps_next in H1. rewrite Hd in H1.
    apply speed_and_direction_grown in H2. cbn [step_dbg] in H2.
    pose proof (grown_trans _ _ _ _ H1 H2) as Gr.
    apply (grown_from_nil_In _ _ e) in Gr; [congruence | assumption].
  - apply In_leave_trace in Hin.
    exists s1, t. repeat split; try assumption.
    + rewrite H3. exact Hin.
    + intro Hin'.
      apply check_fps_next in H1. rewrite Hd in H1.
      apply speed_and_direction_grown in H2. cbn [step_dbg] in H2.
      pose proof (grown_trans _ _ _ _ H1 H2) as Gr.
      apply (grown_from_nil_In _ _ e) in Gr; [congruence | assumption].
  - apply In_leave_trace in Hin.
    exists s1, t. repeat split; try assumption.
    + rewrite H3. cbn [step_dbg fst].
      apply encode_and_output_grown in H4.
      destruct (grown_In _ _ _ _ H4 Hin) as [Hbad|Hok]; [congruence | exact Hok].
    + intro Hin'.
      apply check_fps_next in H1. rewrite Hd in H1.
      apply speed_and_direction_grown in H2. cbn [step_dbg] in H2.
      pose proof (grown_trans _ _ _ _ H1 H2) as Gr.
      apply (grown_from_nil_In _ _ e) in Gr; [congruence | assumption].
Qed.

(** The [EvAlign] of a cycle carries what step (3) computed. *)
Lemma align_event_data env t n out c tcs soff :
  In (EvAlign c tcs soff)
     (step_dbg (fun x => fst (fst x)) (align env t n out)) ->
  ~ In (EvAlign c tcs soff) (dbg (t_session t)) ->
  c = t_cycle_start t
  /\ tcs = tc_sample_start_of env (t_session t) c
  /\ soff = soff_of env (t_session t) c (t_speed t).
Proof.
  intros Hin Hnot.
  pose proof (align_shape env t n out) as H. cbn zeta in H.
  destruct (needs_realign _ _ _ _).
  - destruct (grown_In _ _ _ _ H Hin) as [Hbad|Hin']; [discriminate|].
    destruct Hin' as [Hbad|[Hbad|[Heq|Hin']]]; try discriminate.
    + inversion Heq; subst. repeat split.
    + contradiction.
  - destruct (soft_condition _ _); rewrite H in Hin.
    + destruct Hin as [Hbad|[Heq|Hin']]; try discriminate.
      * inversion Heq; subst. repeat split.
      * contradiction.
    + destruct Hin as [Heq|Hin'].
      * inversion Heq; subst. repeat split.
      * contradiction.
Qed.

(** C3: for every block, the aligned start position is the block start
    shifted by [+latency.max] when the new speed is positive, by
    [-latency.max] when it is negative, and not shifted when it is 0; when
    the speed is not 0 the TV-standard frame-alignment offset is subtracted;
    the result is clamped to be at least 0.  The position that a cycle
    reports at step (3) is this one. *)
Theorem C3_aligned_start env s (st en n : Z) :
  let v := raw_speed st en n in
  let lat := ltc_out_latency_max s in
  let a := ltc_frame_alignment env (samples_per_timecode_frame env)
             (TV_STANDARD (timecode_format env)) in
  let c := cycle_start env s st v in
  ((0 < v)%Q -> c = Z.max 0 (st + lat - a))
  /\ ((v < 0)%Q -> c = Z.max 0 (st - lat - a))
  /\ ((v == 0)%Q -> c = Z.max 0 st)
  /\ 0 <= c
  /\ (forall r c' tcs soff,
        dbg s = [] -> ltc_output_port env = true ->
        send_ltc_for_cycle env (Some s) st en n = Some r ->
        In (EvAlign c' tcs soff) (r_trace r) -> c' = c).
Proof.
  intros v lat a c.
  destruct (cycle_start_cases env s st v) as (H1 & H2 & H3 & H4).
  repeat split; try assumption.
  intros r c' tcs soff Hd Hp H Hin.
  destruct (cycle_reaches_align env s st en n r _ Hd Hp H Hin)
    as (s1 & t & _ & Hf & _ & H2' & Hin' & Hnot);
    try reflexivity; try discriminate.
  apply align_event_data in Hin'; [|assumption].
  destruct Hin' as (-> & _).
  apply speed_and_direction_next in H2'. destruct H2' as (-> & _).
  apply check_fps_setup in Hf. destruct Hf as (Hl & _).
  now apply cycle_start_latency.
Qed.

(** C8: the read offset of the byte buffer never exceeds its length and the
    byte index stays in 0..9: after [ltc_tx_reset], after every hard resync
    (whatever the session was before), and after every cycle that starts
    from a session in which it holds; the cycle always returns. *)
Theorem C8_buffer_invariant env s :
  buffer_inv (ltc_tx_reset s)
  /\ (forall n c tc tcs soff out s',
        step_session (fun x => fst (fst x))
          (realign env s n c tc tcs soff out) = Some s' ->
        buffer_inv s')
  /\ (forall st en n,
        buffer_inv s ->
        exists r, send_ltc_for_cycle env (Some s) st en n = Some r
                  /\ forall s', r_session r = Some s' -> buffer_inv s').
Proof.
  split; [apply reset_inv|]. split.
  - intros n c tc tcs soff out s'. apply realign_inv.
  - intros st en n Hi.
    destruct (cycle_total env (Some s) st en n) as [r Hr].
    exists r. split; [exact Hr|].
    intros s' Hs. exact (cycle_inv env s st en n r s' Hi Hr Hs).
Qed.


(** ** The port buffer *)

Lemma store_nat_length out : forall i v, length (store_nat out i v) = length out.
Proof.
  induction out as [|h t IH]; intros [|i] v; cbn; try reflexivity.
  now rewrite IH.
Qed.

Lemma store_nat_same out : forall i v,
  (i < length out)%nat -> nth i (store_nat out i v) 0%Q = v.
Proof.
  induction out as [|h t IH]; intros [|i] v H; cbn in *; try lia; try reflexivity.
  apply IH. lia.
Qed.

Lemma store_nat_other out : forall i j v,
  i <> j -> nth j (store_nat out i v) 0%Q = nth j out 0%Q.
Proof.
  induction out as [|h t IH]; intros [|i] [|j] v H; cbn; try reflexivity;
    try congruence.
  apply IH. congruence.
Qed.

Lemma store_length out i v : length (store out i v) = length out.
Proof. unfold store. destruct (i <? 0); [reflexivity | apply store_nat_length]. Qed.

Lemma store_same out i v :
  0 <= i < Z.of_nat (length out) -> nth (Z.to_nat i) (store out i v) 0%Q = v.
Proof.
  intro H. unfold store. destruct (i <? 0) eqn:L; [lia|].
  apply store_nat_same. lia.
Qed.

Lemma store_other out i j v :
  0 <= j -> i <> j ->
  nth (Z.to_nat j) (store out i v) 0%Q = nth (Z.to_nat j) out 0%Q.
Proof.
  intros Hj H. unfold store. destruct (i <? 0) eqn:L; [reflexivity|].
  apply Z.ltb_ge in L. apply store_nat_other. lia.
Qed.

(** What (6a) writes: the queued bytes, scaled, at consecutive indices. *)
Lemma send_remaining_out fuel : forall env s n out txf s1 out1 txf1,
  0 <= txf ->
  send_remaining fuel env s n out txf = Some (s1, out1, txf1) ->
  length out1 = length out
  /\ (forall i, 0 <= i -> i < txf \/ txf1 <= i ->
        nth (Z.to_nat i) out1 0%Q = nth (Z.to_nat i) out 0%Q)
  /\ (forall i, txf <= i < txf1 -> i < Z.of_nat (length out) ->
        nth (Z.to_nat i) out1 0%Q
        = ((inject_Z (ltc_enc_buf s (ltc_buf_off s + (i - txf))) - 128)
           * ltcvol env)%Q).
Proof.
  induction fuel as [|fuel IH]; intros env s n out txf s1 out1 txf1 H0 H;
    cbn [send_remaining] in H.
  - destruct (_ && _); [discriminate|]. inversion H; subst.
    repeat split; intros; try reflexivity; lia.
  - destruct (_ && _).
    + pose proof H as Hspec. apply send_remaining_spec in Hspec.
      destruct Hspec as (_ & _ & _ & Hle & _).
      apply IH in H; [|lia]. cbn in H. destruct H as (Hlen & Hout & Hin).
      rewrite store_length in *.
      repeat split.
      * exact Hlen.
      * intros i Hi Hr. rewrite Hout by lia. apply store_other; lia.
      * intros i Hi Hb. destruct (Z.eq_dec i txf) as [->|Hne].
        -- rewrite Hout by lia. rewrite store_same by lia.
           now replace (ltc_buf_off s + (txf - txf)) with (ltc_buf_off s) by lia.
        -- rewrite Hin by lia.
           now replace (ltc_buf_off s + 1 + (i - (txf + 1)))
             with (ltc_buf_off s + (i - txf)) by lia.
    + inversion H; subst. repeat split; intros; try reflexivity; lia.
Qed.

(** C10: whenever [restarting] is set, the refill of the byte buffer
    appends exactly [trunc (frameSamples / 10)] bytes of value 127 and does
    not touch the encoder; every sample that (6a) sends from a queue of such
    bytes is [(127 - 128) * (outputVolume / 90)], which is negative for a
    positive output volume. *)
Theorem C10_restart_filler env s (Hr : restarting s = true) :
  let k := trunc (samples_per_timecode_frame env / 10) in
  let filler := ((inject_Z 127 - 128) * (ltc_output_volume env / 90))%Q in
  (exists s',
      encode_next env s = inl (s', k)
      /\ (forall j, ltc_buf_len s <= j < ltc_buf_len s + k ->
            ltc_enc_buf s' j = 127)
      /\ (forall j, ~ ltc_buf_len s <= j < ltc_buf_len s + k ->
            ltc_enc_buf s' j = ltc_enc_buf s j)
      /\ ltc_encoder s' = ltc_encoder s)
  /\ (forall (q : Session E) fuel n out txf q1 out1 txf1,
        (forall j, ltc_buf_off q <= j < ltc_buf_len q -> ltc_enc_buf q j = 127) ->
        0 <= txf -> n <= Z.of_nat (length out) ->
        send_remaining fuel env q n out txf = Some (q1, out1, txf1) ->
        forall i, txf <= i < txf1 -> nth (Z.to_nat i) out1 0%Q = filler)
  /\ ((0 < ltc_output_volume env)%Q -> (filler < 0)%Q).
Proof.
  intros k filler. split; [|split].
  - unfold encode_next. rewrite Hr. fold k.
    eexists. split; [reflexivity|]. cbn. unfold memset.
    repeat split.
    + intros j Hj.
      destruct ((ltc_buf_len s <=? j) && (j <? ltc_buf_len s + k)) eqn:C;
        [reflexivity | lia].
    + intros j Hj.
      destruct ((ltc_buf_len s <=? j) && (j <? ltc_buf_len s + k)) eqn:C;
        [lia | reflexivity].
  - intros q fuel n out txf q1 out1 txf1 Hq H0 Hn H i Hi.
    pose proof H as Hspec. apply send_remaining_spec in Hspec.
    destruct Hspec as (Hl & _ & Ho & _ & _ & _).
    assert (Hbound : txf1 <= n /\ ltc_buf_off q1 <= ltc_buf_len q1).
    { destruct ((ltc_buf_off q <? ltc_buf_len q) && (txf <? n)) eqn:C.
      - apply send_remaining_spec in H.
        destruct H as (_ & _ & _ & _ & Hb1 & _ & _ & _ & _ & _ & _ & _ & Hb2).
        lia.
      - destruct fuel; cbn [send_remaining] in H; rewrite C in H;
          inversion H; subst; lia. }
    apply send_remaining_out in H; [|assumption].
    destruct H as (_ & _ & Hin).
    rewrite Hin by lia. unfold filler, ltcvol.
    rewrite Hq by lia. reflexivity.
  - intro Hv. unfold filler.
    assert (Hq : (0 < ltc_output_volume env / 90)%Q).
    { apply Qlt_shift_div_l; [reflexivity | lra]. }
    setoid_replace (inject_Z 127 - 128)%Q with (- (1))%Q by reflexivity.
    lra.
Qed.


(** ** The hard resync and the jitter branch *)

Lemma maxdiff_tolerance env s : (maxdiff env s == tolerance_of env s)%Q.
Proof.
  unfold maxdiff, tolerance_of, tolerance, ceil, fabs.
  destruct (transport_master_is_external env); [reflexivity|].
  destruct (negb (nominal_sample_rate env =? sample_rate env));
    destruct (ltc_enc_tcformat s); cbn [TimecodeFormat_eqb near24 orb]; ring.
Qed.

Lemma needs_realign_iff env s c poff :
  needs_realign env s c poff = true <-> resync_due env s c poff.
Proof.
  unfold needs_realign, resync_due, ceil, fabs.
  rewrite orb_true_iff, andb_true_iff, Z.ltb_lt, Qneqb_neq, Qltb_lt.
  now rewrite maxdiff_tolerance.
Qed.

Lemma grown_In_old P l1 l2 e : grown P l1 l2 -> In e l1 -> In e l2.
Proof. induction 1; intro; [assumption | right; auto]. Qed.

Lemma tracked_dbg env s s1 st en n t :
  dbg s = [] ->
  check_fps env s = Next s1 ->
  speed_and_direction env s1 st en n = Some (Next t) ->
  grown tracker_event [] (dbg (t_session t)).
Proof.
  intros Hd H1 H2.
  apply check_fps_next in H1. rewrite Hd in H1.
  apply speed_and_direction_grown in H2. cbn [step_dbg] in H2.
  exact (grown_trans _ _ _ _ H1 H2).
Qed.

(** An event of steps (3)-(5) is in the trace of a cycle exactly when the
    cycle reaches step (3) and the step logs it. *)
Lemma cycle_align_events env s st en n r (f : Event -> bool) :
  (forall e, f e = true ->
     tracker_event e = false /\ output_event e = false
     /\ is_EvError e = false /\ e <> EvCleanup) ->
  dbg s = [] ->
  ltc_output_port env = true ->
  send_ltc_for_cycle env (Some s) st en n = Some r ->
  (existsb f (r_trace r) = true <->
   exists s1 t,
     generation_off env = false
     /\ check_fps env s = Next s1
     /\ Qltb 30 (timecode_to_frames_per_second (timecode_format env)) = false
     /\ speed_and_direction env s1 st en n = Some (Next t)
     /\ existsb f (step_dbg (fun x => fst (fst x))
                     (align env t n (silence n))) = true).
Proof.
  intros Hf Hd Hp H. split.
  - intro Hex. apply existsb_exists in Hex. destruct Hex as (e & Hin & He).
    destruct (Hf e He) as (F1 & F2 & F3 & F4).
    destruct (cycle_reaches_align env s st en n r e Hd Hp H Hin F1 F2 F3 F4)
      as (s1 & t & G & H1 & F & H2 & Hin' & _).
    exists s1, t. repeat split; try assumption.
    apply existsb_exists. now exists e.
  - intros (s1 & t & G & H1 & F & H2 & Hex).
    apply existsb_exists in Hex. destruct Hex as (e & Hin & He).
    apply existsb_exists. exists e. split; [|exact He].
    apply cycle_anatomy in H; [|assumption].
    destruct H as [G'|l G' H1'|s1' G' H1' F'|s1' s2 G' H1' F' H2'
                  |s1' t' s3 G' H1' F' H2' H3|s1' t' s3 out3 txf3 s4 out4 G' H1' F' H2' H3 H4];
      try congruence.
    + rewrite H1 in H1'. inversion H1'; subst s1'.
      rewrite H2 in H2'. inversion H2'; subst t'.
      rewrite H3 in Hin. apply In_leave_trace. exact Hin.
    + rewrite H1 in H1'. inversion H1'; subst s1'.
      rewrite H2 in H2'. inversion H2'; subst t'.
      rewrite H3 in Hin. cbn [step_dbg fst] in Hin.
      apply In_leave_trace. apply encode_and_output_grown in H4.
      exact (grown_In_old _ _ _ _ H4 Hin).
Qed.

Lemma existsb_false_of_grown P (f : Event -> bool) l :
  (forall e, P e = true -> f e = false) -> grown P [] l -> existsb f l = false.
Proof. intros HP G. now rewrite (grown_existsb P f [] l HP G). Qed.

Lemma align_realign_iff env t n out :
  grown tracker_event [] (dbg (t_session t)) ->
  (existsb is_EvRealign (step_dbg (fun x => fst (fst x)) (align env t n out))
   = true
   <-> needs_realign env (t_session t) (t_cycle_start t) (t_poff t) = true).
Proof.
  intro G.
  assert (Hno : existsb is_EvRealign (dbg (t_session t)) = false).
  { apply (existsb_false_of_grown tracker_event); [|exact G].
    intros []; cbn; congruence. }
  pose proof (align_shape env t n out) as H. cbn zeta in H.
  change (needs_realign env (trace _ (t_session t)) (t_cycle_start t) (t_poff t))
    with (needs_realign env (t_session t) (t_cycle_start t) (t_poff t)) in H.
  destruct (needs_realign env (t_session t) _ _).
  - split; [reflexivity|]. intros _.
    eapply grown_existsb_mono; [exact H|]. reflexivity.
  - split; [|discriminate].
    destruct (soft_condition _ _); rewrite H; cbn; now rewrite Hno.
Qed.

Lemma align_soft_iff env t n out :
  grown tracker_event [] (dbg (t_session t)) ->
  (existsb is_EvSoft (step_dbg (fun x => fst (fst x)) (align env t n out))
   = true
   <-> needs_realign env (t_session t) (t_cycle_start t) (t_poff t) = false
       /\ soft_condition env (t_session t) = true).
Proof.
  intro G.
  assert (Hno : existsb is_EvSoft (dbg (t_session t)) = false).
  { apply (existsb_false_of_grown tracker_event); [|exact G].
    intros []; cbn; congruence. }
  pose proof (align_shape env t n out) as H. cbn zeta in H.
  change (needs_realign env (trace _ (t_session t)) (t_cycle_start t) (t_poff t))
    with (needs_realign env (t_session t) (t_cycle_start t) (t_poff t)) in H.
  change (soft_condition env (trace _ (t_session t)))
    with (soft_condition env (t_session t)) in H.
  destruct (needs_realign env (t_session t) _ _).
  - split; [|intros [? _]; discriminate].
    intro Hex. exfalso.
    assert (Hr : forall e, restart_event e = true -> is_EvSoft e = false)
      by (intros []; cbn; congruence).
    rewrite (grown_existsb restart_event is_EvSoft _ _ Hr H) in Hex.
    cbn in Hex. rewrite Hno in Hex. discriminate.
  - destruct (soft_condition env (t_session t)); rewrite H; cbn.
    + split; auto.
    + rewrite Hno. split; [discriminate | intros [_ ?]; discriminate].
Qed.


(** C1 (amended): a cycle performs the hard resync exactly when it reaches
    the alignment check and, for the session that enters the check,
    [ltc_enc_pos] is negative (as the sentinel -9999 is), or the speed is not
    0 and [|fmod (ceil (ltc_enc_pos + ltc_enc_cnt - poff), wrap24h)
    - cycle_start_sample % wrap24h|] exceeds the tolerance.  The speed of
    the test and of the tolerance is the speed of the current block
    ([effective_speed]); the speed of the previous block enters only
    [poff], the number of queued bytes times that speed, or 0 after a
    reset.  The tolerance is [2 * ceil |speed|], times 3 when nominal and
    session sample rate differ, times 15 for the formats near 24 fps, and
    the resolution of the transport master when it is external. *)
Theorem C1_hard_resync env s st en n r :
  dbg s = [] ->
  ltc_output_port env = true ->
  send_ltc_for_cycle env (Some s) st en n = Some r ->
  (existsb is_EvRealign (r_trace r) = true <->
   exists s1 t,
     generation_off env = false
     /\ check_fps env s = Next s1
     /\ Qltb 30 (timecode_to_frames_per_second (timecode_format env)) = false
     /\ speed_and_direction env s1 st en n = Some (Next t)
     /\ resync_due env (t_session t) (t_cycle_start t) (t_poff t))
  /\ (forall s1 t,
        check_fps env s = Next s1 ->
        speed_and_direction env s1 st en n = Some (Next t) ->
        ltc_speed (t_session t) = effective_speed env st en n
        /\ ltc_enc_tcformat (t_session t) = timecode_format env
        /\ t_cycle_start t = cycle_start env s st (raw_speed st en n)
        /\ ((t_poff t == 0)%Q
            \/ t_poff t
               = (inject_Z (ltc_buf_len s1 - ltc_buf_off s1) * ltc_speed s)%Q)).
Proof.
  intros Hd Hp H. split.
  - rewrite (cycle_align_events env s st en n r is_EvRealign); try assumption.
    + split; intros (s1 & t & G & H1 & F & H2 & Hx); exists s1, t;
        repeat split; try assumption.
      * apply needs_realign_iff. apply align_realign_iff in Hx; [exact Hx|].
        now apply (tracked_dbg env s s1 st en n).
      * apply align_realign_iff; [now apply (tracked_dbg env s s1 st en n)|].
        now apply needs_realign_iff.
    + intros [] He; try discriminate. repeat split; discriminate.
  - intros s1 t H1 H2.
    apply speed_and_direction_next in H2.
    destruct H2 as (Hc & Hv & Hs & _ & (_ & Hf & _) & _ & _ & Hpoff & _).
    apply check_fps_setup in H1. destruct H1 as (Hl & Hfmt & Hsp & _).
    repeat split.
    + congruence.
    + congruence.
    + rewrite Hc. now apply cycle_start_latency.
    + now rewrite <- Hsp.
Qed.

(** C7 (amended): in a cycle whose speed is not negative, the soft
    correction is applied exactly when the cycle reaches the alignment check,
    the hard resync is not due, the speed is not 0 and
    [frameSamples / speed / 80], the duration of one bit (not of one byte)
    at the current speed, exceeds 3 samples; the cycle then performs no hard
    resync. *)
Theorem C7_soft_correction env s st en n r :
  dbg s = [] ->
  ltc_output_port env = true ->
  send_ltc_for_cycle env (Some s) st en n = Some r ->
  (0 <= effective_speed env st en n)%Q ->
  (existsb is_EvSoft (r_trace r) = true <->
   exists s1 t,
     generation_off env = false
     /\ check_fps env s = Next s1
     /\ Qltb 30 (timecode_to_frames_per_second (timecode_format env)) = false
     /\ speed_and_direction env s1 st en n = Some (Next t)
     /\ ~ resync_due env (t_session t) (t_cycle_start t) (t_poff t)
     /\ ~ (ltc_speed (t_session t) == 0)%Q
     /\ (3 < samples_per_timecode_frame env / ltc_speed (t_session t) / 80)%Q)
  /\ (existsb is_EvSoft (r_trace r) = true ->
      existsb is_EvRealign (r_trace r) = false).
Proof.
  intros Hd Hp H _.
  assert (Hsoft : forall e, is_EvSoft e = true ->
            tracker_event e = false /\ output_event e = false
            /\ is_EvError e = false /\ e <> EvCleanup).
  { intros [] He; try discriminate. repeat split; discriminate. }
  assert (Hiff : existsb is_EvSoft (r_trace r) = true <->
    exists s1 t,
      generation_off env = false
      /\ check_fps env s = Next s1
      /\ Qltb 30 (timecode_to_frames_per_second (timecode_format env)) = false
      /\ speed_and_direction env s1 st en n = Some (Next t)
      /\ needs_realign env (t_session t) (t_cycle_start t) (t_poff t) = false
      /\ soft_condition env (t_session t) = true).
  { rewrite (cycle_align_events env s st en n r is_EvSoft Hsoft Hd Hp H).
    split; intros (s1 & t & G & H1 & F & H2 & Hx); exists s1, t;
      repeat split; try assumption.
    - apply align_soft_iff in Hx; [apply Hx|].
      now apply (tracked_dbg env s s1 st en n).
    - apply align_soft_iff in Hx; [apply Hx|].
      now apply (tracked_dbg env s s1 st en n).
    - destruct Hx as [Hx1 Hx2]. apply align_soft_iff; [|now split].
      now apply (tracked_dbg env s s1 st en n). }
  split.
  - rewrite Hiff.
    split; intros (s1 & t & G & H1 & F & H2 & Hx); exists s1, t;
      repeat split; try assumption.
    + destruct Hx as [Hx _]. intro Hdue. apply needs_realign_iff in Hdue.
      congruence.
    + destruct Hx as [_ Hx]. unfold soft_condition in Hx.
      apply andb_true_iff in Hx. now apply Qneqb_neq.
    + destruct Hx as [_ Hx]. unfold soft_condition in Hx.
      apply andb_true_iff in Hx. apply Qltb_lt. apply Hx.
    + destruct Hx as (Hx & _).
      destruct (needs_realign env (t_session t) _ _) eqn:N; [|reflexivity].
      exfalso. apply Hx. now apply needs_realign_iff.
    + destruct Hx as (_ & Hx1 & Hx2). unfold soft_condition.
      apply andb_true_iff. split; [now apply Qneqb_neq | now apply Qltb_lt].
  - intro Hs. apply Hiff in Hs.
    destruct Hs as (s1 & t & G & H1 & F & H2 & Hx1 & Hx2).
    destruct (existsb is_EvRealign (r_trace r)) eqn:R; [|reflexivity].
    exfalso.
    assert (Hre : forall e, is_EvRealign e = true ->
              tracker_event e = false /\ output_event e = false
              /\ is_EvError e = false /\ e <> EvCleanup).
    { intros [] He; try discriminate. repeat split; discriminate. }
    apply (cycle_align_events env s st en n r is_EvRealign Hre Hd Hp H) in R.
    destruct R as (s1' & t' & _ & H1' & _ & H2' & Hx).
    rewrite H1 in H1'. inversion H1'; subst s1'.
    rewrite H2 in H2'. inversion H2'; subst t'.
    apply align_realign_iff in Hx;
      [congruence | now apply (tracked_dbg env s s1 st en n)].
Qed.


(** ** The resets of the transport tracker *)

Lemma effective_speed_zero env st en n :
  (effective_speed env st en n == 0)%Q ->
  (en =? st) || Qltb (fabs (rescale_speed env (raw_speed st en n))) (1 # 10)
  = true.
Proof.
  unfold effective_speed. cbv zeta.
  destruct (_ || _) eqn:C; [reflexivity|]. intro H0.
  apply orb_false_iff in C. destruct C as [_ C]. apply Qltb_ge in C.
  unfold fabs in C. rewrite H0 in C. exfalso. revert C. now vm_compute.
Qed.

Lemma effective_speed_nonzero env st en n :
  ~ (effective_speed env st en n == 0)%Q ->
  (en =? st) || Qltb (fabs (rescale_speed env (raw_speed st en n))) (1 # 10)
  = false
  /\ effective_speed env st en n = rescale_speed env (raw_speed st en n).
Proof.
  unfold effective_speed. cbv zeta.
  destruct (_ || _); [|now split]. intro H. exfalso. now apply H.
Qed.

Lemma check_fps_same env s :
  ltc_enc_tcformat s = timecode_format env -> check_fps env s = Next s.
Proof.
  intro H. unfold check_fps. rewrite H.
  now destruct (timecode_format env).
Qed.

Lemma settle_speed_grown env s st c v ch x :
  settle_speed env s st c v ch = Some x ->
  grown tracker_event (dbg s) (step_dbg t_session x).
Proof.
  unfold settle_speed. intro H.
  destruct (Qltb 10 (fabs v)).
  { inversion H; subst. grow. }
  pose proof (started_rolling_check_grown s v) as G4.
  set (s4 := started_rolling_check s v) in *.
  destruct (ch && Qneqb v 0).
  - destruct (resample env s4 v _) as [[s5 p5]|] eqn:Hr; [|discriminate].
    apply resample_grown in Hr. inversion H; subst. cbn [step_dbg t_session].
    apply (grown_trans _ _ (dbg s5)); [eauto using grown_trans | grow].
  - inversion H; subst. cbn [step_dbg t_session].
    apply (grown_trans _ _ (dbg s4)); [assumption | grow].
Qed.

Lemma settle_speed_started env s st c v ch x :
  Qeq_bool (ltc_speed s) 0 = true -> Qneqb v 0 = true ->
  settle_speed env s st c v ch = Some x ->
  In EvReset (step_dbg t_session x).
Proof.
  unfold settle_speed. intros H0 Hv H.
  destruct (Qltb 10 (fabs v)).
  { inversion H; subst. now left. }
  assert (Hin : In EvReset (dbg (started_rolling_check s v))).
  { unfold started_rolling_check. rewrite H0, Hv. now left. }
  set (s4 := started_rolling_check s v) in *.
  destruct (ch && Qneqb v 0).
  - destruct (resample env s4 v _) as [[s5 p5]|] eqn:Hr; [|discriminate].
    apply resample_grown in Hr. inversion H; subst. cbn [step_dbg t_session].
    right. exact (grown_In_old _ _ _ _ Hr Hin).
  - inversion H; subst. cbn [step_dbg t_session]. now right.
Qed.

Lemma speed_and_direction_after_direction env s st en n x :
  speed_and_direction env s st en n = Some x ->
  grown tracker_event
    (dbg (direction_check s (rescale_speed env (raw_speed st en n))))
    (step_dbg t_session x).
Proof.
  unfold speed_and_direction. intro H.
  set (v := rescale_speed env (raw_speed st en n)) in *.
  set (s1 := direction_check s v) in *.
  pose proof (speed_change_check_grown env s1 v) as G2.
  destruct (speed_change_check env s1 v) as [s2 changed].
  cbn [fst] in G2.
  pose proof (not_rolling_check_grown env s2 st en v) as G3.
  destruct (not_rolling_check env s2 st en v) as [s3|l|[s3 v']].
  - inversion H; subst. cbn in *. eauto using grown_trans.
  - inversion H; subst. cbn in *. eauto using grown_trans.
  - apply settle_speed_grown in H. cbn [step_dbg fst] in G3.
    eauto using grown_trans.
Qed.

Lemma direction_reset env s st en n x :
  SIGNUM (rescale_speed env (raw_speed st en n)) <> SIGNUM (ltc_speed s) ->
  speed_and_direction env s st en n = Some x ->
  In EvReset (step_dbg t_session x).
Proof.
  intros Hne H. apply speed_and_direction_after_direction in H.
  apply (grown_In_old _ _ _ _ H).
  unfold direction_check. apply Z.eqb_neq in Hne. rewrite Hne. now left.
Qed.

Lemma started_rolling_reset env s st en n x :
  (ltc_speed s == 0)%Q -> ~ (effective_speed env st en n == 0)%Q ->
  speed_and_direction env s st en n = Some x ->
  In EvReset (step_dbg t_session x).
Proof.
  intros H0 Hv H.
  destruct (effective_speed_nonzero env st en n Hv) as [Hc He].
  rewrite He in Hv. clear He.
  unfold speed_and_direction in H.
  set (v := rescale_speed env (raw_speed st en n)) in *.
  destruct (direction_check_frame s v) as [(_ & F1 & _) _].
  set (s1 := direction_check s v) in *.
  destruct (speed_change_check_frame env s1 v) as ((_ & F2 & _) & _).
  destruct (speed_change_check env s1 v) as [s2 changed]. cbn [fst] in F2.
  unfold not_rolling_check in H. rewrite Hc in H.
  apply settle_speed_started in H; [exact H| |now apply Qneqb_neq].
  apply Qeq_bool_iff. now rewrite F2, F1.
Qed.

Lemma reset_precedes_output_grown l l' :
  grown tracker_event [] l -> In EvReset l -> grown late_event l l' ->
  reset_precedes_output (rev l').
Proof.
  intros G Hin G'.
  apply grown_app in G'. destruct G' as (front & -> & _).
  apply in_split in Hin. destruct Hin as (l1 & l2 & ->).
  exists (rev l2), (rev l1 ++ rev front). split.
  - rewrite !rev_app_distr. cbn. rewrite <- !app_assoc. reflexivity.
  - assert (Hall : forall e, In e l2 -> tracker_event e = true).
    { intros e He. apply (grown_from_nil_In _ _ e) in G; [exact G|].
      apply in_or_app. right. now right. }
    destruct (existsb is_EvSample (rev l2)) eqn:X; [|reflexivity].
    apply existsb_exists in X. destruct X as (e & He & Hs).
    apply in_rev in He. apply Hall in He. destruct e; discriminate.
Qed.

(** A cycle that gets past step (1) without a change of format runs the
    tracker on the session it was given; all later events are those of
    steps (3) to (6). *)
Lemma cycle_tracker env s st en n r :
  ltc_output_port env = true ->
  generation_off env = false ->
  ltc_enc_tcformat s = timecode_format env ->
  Qltb 30 (timecode_to_frames_per_second (timecode_format env)) = false ->
  send_ltc_for_cycle env (Some s) st en n = Some r ->
  exists x,
    speed_and_direction env s st en n = Some x
    /\ grown late_event (step_dbg t_session x) (rev (r_trace r))
    /\ (forall s2, x = Leave s2 -> r = leave s2 (silence n)).
Proof.
  intros Hp G Hfmt F H.
  apply cycle_anatomy in H; [|assumption].
  pose proof (check_fps_same env s Hfmt) as Hc.
  destruct H as [G'|l G' H1|s1 G' H1 F'|s1 s2 G' H1 F' H2|s1 t s3 G' H1 F' H2 H3
                |s1 t s3 out3 txf3 s4 out4 G' H1 F' H2 H3 H4];
    try congruence;
    rewrite Hc in H1; inversion H1; subst s1.
  - exists (Leave s2). split; [assumption|].
    split; [|intros ? [= ->]; reflexivity].
    unfold leave. cbn. rewrite rev_involutive. apply grown_same.
  - exists (Next t). split; [assumption|]. split; [|discriminate].
    unfold leave. cbn. rewrite rev_involutive.
    pose proof (align_grown env t n (silence n)) as Ga. rewrite H3 in Ga.
    cbn [step_dbg] in Ga.
    eapply grown_weaken; [|exact Ga].
    intros e He. unfold late_event. now rewrite He.
  - exists (Next t). split; [assumption|]. split; [|discriminate].
    unfold leave. cbn. rewrite rev_involutive.
    pose proof (align_grown env t n (silence n)) as Ga. rewrite H3 in Ga.
    cbn [step_dbg fst] in Ga. apply encode_and_output_grown in H4.
    eapply grown_trans.
    + eapply grown_weaken; [|exact Ga].
      intros e He. unfold late_event. now rewrite He.
    + eapply grown_weaken; [|exact H4].
      intros e He. unfold late_event. rewrite He. apply orb_true_r.
Qed.


(** An idle block with continuous generation disabled: the tracker leaves
    at once; it resets only for a change of direction. *)
Lemma idle_not_continuous env s st en n :
  (en =? st) || Qltb (fabs (rescale_speed env (raw_speed st en n))) (1 # 10)
  = true ->
  ltc_send_continuously env = false ->
  exists s2,
    speed_and_direction env s st en n = Some (Leave s2)
    /\ ltc_speed s2 = 0%Q
    /\ (SIGNUM (rescale_speed env (raw_speed st en n)) = SIGNUM (ltc_speed s) ->
        existsb is_EvReset (dbg s2) = existsb is_EvReset (dbg s)
        /\ ltc_buf_len s2 = ltc_buf_len s
        /\ ltc_buf_off s2 = ltc_buf_off s
        /\ ltc_enc_pos s2 = ltc_enc_pos s).
Proof.
  intros Hc Hn.
  unfold speed_and_direction, speed_change_check, not_rolling_check.
  set (v := rescale_speed env (raw_speed st en n)) in *.
  destruct (Qneqb (ltc_speed (direction_check s v)) v);
    rewrite Hc, Hn; cbn [negb];
    (eexists; split; [reflexivity|]; split; [reflexivity|]);
    intro Hs; unfold direction_check; apply Z.eqb_eq in Hs; rewrite Hs;
    repeat split.
Qed.

(** An idle block with continuous generation enabled: the tracker resets
    for a change of direction and for a block start other than that of the
    last rendered block, and not otherwise. *)
Lemma idle_continuous env s st en n :
  (en =? st) || Qltb (fabs (rescale_speed env (raw_speed st en n))) (1 # 10)
  = true ->
  ltc_send_continuously env = true ->
  exists t,
    speed_and_direction env s st en n = Some (Next t)
    /\ existsb is_EvNoRollSeek (dbg (t_session t))
       = (negb (st =? ltc_prev_cycle s) || existsb is_EvNoRollSeek (dbg s))
    /\ (st <> ltc_prev_cycle s -> In EvReset (dbg (t_session t)))
    /\ (st = ltc_prev_cycle s ->
        SIGNUM (rescale_speed env (raw_speed st en n)) = SIGNUM (ltc_speed s) ->
        existsb is_EvReset (dbg (t_session t)) = existsb is_EvReset (dbg s)).
Proof.
  intros Hc Hn.
  unfold speed_and_direction, speed_change_check, not_rolling_check,
    settle_speed, started_rolling_check.
  set (v := rescale_speed env (raw_speed st en n)) in *.
  change (Qltb 10 (fabs 0)) with false.
  change (Qneqb 0 0) with false.
  assert (Hp : ltc_prev_cycle (direction_check s v) = ltc_prev_cycle s).
  { unfold direction_check. now destruct (negb _). }
  assert (Hd : existsb is_EvNoRollSeek (dbg (direction_check s v))
               = existsb is_EvNoRollSeek (dbg s)).
  { unfold direction_check. now destruct (negb _). }
  destruct (Qneqb (ltc_speed (direction_check s v)) v);
    rewrite Hc, Hn; cbn [negb]; cbn [ltc_prev_cycle trace set_encoder set_dbg];
    rewrite Hp;
    (destruct (st =? ltc_prev_cycle s) eqn:Hq; cbn [negb];
     rewrite ?andb_false_r; cbn [andb];
     [apply Z.eqb_eq in Hq | apply Z.eqb_neq in Hq]);
    (eexists; split; [reflexivity|]); cbn; rewrite ?Hd;
    (split; [reflexivity|]); (split; [intro; try contradiction; auto|]);
    intros He Hs; try contradiction;
    unfold direction_check; apply Z.eqb_eq in Hs; rewrite Hs; reflexivity.
Qed.


Lemma existsb_rev_eq (f : Event -> bool) l : existsb f (rev l) = existsb f l.
Proof.
  destruct (existsb f l) eqn:X.
  - apply existsb_exists in X. destruct X as (e & He & Hf).
    apply existsb_exists. exists e. split; [now apply in_rev in He | exact Hf].
  - destruct (existsb f (rev l)) eqn:Y; [|reflexivity].
    apply existsb_exists in Y. destruct Y as (e & He & Hf).
    apply in_rev in He.
    assert (existsb f l = true) by (apply existsb_exists; eauto). congruence.
Qed.

(** The rest of step (2) never logs "transport is not rolling". *)
Lemma settle_speed_not_rolling env s st c v ch x :
  settle_speed env s st c v ch = Some x ->
  existsb is_EvNotRolling (step_dbg t_session x)
  = existsb is_EvNotRolling (dbg s).
Proof.
  intro H.
  apply (grown_existsb (fun e => tracker_event e && negb (is_EvNotRolling e))).
  { intros []; cbn; congruence. }
  unfold settle_speed in H.
  destruct (Qltb 10 (fabs v)).
  { inversion H; subst. grow. }
  assert (G4 : grown (fun e => tracker_event e && negb (is_EvNotRolling e))
                 (dbg s) (dbg (started_rolling_check s v))).
  { unfold started_rolling_check. break_goal; grow. }
  set (s4 := started_rolling_check s v) in *.
  destruct (ch && Qneqb v 0).
  - destruct (resample env s4 v _) as [[s5 p5]|] eqn:Hr; [|discriminate].
    assert (G5 : grown (fun e => tracker_event e && negb (is_EvNotRolling e))
                   (dbg s4) (dbg s5)).
    { unfold resample in Hr.
      repeat break_in Hr; inversion Hr; subst; grow. }
    inversion H; subst. cbn [step_dbg t_session].
    apply (grown_trans _ _ (dbg s5)); [eauto using grown_trans | grow].
  - inversion H; subst. cbn [step_dbg t_session].
    apply (grown_trans _ _ (dbg s4)); [assumption | grow].
Qed.

(** The tracker logs "transport is not rolling" exactly for a block that
    does not move or whose speed it finds below 0.1. *)
Lemma tracker_idle env s st en n x :
  speed_and_direction env s st en n = Some x ->
  existsb is_EvNotRolling (step_dbg t_session x)
  = ((en =? st)
     || Qltb (fabs (rescale_speed env (raw_speed st en n))) (1 # 10)
     || existsb is_EvNotRolling (dbg s)).
Proof.
  unfold speed_and_direction. intro H.
  set (v := rescale_speed env (raw_speed st en n)) in *.
  assert (D1 : existsb is_EvNotRolling (dbg (direction_check s v))
               = existsb is_EvNotRolling (dbg s))
    by (unfold direction_check; break_goal; reflexivity).
  set (s1 := direction_check s v) in *.
  assert (D2 : existsb is_EvNotRolling (dbg (fst (speed_change_check env s1 v)))
               = existsb is_EvNotRolling (dbg s1))
    by (unfold speed_change_check; break_goal; reflexivity).
  destruct (speed_change_check env s1 v) as [s2 changed]. cbn [fst] in D2.
  unfold not_rolling_check in H.
  destruct ((en =? st) || Qltb (fabs v) (1 # 10)); cbn [orb].
  - destruct (negb (ltc_send_continuously env)).
    + inversion H; subst. reflexivity.
    + destruct (negb (st =? ltc_prev_cycle _));
        apply settle_speed_grown in H;
        apply (grown_existsb_mono _ _ _ _ H); reflexivity.
  - apply settle_speed_not_rolling in H. now rewrite H, D2, D1.
Qed.

(** Once step (1) has let the session through, the trace of the cycle
    extends the trace of that session. *)
Lemma cycle_after_fps env s st en n r s1 :
  ltc_output_port env = true ->
  generation_off env = false ->
  check_fps env s = Next s1 ->
  send_ltc_for_cycle env (Some s) st en n = Some r ->
  grown (fun _ => true) (dbg s1) (rev (r_trace r)).
Proof.
  intros Hp G Hc H.
  apply cycle_anatomy in H; [|assumption].
  assert (W : forall P l1 l2, grown P l1 l2 -> grown (fun _ => true) l1 l2)
    by (intros P l1 l2; now apply grown_weaken).
  destruct H as [G'|l G' H1|s1' G' H1 F'|s1' s2 G' H1 F' H2
                |s1' t s3 G' H1 F' H2 H3
                |s1' t s3 out3 txf3 s4 out4 G' H1 F' H2 H3 H4];
    try congruence;
    rewrite Hc in H1; inversion H1; subst s1';
    unfold leave; cbn [r_trace]; rewrite rev_involutive.
  - apply grown_same.
  - apply speed_and_direction_grown in H2. exact (W _ _ _ H2).
  - apply speed_and_direction_grown in H2. cbn [step_dbg] in H2.
    pose proof (align_grown env t n (silence n)) as Ga. rewrite H3 in Ga.
    cbn [step_dbg] in Ga.
    exact (grown_trans _ _ _ _ (W _ _ _ H2) (W _ _ _ Ga)).
  - apply speed_and_direction_grown in H2. cbn [step_dbg] in H2.
    pose proof (align_grown env t n (silence n)) as Ga. rewrite H3 in Ga.
    cbn [step_dbg fst] in Ga. apply encode_and_output_grown in H4.
    exact (grown_trans _ _ _ _ (W _ _ _ H2)
             (grown_trans _ _ _ _ (W _ _ _ Ga) (W _ _ _ H4))).
Qed.

(** A changed format that the encoder accepts: the cycle starts with the
    reset of step (1). *)
Lemma format_change_reset env s st en n r :
  dbg s = [] ->
  ltc_output_port env = true ->
  generation_off env = false ->
  ltc_enc_tcformat s <> timecode_format env ->
  send_ltc_for_cycle env (Some s) st en n = Some r ->
  existsb is_EvError (r_trace r) = false ->
  reset_precedes_output (r_trace r).
Proof.
  intros Hd Hp G Hne H Hno.
  assert (Hf : TimecodeFormat_eqb (timecode_format env) (ltc_enc_tcformat s)
               = false).
  { destruct (timecode_format env), (ltc_enc_tcformat s);
      try reflexivity; exfalso; now apply Hne. }
  destruct (check_fps env s) as [s1|l|s1] eqn:Hc.
  - exfalso. now apply (check_fps_never_leaves env s s1).
  - exfalso. unfold send_ltc_for_cycle in H. rewrite Hp, G, Hc in H.
    cbn [negb] in H. inversion H; subst r. clear H.
    unfold gone in Hno. cbn [r_trace] in Hno. rewrite existsb_rev_eq in Hno.
    unfold check_fps in Hc. rewrite Hf in Hc. cbn [negb] in Hc.
    destruct (ltc_encoder_reinit _ _ _ _); [discriminate|].
    inversion Hc; subst l. cbn in Hno. discriminate.
  - pose proof (cycle_after_fps env s st en n r s1 Hp G Hc H) as Gr.
    unfold check_fps in Hc. rewrite Hf in Hc. cbn [negb] in Hc.
    destruct (ltc_encoder_reinit _ _ _ _); [|discriminate].
    inversion Hc; subst s1. cbn [dbg ltc_tx_reset trace set_dbg set_encoder
      set_enc_cnt set_enc_byte set_buf_off set_buf_len set_enc_pos
      set_enc_tcformat ltc_tx_parse_offset] in Gr.
    apply grown_app in Gr. destruct Gr as (front & Hfr & _).
    rewrite <- (rev_involutive (r_trace r)), Hfr.
    exists (rev (EvReinit :: dbg s)), (rev front). split.
    + rewrite rev_app_distr. cbn [rev]. rewrite <- app_assoc. reflexivity.
    + rewrite Hd. reflexivity.
Qed.

(** C2 (amended): in a cycle that reaches the transport tracker, a changed
    timecode format that the encoder accepts resets in step (1), before any
    sample is written.  With the format unchanged, (1) a block whose direction
    [SIGNUM] differs from that of the previous speed (0 counts as forward)
    performs [ltc_tx_reset] before any sample is written; (2) so does a block
    that the tracker takes as rolling after a previous speed of 0; (3) a block
    that the tracker takes as not rolling (it logs "transport is not rolling
    or speed < 0.1") with continuous generation disabled writes no sample,
    stores the speed 0 and, unless the direction changed, performs no reset
    and leaves queue and position as they were; (4) such a block with
    continuous generation enabled makes the no-roll-seek reset exactly when
    its start differs from the start of the last rendered block, and the
    tracker performs no reset at all when the start is the same and the
    direction unchanged. *)
Theorem C2_tracker_resets env s st en n r :
  dbg s = [] ->
  ltc_output_port env = true ->
  generation_off env = false ->
  Qltb 30 (timecode_to_frames_per_second (timecode_format env)) = false ->
  send_ltc_for_cycle env (Some s) st en n = Some r ->
  let v := rescale_speed env (raw_speed st en n) in
  let idle := existsb is_EvNotRolling (r_trace r) in
  (ltc_enc_tcformat s <> timecode_format env ->
   existsb is_EvError (r_trace r) = false ->
   reset_precedes_output (r_trace r))
  /\ (ltc_enc_tcformat s = timecode_format env ->
      (SIGNUM v <> SIGNUM (ltc_speed s) -> reset_precedes_output (r_trace r))
      /\ ((ltc_speed s == 0)%Q -> idle = false ->
          reset_precedes_output (r_trace r))
      /\ (idle = true -> ltc_send_continuously env = false ->
          existsb is_EvSample (r_trace r) = false
          /\ r_out r = silence n
          /\ exists s',
               r_session r = Some s' /\ ltc_speed s' = 0%Q
               /\ (SIGNUM v = SIGNUM (ltc_speed s) ->
                   existsb is_EvReset (r_trace r) = false
                   /\ ltc_buf_len s' = ltc_buf_len s
                   /\ ltc_buf_off s' = ltc_buf_off s
                   /\ ltc_enc_pos s' = ltc_enc_pos s))
      /\ (idle = true -> ltc_send_continuously env = true ->
          (existsb is_EvNoRollSeek (r_trace r) = true
           <-> st <> ltc_prev_cycle s)
          /\ (st <> ltc_prev_cycle s -> reset_precedes_output (r_trace r))
          /\ (st = ltc_prev_cycle s -> SIGNUM v = SIGNUM (ltc_speed s) ->
              exists t,
                speed_and_direction env s st en n = Some (Next t)
                /\ existsb is_EvReset (dbg (t_session t)) = false))).
Proof.
  intros Hd Hp G F H v idle.
  split; [intros Hne Hno;
          exact (format_change_reset env s st en n r Hd Hp G Hne H Hno)|].
  intro Hfmt.
  destruct (cycle_tracker env s st en n r Hp G Hfmt F H) as (x & Hx & Gl & Hl).
  assert (G0 : grown tracker_event [] (step_dbg t_session x)).
  { rewrite <- Hd. now apply (speed_and_direction_grown env s st en n). }
  assert (Hpre : In EvReset (step_dbg t_session x) ->
                 reset_precedes_output (r_trace r)).
  { intro Hin. rewrite <- (rev_involutive (r_trace r)).
    exact (reset_precedes_output_grown _ _ G0 Hin Gl). }
  assert (Hidle : idle
                  = ((en =? st) || Qltb (fabs v) (1 # 10))).
  { unfold idle. rewrite <- (existsb_rev_eq _ (r_trace r)).
    assert (Hla : forall e, late_event e = true -> is_EvNotRolling e = false)
      by (intros []; cbn; congruence).
    rewrite (grown_existsb late_event is_EvNotRolling _ _ Hla Gl).
    rewrite (tracker_idle env s st en n x Hx), Hd. cbn [existsb].
    apply orb_false_r. }
  split; [|split; [|split]].
  - intro Hne. apply Hpre. exact (direction_reset env s st en n x Hne Hx).
  - intros H0 Hv. apply Hpre. rewrite Hidle in Hv.
    apply (started_rolling_reset env s st en n x H0); [|exact Hx].
    unfold effective_speed. cbv zeta. fold v. rewrite Hv.
    apply orb_false_iff in Hv. destruct Hv as [_ Hv]. apply Qltb_ge in Hv.
    intro Hz. unfold fabs in Hv. rewrite Hz in Hv. revert Hv. now vm_compute.
  - intros Hv Hn. rewrite Hidle in Hv.
    destruct (idle_not_continuous env s st en n Hv Hn) as (s2 & H2 & Hs & Hk).
    rewrite Hx in H2. inversion H2; subst x. cbn [step_dbg] in G0.
    rewrite (Hl s2 eq_refl). unfold leave. cbn.
    split; [|split; [reflexivity|]].
    + rewrite existsb_rev_eq.
      apply (existsb_false_of_grown tracker_event); [|exact G0].
      intros []; cbn; congruence.
    + exists (set_dbg [] s2). split; [reflexivity|]. split; [exact Hs|].
      intro Hsig. destruct (Hk Hsig) as (K1 & K2 & K3 & K4).
      split; [|repeat split; assumption].
      rewrite existsb_rev_eq, K1, Hd. reflexivity.
  - intros Hv Hc. rewrite Hidle in Hv.
    destruct (idle_continuous env s st en n Hv Hc) as (t & H2 & Hs & Hr & Hk).
    rewrite Hx in H2. inversion H2; subst x. cbn [step_dbg] in *.
    split; [|split].
    + rewrite <- (existsb_rev_eq _ (r_trace r)).
      assert (Hla : forall e, late_event e = true -> is_EvNoRollSeek e = false)
        by (intros []; cbn; congruence).
      rewrite (grown_existsb late_event is_EvNoRollSeek _ _ Hla Gl).
      rewrite Hs, Hd. cbn. rewrite orb_false_r, negb_true_iff, Z.eqb_neq.
      reflexivity.
    + intro Hne. apply Hpre. now apply Hr.
    + intros He Hsig. exists t. split; [exact Hx|].
      rewrite (Hk He Hsig), Hd. reflexivity.
Qed.


(** ** The hard resync *)

Lemma trace_encoder e s : ltc_encoder (trace e s) = ltc_encoder s.
Proof. reflexivity. Qed.

Lemma trace_enc_pos e s : ltc_enc_pos (trace e s) = ltc_enc_pos s.
Proof. reflexivity. Qed.

Lemma seed_encoder_pos env s tc : ltc_enc_pos (seed_encoder env s tc) = -9999.
Proof. reflexivity. Qed.

Lemma byte_for_offset_spec env s soff :
  let fptcf := samples_per_timecode_frame env in
  let b := resync_byte fptcf (ltc_speed s) soff in
  let wraps := negb (Qltb (ltc_speed s) 0) && (b =? 10) in
  let s' := fst (byte_for_offset env s soff) in
  snd (byte_for_offset env s soff) = resync_offset fptcf (ltc_speed s) soff
  /\ ltc_enc_byte s' = (if wraps then 0 else b)
  /\ ltc_enc_cnt s' = (inject_Z b * fptcf / 10)%Q
  /\ ltc_encoder s'
     = (if wraps then ltc_encoder_inc_timecode (ltc_encoder s)
        else ltc_encoder s)
  /\ ltc_speed s' = ltc_speed s
  /\ ltc_enc_pos s' = ltc_enc_pos s
  /\ ltc_buf_len s' = ltc_buf_len s
  /\ ltc_buf_off s' = ltc_buf_off s.
Proof.
  cbv zeta. unfold byte_for_offset, resync_offset, resync_byte, floor, ceil.
  destruct (Qltb (ltc_speed s) 0); cbn.
  - repeat split.
  - destruct (Qceiling (10 * inject_Z soff / samples_per_timecode_frame env)
              =? 10); cbn; repeat split.
Qed.

Lemma mark_restarting_fields s :
  ltc_enc_byte (mark_restarting s) = ltc_enc_byte s
  /\ ltc_encoder (mark_restarting s) = ltc_encoder s
  /\ ltc_enc_pos (mark_restarting s) = ltc_enc_pos s
  /\ ltc_speed (mark_restarting s) = ltc_speed s
  /\ ltc_enc_cnt (mark_restarting s) = ltc_enc_cnt s.
Proof. unfold mark_restarting. break_goal; repeat split. Qed.

Lemma realign_in_range env s n c tc tcs soff out :
  0 <= soff -> (inject_Z soff < samples_per_timecode_frame env)%Q ->
  let fptcf := samples_per_timecode_frame env in
  let b := resync_byte fptcf (ltc_speed s) soff in
  let cyc_off := resync_offset fptcf (ltc_speed s) soff in
  let wraps := negb (Qltb (ltc_speed s) 0) && (b =? 10) in
  exists s',
    realign env s n c tc tcs soff out
    = (if (0 <=? cyc_off) && (cyc_off <=? int32_t n)
       then Next (trace (EvRestartAt (Z.rem tcs (wrap24h env)))
                    (set_enc_pos (Z.rem tcs (wrap24h env)) s'),
                  zero_prefix out (Z.to_nat cyc_off),
                  rint (inject_Z cyc_off / fabs (ltc_speed s)))
       else Leave s')
    /\ ltc_enc_byte s' = (if wraps then 0 else b)
    /\ ltc_encoder s'
       = (if wraps
          then ltc_encoder_inc_timecode (ltc_encoder (seed_encoder env s tc))
          else ltc_encoder (seed_encoder env s tc))
    /\ ltc_enc_pos s' = -9999.
Proof.
  intros H0 Hlt fptcf b cyc_off wraps.
  unfold realign.
  assert (G : (soff <? 0) || Qle_bool fptcf (inject_Z soff) = false).
  { apply orb_false_iff. split; [now apply Z.ltb_ge | now apply Qle_bool_gt]. }
  fold fptcf. rewrite G.
  set (s1 := trace _ (seed_encoder env s tc)).
  destruct (byte_for_offset_spec env s1 soff)
    as (Hoff & Hbyte & _ & Henc & Hsp & Hpos & _).
  destruct (byte_for_offset env s1 soff) as [s2 off2]. cbn [fst snd] in *.
  change (ltc_speed s1) with (ltc_speed s) in *.
  fold fptcf in Hoff, Hbyte, Henc. fold b in Hbyte, Henc. fold cyc_off in Hoff.
  fold wraps in Hbyte, Henc. subst off2.
  set (s3 := mark_restarting _).
  destruct (mark_restarting_fields
              (trace (EvRestart soff (ltc_enc_byte s2) cyc_off) s2))
    as (M1 & M2 & M3 & M4 & _).
  fold s3 in M1, M2, M3, M4. cbn in M1, M2, M3, M4.
  exists s3. split; [|split; [|split]].
  - destruct ((0 <=? cyc_off) && (cyc_off <=? int32_t n)); [|reflexivity].
    rewrite M4, Hsp. reflexivity.
  - congruence.
  - rewrite M2, Henc. unfold s1. rewrite trace_encoder. reflexivity.
  - rewrite M3, Hpos. unfold s1. rewrite trace_enc_pos.
    apply seed_encoder_pos.
Qed.

Lemma realign_out_of_range env s n c tc tcs soff out :
  soff < 0 \/ (samples_per_timecode_frame env <= inject_Z soff)%Q ->
  exists s',
    realign env s n c tc tcs soff out = Leave s'
    /\ ltc_enc_byte s' = 0 /\ ltc_enc_pos s' = -9999
    /\ ltc_buf_len s' = 0 /\ ltc_buf_off s' = 0.
Proof.
  intro H. unfold realign.
  assert (G : (soff <? 0)
              || Qle_bool (samples_per_timecode_frame env) (inject_Z soff)
              = true).
  { apply orb_true_iff. destruct H as [H|H];
      [left; now apply Z.ltb_lt | right; now apply Qle_bool_iff]. }
  rewrite G. eexists. split; [reflexivity|]. repeat split.
Qed.

Lemma realign_next_restart_at env s n c tc tcs soff out s' out' txf :
  realign env s n c tc tcs soff out = Next (s', out', txf) ->
  existsb is_EvRestartAt (dbg s') = true.
Proof.
  unfold realign. intro H.
  destruct (_ || _); [discriminate|].
  destruct (byte_for_offset env _ soff) as [s2 off2].
  destruct (_ && _); [|discriminate].
  inversion H; subst. reflexivity.
Qed.


(** A cycle with a hard resync that does not get to "restart @" (it was
    deferred or given up) writes no sample. *)
Lemma cycle_deferred_silent env s st en n r :
  dbg s = [] ->
  ltc_output_port env = true ->
  send_ltc_for_cycle env (Some s) st en n = Some r ->
  existsb is_EvRealign (r_trace r) = true ->
  existsb is_EvRestartAt (r_trace r) = false ->
  r_out r = silence n /\ existsb is_EvSample (r_trace r) = false.
Proof.
  intros Hd Hp H Hre Hat.
  apply cycle_anatomy in H; [|assumption].
  assert (Htr : forall l, grown tracker_event [] l ->
                  existsb is_EvRealign l = false)
    by (intros l G; apply (existsb_false_of_grown tracker_event); [|exact G];
        intros []; cbn; congruence).
  destruct H as [G|l G H1|s1 G H1 F|s1 s2 G H1 F H2|s1 t s3 G H1 F H2 H3
                |s1 t s3 out3 txf3 s4 out4 G H1 F H2 H3 H4];
    unfold leave, gone in *; cbn [r_trace r_out] in *;
    rewrite existsb_rev_eq in Hre; rewrite existsb_rev_eq in Hat.
  - rewrite Hd in Hre. discriminate.
  - exfalso. pose proof (check_fps_grown env s) as Gr. rewrite H1, Hd in Gr.
    cbn [step_dbg] in Gr.
    assert (Hno : existsb is_EvRealign l = false).
    { eapply existsb_false_of_grown; [|exact Gr]. intros []; cbn; congruence. }
    congruence.
  - apply check_fps_next in H1. rewrite Hd in H1.
    rewrite (Htr _ H1) in Hre. discriminate.
  - apply check_fps_next in H1. rewrite Hd in H1.
    apply speed_and_direction_grown in H2. cbn [step_dbg] in H2.
    rewrite (Htr _ (grown_trans _ _ _ _ H1 H2)) in Hre. discriminate.
  - split; [reflexivity|]. rewrite existsb_rev_eq.
    pose proof (tracked_dbg env s s1 st en n t Hd H1 H2) as G0.
    pose proof (align_grown env t n (silence n)) as Ga. rewrite H3 in Ga.
    cbn [step_dbg] in Ga.
    assert (Hal : forall e, align_event e = true -> is_EvSample e = false)
      by (intros []; cbn; congruence).
    rewrite (grown_existsb align_event is_EvSample _ _ Hal Ga).
    apply (existsb_false_of_grown tracker_event); [|exact G0].
    intros []; cbn; congruence.
  - exfalso.
    pose proof (tracked_dbg env s s1 st en n t Hd H1 H2) as G0.
    apply encode_and_output_grown in H4.
    assert (Hout : forall e, output_event e = true -> is_EvRealign e = false)
      by (intros []; cbn; congruence).
    rewrite (grown_existsb output_event is_EvRealign _ _ Hout H4) in Hre.
    unfold align in H3.
    destruct (needs_realign _ _ _ _).
    + apply realign_next_restart_at in H3.
      rewrite (grown_existsb_mono _ is_EvRestartAt _ _ H4 H3) in Hat.
      discriminate.
    + destruct (soft_condition _ _); inversion H3; subst; cbn in Hre;
        rewrite (Htr _ G0) in Hre; discriminate.
Qed.

(** The 32-bit conversion leaves a block length below 2^31 as it is. *)
Lemma int32_t_small n : 0 <= n < 2147483648 -> int32_t n = n.
Proof.
  intro H. unfold int32_t. rewrite Z.mod_small; lia.
Qed.

(** C4 (amended): when the alignment check of a cycle asks for the hard
    resync (for a block of less than 2^31 samples), [ltc_tx_reset] is
    performed and the encoder is seeded with the timecode that
    [sample_to_timecode] gives for [cycle_start_sample], the aligned start
    (hours modulo 24); the drop-frame bit of the seeded frame is then forced
    to that of the active format.  [soff] is the distance of the aligned start
    from the sample of that timecode, 0 at speed 0.  When
    [0 <= soff < frameSamples], the byte index is
    [floor (10 soff / frameSamples)] for reverse speed and
    [ceil (10 soff / frameSamples)] for the others, index 10 becoming 0 with a
    timecode increment, and the offset [cyc_off] to that byte is computed: if
    it lies in [0, n_samples], the first [cyc_off] samples are zeroed, the
    output starts at [rint (cyc_off / |speed|)] and the position is set;
    otherwise the cycle leaves with the sentinel.  When [soff] is outside that
    range the session is reset once more and the cycle leaves, without byte
    index or offset.  The hard resync of a cycle is the one of the session
    that the tracker hands over, at the aligned start of the block; when it
    leaves, that session is the one the cycle returns, and a cycle whose
    resync does not get to "restart @" writes no sample. *)
Theorem C4_hard_resync env t n out :
  let s := t_session t in
  let c := t_cycle_start t in
  let tc := sample_to_timecode env c (ltc_timecode_negative_offset s)
              (ltc_timecode_offset s) in
  let tcs := timecode_to_sample env tc (ltc_timecode_negative_offset s)
               (ltc_timecode_offset s) in
  let soff := if Qeq_bool (t_speed t) 0 then 0 else c - tcs in
  let fptcf := samples_per_timecode_frame env in
  let b := resync_byte fptcf (ltc_speed s) soff in
  let cyc_off := resync_offset fptcf (ltc_speed s) soff in
  let wraps := negb (Qltb (ltc_speed s) 0) && (b =? 10) in
  let e0 := ltc_encoder_set_timecode (ltc_encoder_reset (ltc_encoder s))
              (mkSMPTE (Z.rem (hours tc) 24) (minutes tc) (seconds tc)
                 (frames tc)) in
  let seeded := ltc_encoder_set_frame e0
                  (mkFrame (timecode_has_drop_frames (timecode_format env))
                     (frame_bits (ltc_encoder_get_frame e0))) in
  needs_realign env s c (t_poff t) = true ->
  0 <= n < 2147483648 ->
  grown restart_event
    (EvRealign c tcs soff :: EvReset :: EvAlign c tcs soff :: dbg s)
    (step_dbg (fun x => fst (fst x)) (align env t n out))
  /\ (0 <= soff -> (inject_Z soff < fptcf)%Q ->
      exists s',
        ltc_enc_byte s' = (if wraps then 0 else b)
        /\ ltc_encoder s'
           = (if wraps then ltc_encoder_inc_timecode seeded else seeded)
        /\ ltc_enc_pos s' = -9999
        /\ (0 <= cyc_off <= n ->
            exists txf,
              align env t n out
              = Next (trace (EvRestartAt (Z.rem tcs (wrap24h env)))
                        (set_enc_pos (Z.rem tcs (wrap24h env)) s'),
                      zero_prefix out (Z.to_nat cyc_off), txf)
              /\ (~ (ltc_speed s == 0)%Q ->
                  txf = rint (inject_Z cyc_off / fabs (ltc_speed s))))
        /\ (cyc_off < 0 \/ n < cyc_off -> align env t n out = Leave s'))
  /\ (soff < 0 \/ (fptcf <= inject_Z soff)%Q ->
      exists s',
        align env t n out = Leave s'
        /\ ltc_encoder s' = ltc_encoder_reset seeded
        /\ ltc_enc_byte s' = 0 /\ ltc_enc_pos s' = -9999
        /\ ltc_buf_len s' = 0 /\ ltc_buf_off s' = 0)
  /\ (forall s0 st en r,
        dbg s0 = [] -> ltc_output_port env = true ->
        send_ltc_for_cycle env (Some s0) st en n = Some r ->
        existsb is_EvRealign (r_trace r) = true ->
        (exists s1 t',
           check_fps env s0 = Next s1
           /\ speed_and_direction env s1 st en n = Some (Next t')
           /\ needs_realign env (t_session t') (t_cycle_start t') (t_poff t')
              = true
           /\ t_cycle_start t' = cycle_start env s0 st (raw_speed st en n)
           /\ ltc_speed (t_session t') = t_speed t'
           /\ (forall s',
                 align env t' n (silence n) = Leave s' ->
                 r = leave s' (silence n)))
        /\ (existsb is_EvRestartAt (r_trace r) = false ->
            r_out r = silence n /\ existsb is_EvSample (r_trace r) = false)).
Proof.
  intros s c tc tcs soff fptcf b cyc_off wraps e0 seeded Hre Hn.
  assert (Ha : align env t n out
               = realign env (trace (EvAlign c tcs soff) s) n c tc tcs soff out).
  { unfold align. fold s. fold c.
    change (needs_realign env (trace _ s) c (t_poff t))
      with (needs_realign env s c (t_poff t)).
    rewrite Hre. reflexivity. }
  rewrite Ha. set (sa := trace (EvAlign c tcs soff) s).
  assert (Hseed : ltc_encoder (seed_encoder env sa tc) = seeded)
    by reflexivity.
  split; [apply (realign_shape env sa)|]. split; [|split].
  - intros H0 Hlt.
    destruct (realign_in_range env sa n c tc tcs soff out H0 Hlt)
      as (s' & Hr & Hb & He & Hpos).
    change (ltc_speed sa) with (ltc_speed s) in Hr, Hb, He.
    fold fptcf in Hr, Hb, He. fold b in Hr, Hb, He. fold cyc_off in Hr.
    fold wraps in Hb, He. rewrite Hseed in He.
    rewrite (int32_t_small n Hn) in Hr.
    exists s'. repeat split; try assumption.
    + intros [C1 C2]. eexists. split; [|intros _; reflexivity].
      rewrite Hr.
      apply Z.leb_le in C1. apply Z.leb_le in C2. rewrite C1, C2.
      reflexivity.
    + intro C. rewrite Hr.
      replace ((0 <=? cyc_off) && (cyc_off <=? n)) with false; [reflexivity|].
      symmetry. apply andb_false_iff.
      destruct C as [C|C]; [left | right]; apply Z.leb_gt; exact C.
  - intro H.
    unfold realign.
    assert (G : (soff <? 0) || Qle_bool fptcf (inject_Z soff) = true).
    { apply orb_true_iff. destruct H as [H|H];
        [left; now apply Z.ltb_lt | right; now apply Qle_bool_iff]. }
    fold fptcf. rewrite G. eexists. split; [reflexivity|]. repeat split.
  - intros s0 st en r Hd Hp H Hex. split.
    + assert (Hf : forall e, is_EvRealign e = true ->
                tracker_event e = false /\ output_event e = false
                /\ is_EvError e = false /\ e <> EvCleanup).
      { intros [] He; try discriminate. repeat split; discriminate. }
      destruct (proj1 (cycle_align_events env s0 st en n r is_EvRealign
                         Hf Hd Hp H) Hex)
        as (s1 & t' & G & H1 & F & H2 & Hx).
      exists s1, t'. split; [exact H1|]. split; [exact H2|].
      apply align_realign_iff in Hx;
        [|now apply (tracked_dbg env s0 s1 st en n)].
      split; [exact Hx|].
      pose proof (speed_and_direction_next env s1 st en n t' H2)
        as (Hc & _ & Hs & _).
      destruct (check_fps_setup env s0 s1 H1) as (Hl & _).
      split; [rewrite Hc; now apply cycle_start_latency|].
      split; [exact Hs|].
      intros s' Hal. unfold send_ltc_for_cycle in H.
      rewrite Hp, G, H1, F, H2, Hal in H. cbn [negb] in H.
      now inversion H.
    + now apply (cycle_deferred_silent env s0 st en n r).
Qed.


(** ** Encoder failures and the untouched part of the port buffer *)

Lemma send_remaining_untouched fuel : forall env s n out txf s1 out1 txf1,
  send_remaining fuel env s n out txf = Some (s1, out1, txf1) ->
  forall i, 0 <= i -> ~ In (EvSample i) (dbg s1) ->
  nth (Z.to_nat i) out1 0%Q = nth (Z.to_nat i) out 0%Q.
Proof.
  induction fuel as [|fuel IH]; intros env s n out txf s1 out1 txf1 H i Hi Hn;
    cbn [send_remaining] in H.
  - destruct (_ && _); [discriminate|]. now inversion H.
  - destruct (_ && _); [|now inversion H].
    pose proof (send_remaining_grown _ _ _ _ _ _ _ _ _ H) as G.
    rewrite (IH _ _ _ _ _ _ _ _ H i Hi Hn).
    apply store_other; [exact Hi|]. intros ->. apply Hn.
    apply (grown_In_old _ _ _ _ G). now left.
Qed.

Lemma encode_and_output_untouched fuel : forall env s n out txf s' out',
  encode_and_output fuel env s n out txf = Some (s', out') ->
  forall i, 0 <= i -> ~ In (EvSample i) (dbg s') ->
  nth (Z.to_nat i) out' 0%Q = nth (Z.to_nat i) out 0%Q.
Proof.
  induction fuel as [|fuel IH]; intros env s n out txf s' out' H i Hi Hn;
    cbn [encode_and_output] in H; [discriminate|].
  destruct (send_remaining _ env s n out txf) as [[[s1 out1] txf1]|] eqn:Hs;
    [|discriminate].
  assert (Hkeep : forall s2, grown output_event (dbg s1) (dbg s2) ->
            ~ In (EvSample i) (dbg s2) ->
            nth (Z.to_nat i) out1 0%Q = nth (Z.to_nat i) out 0%Q).
  { intros s2 G Hn2.
    apply (send_remaining_untouched _ _ _ _ _ _ _ _ _ Hs i Hi).
    intro Hin. apply Hn2. exact (grown_In_old _ _ _ _ G Hin). }
  destruct (n <=? txf1).
  - inversion H; subst. apply (Hkeep (trace EvDone s1)); [grow | exact Hn].
  - set (s2 := step_back env _) in H.
    assert (G2 : dbg s2 = dbg s1) by (subst s2; now rewrite step_back_dbg).
    pose proof (encode_next_grown env s2) as Hnx.
    destruct (encode_next env s2) as [[s3 k]|s3].
    + destruct (k <=? 0).
      * inversion H; subst. eapply Hkeep; [|exact Hn].
        cbn. rewrite Hnx, G2. grow.
      * pose proof (encode_and_output_grown _ _ _ _ _ _ _ _ H) as G.
        rewrite step_forward_dbg, Hnx, G2 in G.
        rewrite (IH _ _ _ _ _ _ _ H i Hi Hn).
        exact (Hkeep s' G Hn).
    + inversion H; subst. rewrite G2 in Hnx. exact (Hkeep s' Hnx Hn).
Qed.

Lemma silence_nth n i : nth i (silence n) 0%Q = 0%Q.
Proof.
  unfold silence. generalize (Z.to_nat n). intro k. revert i.
  induction k as [|k IH]; intros [|i]; cbn; auto.
Qed.

Lemma zero_prefix_nth out : forall k i,
  (forall j, nth j out 0%Q = 0%Q) -> nth i (zero_prefix out k) 0%Q = 0%Q.
Proof.
  induction out as [|h t IH]; intros [|k] [|i] H; cbn; try reflexivity;
    try apply (H 0%nat); try apply (H (S i)).
  apply IH. intro j. apply (H (S j)).
Qed.

Lemma align_out_silent env t n s3 out3 txf3 i :
  align env t n (silence n) = Next (s3, out3, txf3) ->
  nth i out3 0%Q = 0%Q.
Proof.
  unfold align, realign. intro H.
  repeat break_in H; inversion H; subst;
    first [apply silence_nth | apply zero_prefix_nth; intro; apply silence_nth].
Qed.

(** Every sample of the port buffer that the cycle did not write is
    silence. *)
Lemma cycle_unwritten_silent env s st en n r i :
  dbg s = [] ->
  send_ltc_for_cycle env (Some s) st en n = Some r ->
  0 <= i -> ~ In (EvSample i) (r_trace r) ->
  nth (Z.to_nat i) (r_out r) 0%Q = 0%Q.
Proof.
  intros Hd H Hi Hn.
  destruct (ltc_output_port env) eqn:Hp.
  - apply cycle_anatomy in H; [|assumption].
    destruct H as [G|l G H1|s1 G H1 F|s1 s2 G H1 F H2|s1 t s3 G H1 F H2 H3
                  |s1 t s3 out3 txf3 s4 out4 G H1 F H2 H3 H4];
      try (cbn; apply silence_nth).
    cbn [r_out leave]. 
    rewrite (encode_and_output_untouched _ _ _ _ _ _ _ _ H4 i Hi).
    + exact (align_out_silent env t n s3 out3 txf3 _ H3).
    + intro Hin. apply Hn. apply In_leave_trace. exact Hin.
  - unfold send_ltc_for_cycle in H. rewrite Hp in H. cbn in H.
    inversion H; subst. cbn. now destruct (Z.to_nat i).
Qed.

Lemma send_remaining_samples fuel : forall env s n out txf s1 out1 txf1,
  send_remaining fuel env s n out txf = Some (s1, out1, txf1) ->
  grown is_EvSample (dbg s) (dbg s1).
Proof.
  induction fuel as [|fuel IH]; intros env s n out txf s1 out1 txf1 Hs;
    cbn [send_remaining] in Hs.
  - destruct (_ && _); [discriminate|]. inversion Hs; subst. apply grown_same.
  - destruct (_ && _).
    + apply IH in Hs. eapply grown_trans; [|exact Hs]. grow.
    + inversion Hs; subst. apply grown_same.
Qed.

(** How the loop of step (6) ends: with "7 enc:" after the last sample, or
    with a failure of the encoder followed by [ltc_tx_reset]. *)
Lemma encode_and_output_end fuel : forall env s n out txf s' out',
  encode_and_output fuel env s n out txf = Some (s', out') ->
  (exists l, dbg s' = EvDone :: l /\ grown is_EvSample (dbg s) l)
  \/ (exists f l,
        dbg s' = EvReset :: f :: l /\ is_enc_failure f = true
        /\ grown is_EvSample (dbg s) l
        /\ ltc_enc_pos s' = -9999 /\ ltc_buf_len s' = 0 /\ ltc_buf_off s' = 0).
Proof.
  induction fuel as [|fuel IH]; intros env s n out txf s' out' H;
    cbn [encode_and_output] in H; [discriminate|].
  destruct (send_remaining _ env s n out txf) as [[[s1 out1] txf1]|] eqn:Hs;
    [|discriminate].
  pose proof (send_remaining_samples _ _ _ _ _ _ _ _ _ Hs) as G1.
  destruct (n <=? txf1).
  - inversion H; subst. left. exists (dbg s1). split; [reflexivity | exact G1].
  - set (s2 := step_back env _) in H.
    assert (G2 : dbg s2 = dbg s1) by (subst s2; now rewrite step_back_dbg).
    unfold encode_next in H.
    destruct (restarting s2).
    + destruct (trunc _ <=? 0).
      * inversion H; subst. right. exists EvEncEmpty, (dbg s1).
        cbn. rewrite G2. repeat split. exact G1.
      * apply IH in H. rewrite step_forward_dbg in H. cbn in H.
        rewrite G2 in H.
        destruct H as [(l & Hl & G)|(f & l & Hl & Hf & G & Hr)].
        -- left. exists l. split; [exact Hl | eauto using grown_trans].
        -- right. exists f, l. repeat split; try apply Hr; try assumption.
           eauto using grown_trans.
    + destruct (ltc_encoder_encode_byte _ _ _) as [err e].
      destruct err.
      * inversion H; subst. right. exists (EvEncError (ltc_enc_byte s2)), (dbg s1).
        cbn. rewrite G2. repeat split. exact G1.
      * cbn in H. destruct (ltc_encoder_get_buffer e) as [samples e'].
        destruct (Z.of_nat (length samples) <=? 0).
        -- inversion H; subst. right. exists EvEncEmpty, (dbg s1).
           cbn. rewrite G2. repeat split. exact G1.
        -- apply IH in H. rewrite step_forward_dbg in H. cbn in H.
           rewrite G2 in H.
           destruct H as [(l & Hl & G)|(f & l & Hl & Hf & G & Hr)].
           ++ left. exists l. split; [exact Hl | eauto using grown_trans].
           ++ right. exists f, l. repeat split; try apply Hr; try assumption.
              eauto using grown_trans.
Qed.


Lemma check_fps_pos env s s1 :
  check_fps env s = Next s1 ->
  ltc_enc_pos s1 = ltc_enc_pos s \/ ltc_enc_pos s1 = -9999.
Proof.
  unfold check_fps. intro H.
  repeat break_in H; inversion H; subst; auto.
Qed.

(** A session that holds the sentinel performs the hard resync in the next
    cycle that reaches the alignment check. *)
Lemma sentinel_forces_realign env s st en n r :
  dbg s = [] ->
  ltc_output_port env = true ->
  ltc_enc_pos s < 0 ->
  send_ltc_for_cycle env (Some s) st en n = Some r ->
  existsb is_EvAlign (r_trace r) = true ->
  existsb is_EvRealign (r_trace r) = true.
Proof.
  intros Hd Hp Hneg H Ha.
  assert (Hfa : forall e, is_EvAlign e = true ->
            tracker_event e = false /\ output_event e = false
            /\ is_EvError e = false /\ e <> EvCleanup).
  { intros [] He; try discriminate. repeat split; discriminate. }
  assert (Hfr : forall e, is_EvRealign e = true ->
            tracker_event e = false /\ output_event e = false
            /\ is_EvError e = false /\ e <> EvCleanup).
  { intros [] He; try discriminate. repeat split; discriminate. }
  apply (cycle_align_events env s st en n r is_EvAlign Hfa Hd Hp H) in Ha.
  destruct Ha as (s1 & t & G & H1 & F & H2 & _).
  apply (cycle_align_events env s st en n r is_EvRealign Hfr Hd Hp H).
  exists s1, t. repeat split; try assumption.
  apply align_realign_iff; [now apply (tracked_dbg env s s1 st en n)|].
  pose proof (check_fps_pos env s s1 H1) as P1.
  apply speed_and_direction_next in H2.
  destruct H2 as (_ & _ & _ & _ & _ & _ & _ & _ & P2 & _).
  unfold needs_realign.
  assert (Hlt : ltc_enc_pos (t_session t) < 0) by lia.
  apply Z.ltb_lt in Hlt. now rewrite Hlt.
Qed.

(** C6 (amended): a cycle in which the encoder reports an error or returns
    no sample ends with [ltc_tx_reset] right after the failure: the session
    holds the sentinel and an empty queue, so the next cycle that reaches the
    alignment check performs a hard resync.  The samples of the port buffer
    that the cycle had not written before the failure are silence; those
    written before stay. *)
Theorem C6_encoder_failure env s st en n r :
  dbg s = [] ->
  ltc_output_port env = true ->
  send_ltc_for_cycle env (Some s) st en n = Some r ->
  existsb is_enc_failure (r_trace r) = true ->
  (exists before f,
      r_trace r = before ++ [f; EvReset] /\ is_enc_failure f = true)
  /\ (exists s',
        r_session r = Some s' /\ dbg s' = [] /\ ltc_enc_pos s' = -9999
        /\ ltc_buf_len s' = 0 /\ ltc_buf_off s' = 0)
  /\ (forall i, 0 <= i -> ~ In (EvSample i) (r_trace r) ->
        nth (Z.to_nat i) (r_out r) 0%Q = 0%Q)
  /\ (forall env' st' en' n' r',
        ltc_output_port env' = true ->
        send_ltc_for_cycle env' (r_session r) st' en' n' = Some r' ->
        existsb is_EvAlign (r_trace r') = true ->
        existsb is_EvRealign (r_trace r') = true).
Proof.
  intros Hd Hp H Hf.
  assert (Hsil : forall i, 0 <= i -> ~ In (EvSample i) (r_trace r) ->
                   nth (Z.to_nat i) (r_out r) 0%Q = 0%Q).
  { intros i Hi Hn. exact (cycle_unwritten_silent env s st en n r i Hd H Hi Hn). }
  assert (Htr : forall l, grown tracker_event [] l ->
                  existsb is_enc_failure l = false).
  { intros l G. apply (existsb_false_of_grown tracker_event); [|exact G].
    intros []; cbn; congruence. }
  assert (Hal : forall e, align_event e = true -> is_enc_failure e = false)
    by (intros []; cbn; congruence).
  apply cycle_anatomy in H; [|assumption].
  destruct H as [G|l G H1|s1 G H1 F|s1 s2 G H1 F H2|s1 t s3 G H1 F H2 H3
                |s1 t s3 out3 txf3 s4 out4 G H1 F H2 H3 H4];
    unfold leave, gone in *; cbn [r_trace r_out r_session] in *;
    rewrite existsb_rev_eq in Hf.
  - rewrite Hd in Hf. discriminate.
  - exfalso. pose proof (check_fps_grown env s) as Gr. rewrite H1, Hd in Gr.
    cbn [step_dbg] in Gr.
    assert (Hno : existsb is_enc_failure l = false).
    { eapply existsb_false_of_grown; [|exact Gr]. intros []; cbn; congruence. }
    congruence.
  - apply check_fps_next in H1. rewrite Hd in H1.
    rewrite (Htr _ H1) in Hf. discriminate.
  - apply check_fps_next in H1. rewrite Hd in H1.
    apply speed_and_direction_grown in H2. cbn [step_dbg] in H2.
    rewrite (Htr _ (grown_trans _ _ _ _ H1 H2)) in Hf. discriminate.
  - exfalso.
    pose proof (tracked_dbg env s s1 st en n t Hd H1 H2) as G0.
    pose proof (align_grown env t n (silence n)) as Ga. rewrite H3 in Ga.
    cbn [step_dbg] in Ga.
    rewrite (grown_existsb align_event is_enc_failure _ _ Hal Ga) in Hf.
    rewrite (Htr _ G0) in Hf. discriminate.
  - pose proof (tracked_dbg env s s1 st en n t Hd H1 H2) as G0.
    pose proof (align_grown env t n (silence n)) as Ga. rewrite H3 in Ga.
    cbn [step_dbg fst] in Ga.
    assert (H3no : existsb is_enc_failure (dbg s3) = false).
    { rewrite (grown_existsb align_event is_enc_failure _ _ Hal Ga).
      exact (Htr _ G0). }
    assert (Hsm : forall e, is_EvSample e = true -> is_enc_failure e = false)
      by (intros []; cbn; congruence).
    apply encode_and_output_end in H4.
    destruct H4 as [(l & Hl & Gs)|(f & l & Hl & Hff & Gs & Hpos & Hlen & Hoff)].
    + exfalso. rewrite Hl in Hf. cbn in Hf.
      rewrite (grown_existsb is_EvSample is_enc_failure _ _ Hsm Gs) in Hf.
      congruence.
    + split; [|split; [|split]].
      * exists (rev l), f. split; [|exact Hff].
        rewrite Hl. cbn. rewrite <- app_assoc. reflexivity.
      * exists (set_dbg [] s4). repeat split; assumption.
      * exact Hsil.
      * intros env' st' en' n' r' Hp' H' Ha.
        apply (sentinel_forces_realign env' (set_dbg [] s4) st' en' n' r');
          try assumption; try reflexivity.
        cbn. rewrite Hpos. lia.
Qed.


(** ** A format that the encoder refuses *)

Lemma run_released (cs : list Cycle) :
  exists rs,
    run (E := E) None cs = Some (rs, None)
    /\ Forall2 (fun c r =>
                  r_trace r = [] /\ r_session r = None
                  /\ r_out r = (if ltc_output_port (c_env c)
                                then silence (c_n c) else []))
         cs rs.
Proof.
  induction cs as [|c cs (rs & Hrun & Hall)]; cbn [run].
  - exists []. split; [reflexivity | constructor].
  - unfold send_ltc_for_cycle.
    destruct (ltc_output_port (c_env c)) eqn:Hp; cbn [negb r_session];
      rewrite Hrun; eexists; (split; [reflexivity|]);
      constructor; try assumption; cbn; rewrite Hp; repeat split.
Qed.

(** C5 (amended): when the active timecode format has changed and
    [ltc_encoder_reinit] fails, the cycle notifies the caller once
    ([PBD::error]), releases encoder and buffer and leaves silence; from then
    on generation is off for the rest of the session: every later cycle,
    whatever format is configured, is silent and notifies nobody. *)
Theorem C5_format_error env s st en n :
  dbg s = [] ->
  ltc_output_port env = true ->
  generation_off env = false ->
  TimecodeFormat_eqb (timecode_format env) (ltc_enc_tcformat s) = false ->
  ltc_encoder_reinit (ltc_encoder s) (nominal_sample_rate env)
    (timecode_to_frames_per_second (timecode_format env))
    (TV_STANDARD (timecode_format env)) = None ->
  exists r,
    send_ltc_for_cycle env (Some s) st en n = Some r
    /\ r_trace r = [EvReinit; EvError; EvCleanup]
    /\ r_session r = None
    /\ r_out r = silence n
    /\ forall cs, exists rs,
         run (r_session r) cs = Some (rs, None)
         /\ Forall2 (fun c r' =>
                       r_trace r' = [] /\ r_session r' = None
                       /\ r_out r' = (if ltc_output_port (c_env c)
                                      then silence (c_n c) else []))
              cs rs.
Proof.
  intros Hd Hp G Hne Hre.
  unfold send_ltc_for_cycle, check_fps.
  rewrite Hp, G, Hne. cbn [negb].
  rewrite trace_encoder, Hre.
  eexists. split; [reflexivity|]. cbn. rewrite Hd.
  repeat split. intro cs. apply run_released.
Qed.


(** ** Constant speed 3/2 in cycles of 128 samples *)

(** Each cycle covers 192 timeline samples, one byte of the frame at 48 kHz
    and 25 fps, and starts one sample after a byte boundary: the next
    boundary is 191 timeline samples away, and step (5) compares that
    distance with the 128 samples of the port buffer. *)

Lemma Qceiling_between (x : Q) (z : Z) :
  (inject_Z z < x)%Q -> (x <= inject_Z z + 1)%Q -> Qceiling x = z + 1.
Proof.
  intros H1 H2.
  pose proof (Qle_ceiling x) as U. pose proof (Qceiling_lt x) as L.
  assert (A : (inject_Z z < inject_Z (Qceiling x))%Q)
    by (eapply Qlt_le_trans; eassumption).
  assert (B : (inject_Z (Qceiling x - 1) < inject_Z (z + 1))%Q).
  { rewrite inject_Z_plus. change (inject_Z 1) with 1%Q.
    eapply Qlt_le_trans; eassumption. }
  rewrite <- Zlt_Qlt in A. rewrite <- Zlt_Qlt in B. lia.
Qed.

Lemma frame_roundtrip25 (p : Z) (a a' : bool) (b b' : Z) :
  TestEnv.timecode_to_sample25 (TestEnv.sample_to_timecode25 p a b) a' b'
  = 1920 * (p / 1920).
Proof.
  unfold TestEnv.timecode_to_sample25, TestEnv.sample_to_timecode25.
  cbn [hours minutes seconds frames].
  generalize (p / 1920). intro fr.
  assert (H1 : fr / 1500 = fr / 25 / 60)
    by (rewrite Z.div_div; [reflexivity | lia | lia]).
  assert (H2 : fr / 90000 = fr / 1500 / 60)
    by (rewrite Z.div_div; [reflexivity | lia | lia]).
  rewrite !Z.mod_eq by lia. rewrite H2, H1. lia.
Qed.

Lemma resync_offset_byte_start (v : Q) (soff j : Z) :
  Qltb v 0 = false -> soff = 192 * j + 1 ->
  resync_offset 1920 v soff = 191.
Proof.
  intros Hv ->. unfold resync_offset, resync_byte. rewrite Hv.
  assert (Hx : (10 * inject_Z (192 * j + 1) / 1920
                == inject_Z j + (1 # 192))%Q).
  { rewrite inject_Z_plus, inject_Z_mult.
    change (inject_Z 192) with 192%Q; change (inject_Z 1) with 1%Q. field. }
  assert (Hb : Qceiling (10 * inject_Z (192 * j + 1) / 1920) = j + 1).
  { rewrite Hx. apply Qceiling_between.
    - rewrite <- (Qplus_0_r (inject_Z j)) at 1.
      apply Qplus_lt_r. reflexivity.
    - apply Qplus_le_r. discriminate. }
  rewrite Hb.
  assert (Hc : (inject_Z (j + 1) * 1920 / 10 == inject_Z (192 * (j + 1)))%Q).
  { rewrite inject_Z_mult, inject_Z_plus.
    change (inject_Z 192) with 192%Q; change (inject_Z 1) with 1%Q. field. }
  rewrite Hc, Qceiling_Z. lia.
Qed.

Lemma byte_for_offset_setup env (s : Session E) soff :
  ltc_out_latency_max (fst (byte_for_offset env s soff)) = ltc_out_latency_max s
  /\ ltc_enc_tcformat (fst (byte_for_offset env s soff)) = ltc_enc_tcformat s.
Proof. unfold byte_for_offset. repeat break_goal; split; reflexivity. Qed.

Lemma realign_setup env (s : Session E) n c tc tcs soff out s' :
  realign env s n c tc tcs soff out = Leave s' ->
  ltc_out_latency_max s' = ltc_out_latency_max s
  /\ ltc_enc_tcformat s' = ltc_enc_tcformat s.
Proof.
  unfold realign. intro H.
  destruct (_ || _).
  - inversion H; subst. split; reflexivity.
  - set (s1 := trace _ (seed_encoder env s tc)) in *.
    destruct (byte_for_offset_setup env s1 soff) as [B1 B2].
    destruct (byte_for_offset env s1 soff) as [s2 cyc_off]. cbn [fst] in *.
    destruct (_ && _); [discriminate|].
    inversion H; subst. unfold mark_restarting.
    break_goal; cbn; rewrite ?B1, ?B2; split; reflexivity.
Qed.

Lemma speed_and_direction_rolls env (s : Session E) st en n :
  (en =? st) || Qltb (fabs (rescale_speed env (raw_speed st en n))) (1 # 10)
  = false ->
  Qltb 10 (fabs (rescale_speed env (raw_speed st en n))) = false ->
  exists t, speed_and_direction env s st en n = Some (Next t).
Proof.
  intros Hc Hb.
  destruct (speed_and_direction_total env s st en n) as [x Hx].
  destruct x as [s2|l|t].
  - exfalso. revert Hx. unfold speed_and_direction, settle_speed.
    set (v := rescale_speed env (raw_speed st en n)) in *.
    destruct (speed_change_check env (direction_check s v) v) as [s2' ch].
    unfold not_rolling_check. rewrite Hc. rewrite Hb.
    destruct (if ch && Qneqb v 0 then _ else _) as [[s0 p0]|]; discriminate.
  - now apply speed_and_direction_not_dead in Hx.
  - now exists t.
Qed.

Lemma speed_three_halves (st en : Z) :
  en = st + 192 ->
  rescale_speed (TestEnv.env25 true) (raw_speed st en 128)
  = (inject_Z 192 / inject_Z 128)%Q.
Proof.
  intros ->. unfold raw_speed. replace (st + 192 - st) with 192 by lia.
  reflexivity.
Qed.

Lemma deferred_cycle (s : Session E) (i st en : Z) r :
  0 <= i -> st = 4 + 192 * i -> en = st + 192 ->
  waiting s ->
  send_ltc_for_cycle (TestEnv.env25 true) (Some s) st en 128 = Some r ->
  deferred 128 r.
Proof.
  intros Hi Hst Hen (Hpos & Hfmt & Hlat) H.
  set (env := TestEnv.env25 true) in *.
  pose proof (speed_three_halves st en Hen) as Hv. fold env in Hv.
  assert (Hc : (en =? st)
               || Qltb (fabs (rescale_speed env (raw_speed st en 128))) (1 # 10)
               = false).
  { rewrite Hv. apply orb_false_iff.
    split; [apply Z.eqb_neq; lia | reflexivity]. }
  assert (Hb : Qltb 10 (fabs (rescale_speed env (raw_speed st en 128))) = false)
    by (rewrite Hv; reflexivity).
  apply cycle_anatomy in H; [|reflexivity].
  assert (Hfps : check_fps env s = Next s)
    by (apply check_fps_same; exact Hfmt).
  assert (Hal : forall t, speed_and_direction env s st en 128 = Some (Next t) ->
            exists s3, align env t 128 (silence 128) = Leave s3
                       /\ waiting s3).
  { intros t H2. apply speed_and_direction_next in H2.
    destruct H2 as (Tc & Tv & Ts & _ & (L1 & L2 & _) & _ & _ & _ & Tp & _).
    assert (Hs : ltc_speed (t_session t) = (inject_Z 192 / inject_Z 128)%Q).
    { rewrite Ts, Tv. unfold effective_speed. cbv zeta. now rewrite Hc. }
    assert (Hcs : t_cycle_start t = 1 + 192 * i).
    { rewrite Tc. unfold cycle_start, raw_speed.
      replace (en - st) with 192 by lia. rewrite Hlat.
      change (Qltb (inject_Z 192 / inject_Z 128) 0) with false.
      change (Qltb 0 (inject_Z 192 / inject_Z 128)) with true.
      change (Qneqb (inject_Z 192 / inject_Z 128) 0) with true.
      change (ltc_frame_alignment env (samples_per_timecode_frame env)
                (TV_STANDARD (timecode_format env))) with 3.
      cbv iota. destruct (Z.ltb_spec (st + 0 - 3) 0); lia. }
    assert (Hso : soff_of env (t_session t) (t_cycle_start t) (t_speed t)
                  = (1 + 192 * i) mod 1920).
    { unfold soff_of. rewrite <- Ts, Hs.
      change (Qeq_bool (inject_Z 192 / inject_Z 128) 0) with false. cbv iota.
      unfold tc_sample_start_of, tc_start_of.
      change (timecode_to_sample env) with TestEnv.timecode_to_sample25.
      change (sample_to_timecode env) with TestEnv.sample_to_timecode25.
      rewrite frame_roundtrip25, Hcs. rewrite Z.mod_eq by lia. reflexivity. }
    set (soff := (1 + 192 * i) mod 1920) in *.
    assert (Hj : exists j, soff = 192 * j + 1 /\ 0 <= soff < 1920).
    { pose proof (Z.mod_pos_bound (1 + 192 * i) 1920 ltac:(lia)) as Hr.
      fold soff in Hr.
      exists (i - 10 * ((1 + 192 * i) / 1920)). split; [|exact Hr].
      unfold soff. rewrite Z.mod_eq by lia. lia. }
    destruct Hj as (j & Hj & Hr).
    unfold align. cbv zeta. rewrite Hso.
    set (s1 := trace _ (t_session t)).
    assert (Hn : needs_realign env s1 (t_cycle_start t) (t_poff t) = true).
    { unfold needs_realign. unfold s1. rewrite trace_enc_pos.
      assert (Hlt : ltc_enc_pos (t_session t) < 0) by lia.
      apply Z.ltb_lt in Hlt. now rewrite Hlt. }
    rewrite Hn.
    destruct (realign_in_range env s1 128 (t_cycle_start t)
                (tc_start_of env (t_session t) (t_cycle_start t))
                (tc_sample_start_of env (t_session t) (t_cycle_start t))
                soff (silence 128)) as (s3 & Hre & _ & _ & Hp3).
    { lia. }
    { change (samples_per_timecode_frame env) with (inject_Z 1920).
      rewrite <- Zlt_Qlt. lia. }
    assert (Hoff : resync_offset (samples_per_timecode_frame env) (ltc_speed s1)
                     soff = 191).
    { apply (resync_offset_byte_start _ _ j); [|exact Hj].
      unfold s1. change (ltc_speed (trace _ (t_session t)))
        with (ltc_speed (t_session t)). rewrite Hs. reflexivity. }
    rewrite Hoff in Hre.
    change ((0 <=? 191) && (191 <=? 128)) with false in Hre.
    cbv iota in Hre.
    exists s3. split; [exact Hre|].
    apply realign_setup in Hre. destruct Hre as [R1 R2].
    unfold waiting. rewrite Hp3, R1, R2. unfold s1.
    change (ltc_out_latency_max (trace _ (t_session t)))
      with (ltc_out_latency_max (t_session t)).
    change (ltc_enc_tcformat (trace _ (t_session t)))
      with (ltc_enc_tcformat (t_session t)).
    rewrite L1, L2. split; [reflexivity | split; assumption]. }
  destruct (speed_and_direction_rolls env s st en 128 Hc Hb) as [t0 Ht0].
  destruct H as [G|l G H1|s1 G H1 F|s1 s2 G H1 F H2|s1 t s3 G H1 F H2 H3
                |s1 t s3 out3 txf3 s4 out4 G H1 F H2 H3 H4].
  - discriminate.
  - congruence.
  - discriminate.
  - assert (s1 = s) by congruence. subst s1. congruence.
  - assert (s1 = s) by congruence. subst s1.
    destruct (Hal t H2) as (s3' & A1 & A2).
    assert (s3' = s3) by congruence. subst s3'.
    split; [reflexivity|].
    exists (set_dbg [] s3). split; [reflexivity | exact A2].
  - assert (s1 = s) by congruence. subst s1.
    destruct (Hal t H2) as (s3' & A1 & _). congruence.
Qed.

Lemma deferred_run (k : nat) : forall (i : nat) (s : Session E),
  waiting s ->
  exists rs s',
    run (Some s)
      (map (fun i => mkCycle (TestEnv.env25 true) (4 + Z.of_nat i * 192)
                       (4 + Z.of_nat (S i) * 192) 128) (seq i k))
    = Some (rs, Some s')
    /\ waiting s' /\ Forall (deferred 128) rs /\ length rs = k.
Proof.
  induction k as [|k IH]; intros i s W.
  - exists [], s. cbn. split; [reflexivity|]. split; [assumption|].
    split; [constructor | reflexivity].
  - cbn [seq map run c_env c_start c_end c_n].
    destruct (cycle_total (TestEnv.env25 true) (Some s)
                (4 + Z.of_nat i * 192) (4 + Z.of_nat (S i) * 192) 128)
      as [r Hr].
    rewrite Hr.
    assert (D : deferred 128 r).
    { apply (deferred_cycle s (Z.of_nat i) (4 + Z.of_nat i * 192)
               (4 + Z.of_nat (S i) * 192));
        [lia | lia | lia | exact W | exact Hr]. }
    destruct D as (Ho & s1 & Hs1 & W1).
    destruct (IH (S i) s1 W1) as (rs & s' & Hrun & W' & Hall & Hlen).
    rewrite Hs1, Hrun. exists (r :: rs), s'.
    split; [reflexivity|]. split; [assumption|]. split.
    + constructor; [|assumption]. split; [assumption|]. now exists s1.
    + cbn. now rewrite Hlen.
Qed.


(** ** What a cycle writes to the port buffer *)

Lemma sample_within_wider lo lo' hi e :
  lo <= lo' -> sample_within lo' hi e = true -> sample_within lo hi e = true.
Proof.
  intros Hl. destruct e; try discriminate. cbn.
  rewrite !andb_true_iff, !Z.leb_le. intros [H1 H2]. split; [lia | exact H2].
Qed.

Lemma output_within_wider lo lo' hi e :
  lo <= lo' -> output_within lo' hi e = true -> output_within lo hi e = true.
Proof.
  intros Hl. unfold output_within. rewrite !orb_true_iff.
  intros [H|H]; [left; eauto using sample_within_wider | now right].
Qed.

Lemma send_remaining_within fuel : forall env s n out txf s1 out1 txf1,
  send_remaining fuel env s n out txf = Some (s1, out1, txf1) ->
  grown (sample_within txf n) (dbg s) (dbg s1).
Proof.
  induction fuel as [|fuel IH]; intros env s n out txf s1 out1 txf1 H;
    cbn [send_remaining] in H.
  - destruct (_ && _); [discriminate|]. inversion H; subst. constructor.
  - destruct ((ltc_buf_off s <? ltc_buf_len s) && (txf <? n)) eqn:C.
    + apply andb_true_iff in C. destruct C as [_ C]. apply Z.ltb_lt in C.
      apply IH in H. cbn in H.
      apply (grown_trans _ _ (EvSample txf :: dbg s)).
      * apply grown_cons; [|apply grown_same].
        cbn. apply andb_true_iff. split; [apply Z.leb_le | apply Z.ltb_lt]; lia.
      * eapply grown_weaken; [|exact H].
        intros e. apply sample_within_wider. lia.
    + inversion H; subst. constructor.
Qed.

Lemma encode_next_within lo hi env s :
  match encode_next env s with
  | inl (s', _) => dbg s' = dbg s
  | inr s' => grown (output_within lo hi) (dbg s) (dbg s')
  end.
Proof.
  unfold encode_next. destruct (restarting s); [reflexivity|].
  destruct (ltc_encoder_encode_byte _ _ _) as [err e].
  destruct err.
  - grow.
  - cbn. destruct (ltc_encoder_get_buffer e). reflexivity.
Qed.

Lemma encode_and_output_within fuel : forall env s n out txf s' out',
  encode_and_output fuel env s n out txf = Some (s', out') ->
  grown (output_within txf n) (dbg s) (dbg s').
Proof.
  induction fuel as [|fuel IH]; intros env s n out txf s' out' H;
    cbn [encode_and_output] in H; [discriminate|].
  destruct (send_remaining _ env s n out txf) as [[[s1 out1] txf1]|] eqn:Hs;
    [|discriminate].
  pose proof (send_remaining_within _ _ _ _ _ _ _ _ _ Hs) as G1.
  apply send_remaining_spec in Hs. destruct Hs as (_ & _ & _ & Hle & _).
  assert (G1' : grown (output_within txf n) (dbg s) (dbg s1)).
  { eapply grown_weaken; [|exact G1]. intros e He. unfold output_within.
    now rewrite He. }
  destruct (n <=? txf1).
  { inversion H; subst. eapply grown_trans; [exact G1' | grow]. }
  set (s2 := step_back env _) in H.
  assert (G2 : grown (output_within txf n) (dbg s) (dbg s2)).
  { subst s2. rewrite step_back_dbg. exact G1'. }
  pose proof (encode_next_within txf n env s2) as Hn.
  destruct (encode_next env s2) as [[s3 k]|s3].
  - destruct (k <=? 0).
    + inversion H; subst. eapply grown_trans; [exact G2|].
      cbn. rewrite Hn. grow.
    + apply IH in H. rewrite step_forward_dbg, Hn in H.
      eapply grown_trans; [exact G2|].
      eapply grown_weaken; [|exact H].
      intro e. apply output_within_wider. exact Hle.
  - inversion H; subst. eauto using grown_trans.
Qed.

Lemma rint_nonneg (x : Q) : (0 <= x)%Q -> 0 <= rint x.
Proof.
  intro H. unfold rint.
  assert (F : 0 <= Qfloor x).
  { change 0 with (Qfloor 0). now apply Qfloor_resp_le. }
  repeat break_goal; lia.
Qed.

Lemma zero_prefix_length out : forall k,
  length (zero_prefix out k) = length out.
Proof.
  induction out as [|h t IH]; intros [|k]; cbn; try reflexivity.
  now rewrite IH.
Qed.

Lemma silence_length n : length (silence n) = Z.to_nat n.
Proof. unfold silence. apply repeat_length. Qed.

Lemma align_start env t n out s3 out3 txf3 :
  align env t n out = Next (s3, out3, txf3) ->
  0 <= txf3 /\ length out3 = length out.
Proof.
  unfold align. cbv zeta. intro H.
  destruct (needs_realign _ _ _ _).
  - unfold realign in H. cbv zeta in H.
    destruct (_ || _); [discriminate|].
    destruct (byte_for_offset _ _ _) as [s2 cyc_off].
    destruct ((0 <=? cyc_off) && (cyc_off <=? int32_t n)) eqn:C; [|discriminate].
    apply andb_true_iff in C. destruct C as [C _]. apply Z.leb_le in C.
    inversion H; subst. split; [|apply zero_prefix_length].
    apply rint_nonneg. unfold Qdiv. apply Qmult_le_0_compat.
    + change 0%Q with (inject_Z 0). now rewrite <- Zle_Qle.
    + apply Qinv_le_0_compat. apply Qabs_nonneg.
  - destruct (soft_condition _ _); inversion H; subst; split;
      (lia || reflexivity).
Qed.

(** The length of the port buffer and the indices written, on every way
    through a cycle. *)
Lemma encode_and_output_length fuel : forall env s n out txf s' out',
  0 <= txf ->
  encode_and_output fuel env s n out txf = Some (s', out') ->
  length out' = length out.
Proof.
  induction fuel as [|fuel IH]; intros env s n out txf s' out' H0 H;
    cbn [encode_and_output] in H; [discriminate|].
  destruct (send_remaining _ env s n out txf) as [[[s1 out1] txf1]|] eqn:Hs;
    [|discriminate].
  pose proof (send_remaining_out _ _ _ _ _ _ _ _ _ H0 Hs) as (L & _).
  apply send_remaining_spec in Hs. destruct Hs as (_ & _ & _ & Hle & _).
  destruct (n <=? txf1); [inversion H; subst; exact L|].
  destruct (encode_next env _) as [[s3 k]|s3].
  - destruct (k <=? 0); [inversion H; subst; exact L|].
    apply IH in H; [congruence | lia].
  - inversion H; subst. exact L.
Qed.

Lemma in_bounds_In n l i :
  grown (in_bounds n) [] l -> In (EvSample i) l -> 0 <= i < n.
Proof.
  intros G Hin. destruct (grown_In _ _ _ _ G Hin) as [F|[]].
  cbn in F. apply andb_true_iff in F. destruct F as [F1 F2].
  apply Z.leb_le in F1. apply Z.ltb_lt in F2. lia.
Qed.

Lemma output_within_in_bounds txf n e :
  0 <= txf -> output_within txf n e = true -> in_bounds n e = true.
Proof.
  intros H0. destruct e; try reflexivity.
  unfold output_within. cbn. rewrite orb_false_r.
  rewrite !andb_true_iff, !Z.leb_le. intros [H1 H2]. split; [lia | exact H2].
Qed.

(** X1: the port buffer of a cycle has [n_samples] samples, and every sample
    that the cycle writes has an index from 0 up to, not including,
    [n_samples]. *)
Theorem X1_port_buffer_bounds env s st en n r :
  dbg s = [] ->
  ltc_output_port env = true ->
  send_ltc_for_cycle env (Some s) st en n = Some r ->
  length (r_out r) = Z.to_nat n
  /\ (forall i, In (EvSample i) (r_trace r) -> 0 <= i < n).
Proof.
  intros Hd Hp H.
  apply cycle_anatomy in H; [|assumption].
  assert (Wt : forall e, tracker_event e = true -> in_bounds n e = true)
    by (intros []; cbn; congruence).
  assert (Wa : forall e, align_event e = true -> in_bounds n e = true)
    by (intros []; cbn; congruence).
  assert (Wf : forall e,
            tracker_event e || is_EvError e
            || match e with EvCleanup => true | _ => false end = true ->
            in_bounds n e = true)
    by (intros []; cbn; congruence).
  assert (Fin : forall l, grown (in_bounds n) [] l ->
                  forall i, In (EvSample i) (rev l) -> 0 <= i < n).
  { intros l G i Hin. apply in_rev in Hin. eauto using in_bounds_In. }
  destruct H as [G|l G H1|s1 G H1 F|s1 s2 G H1 F H2|s1 t s3 G H1 F H2 H3
                |s1 t s3 out3 txf3 s4 out4 G H1 F H2 H3 H4];
    unfold leave, gone; cbn [r_trace r_out].
  - split; [apply silence_length|]. rewrite Hd. intros i [].
  - split; [apply silence_length|]. apply Fin.
    pose proof (check_fps_grown env s) as Gr. rewrite H1, Hd in Gr.
    cbn [step_dbg] in Gr. eapply grown_weaken; [exact Wf | exact Gr].
  - split; [apply silence_length|]. apply Fin.
    apply check_fps_next in H1. rewrite Hd in H1.
    eapply grown_weaken; [exact Wt | exact H1].
  - split; [apply silence_length|]. apply Fin.
    apply check_fps_next in H1. rewrite Hd in H1.
    apply speed_and_direction_grown in H2. cbn [step_dbg] in H2.
    eapply grown_weaken; [exact Wt | eauto using grown_trans].
  - split; [apply silence_length|]. apply Fin.
    pose proof (tracked_dbg env s s1 st en n t Hd H1 H2) as G0.
    pose proof (align_grown env t n (silence n)) as Ga. rewrite H3 in Ga.
    cbn [step_dbg] in Ga.
    apply (grown_trans _ _ (dbg (t_session t)));
      [exact (grown_weaken _ _ _ _ Wt G0) | exact (grown_weaken _ _ _ _ Wa Ga)].
  - pose proof (tracked_dbg env s s1 st en n t Hd H1 H2) as G0.
    pose proof (align_grown env t n (silence n)) as Ga. rewrite H3 in Ga.
    cbn [step_dbg fst] in Ga.
    destruct (align_start _ _ _ _ _ _ _ H3) as [T0 L3].
    split.
    + rewrite (encode_and_output_length _ _ _ _ _ _ _ _ T0 H4), L3.
      apply silence_length.
    + apply Fin. apply encode_and_output_within in H4.
      eapply grown_trans; [|eapply grown_weaken; [|exact H4]].
      * apply (grown_trans _ _ (dbg (t_session t)));
          [exact (grown_weaken _ _ _ _ Wt G0)
          | exact (grown_weaken _ _ _ _ Wa Ga)].
      * intro e. now apply output_within_in_bounds.
Qed.

Lemma send_remaining_covers fuel : forall env s n out txf s1 out1 txf1,
  send_remaining fuel env s n out txf = Some (s1, out1, txf1) ->
  forall i, txf <= i < txf1 -> In (EvSample i) (dbg s1).
Proof.
  induction fuel as [|fuel IH]; intros env s n out txf s1 out1 txf1 H i Hi;
    cbn [send_remaining] in H.
  - destruct (_ && _); [discriminate|]. inversion H; subst. lia.
  - destruct ((ltc_buf_off s <? ltc_buf_len s) && (txf <? n)) eqn:C.
    + destruct (Z.eq_dec i txf) as [->|Hne].
      * apply send_remaining_within in H.
        apply (grown_In_old _ _ _ _ H). cbn. now left.
      * apply (IH _ _ _ _ _ _ _ _ H). lia.
    + inversion H; subst. lia.
Qed.

Lemma encode_and_output_covers fuel : forall env s n out txf s' out',
  encode_and_output fuel env s n out txf = Some (s', out') ->
  existsb is_enc_failure (dbg s') = false ->
  forall i, txf <= i < n -> In (EvSample i) (dbg s').
Proof.
  induction fuel as [|fuel IH]; intros env s n out txf s' out' H Hf i Hi;
    cbn [encode_and_output] in H; [discriminate|].
  destruct (send_remaining _ env s n out txf) as [[[s1 out1] txf1]|] eqn:Hs;
    [|discriminate].
  pose proof (send_remaining_covers _ _ _ _ _ _ _ _ _ Hs) as Hc.
  destruct (n <=? txf1) eqn:Hn.
  { apply Z.leb_le in Hn. inversion H; subst. cbn. right. apply Hc. lia. }
  set (s2 := step_back env _) in H.
  assert (D2 : dbg s2 = dbg s1) by (subst s2; now rewrite step_back_dbg).
  pose proof (encode_next_grown env s2) as Hg.
  destruct (encode_next env s2) as [[s3 k]|s3] eqn:He.
  - destruct (k <=? 0).
    + inversion H; subst. cbn in Hf. discriminate.
    + destruct (Z.lt_ge_cases i txf1) as [Hlt|Hge].
      * pose proof H as H'. apply encode_and_output_grown in H'.
        rewrite step_forward_dbg, Hg, D2 in H'.
        apply (grown_In_old _ _ _ _ H'). apply Hc. lia.
      * apply (IH _ _ _ _ _ _ _ H Hf). lia.
  - inversion H; subst. exfalso.
    unfold encode_next in He. destruct (restarting s2); [discriminate|].
    destruct (ltc_encoder_encode_byte _ _ _) as [err e].
    destruct err.
    + inversion He; subst. cbn in Hf. discriminate.
    + destruct (ltc_encoder_get_buffer _). discriminate.
Qed.

(** X2: a cycle that gets to the end of step (6) has written every sample
    of the block from the index [txf] at which its output starts, and only
    those; the samples before [txf] are silence.  The output starts at 0
    unless the cycle restarts the encoder. *)
Theorem X2_block_rendered env s st en n r :
  dbg s = [] ->
  ltc_output_port env = true ->
  send_ltc_for_cycle env (Some s) st en n = Some r ->
  In EvDone (r_trace r) ->
  exists txf,
    0 <= txf
    /\ (existsb is_EvRestartAt (r_trace r) = false -> txf = 0)
    /\ (forall i, 0 <= i < n -> (In (EvSample i) (r_trace r) <-> txf <= i))
    /\ (forall i, 0 <= i < txf -> nth (Z.to_nat i) (r_out r) 0%Q = 0%Q).
Proof.
  intros Hd Hp H Hdone.
  pose proof (cycle_unwritten_silent env s st en n r) as Hsil.
  specialize (fun i => Hsil i Hd H).
  apply cycle_anatomy in H; [|assumption].
  assert (Nt : forall l, grown tracker_event [] l -> ~ In EvDone l).
  { intros l G Hin. destruct (grown_In _ _ _ _ G Hin) as [F|[]]. discriminate. }
  assert (Na : forall l l', ~ In EvDone l -> grown align_event l l' ->
                 ~ In EvDone l').
  { intros l l' Hn G Hin. destruct (grown_In _ _ _ _ G Hin) as [F|F];
      [discriminate | contradiction]. }
  destruct H as [G|l G H1|s1 G H1 F|s1 s2 G H1 F H2|s1 t s3 G H1 F H2 H3
                |s1 t s3 out3 txf3 s4 out4 G H1 F H2 H3 H4];
    unfold leave, gone in *; cbn [r_trace r_out] in *;
    apply in_rev in Hdone.
  - rewrite Hd in Hdone. destruct Hdone.
  - exfalso. pose proof (check_fps_grown env s) as Gr. rewrite H1, Hd in Gr.
    cbn [step_dbg] in Gr.
    destruct (grown_In _ _ _ _ Gr Hdone) as [F|[]]. discriminate.
  - exfalso. apply check_fps_next in H1. rewrite Hd in H1.
    exact (Nt _ H1 Hdone).
  - exfalso. apply check_fps_next in H1. rewrite Hd in H1.
    apply speed_and_direction_grown in H2. cbn [step_dbg] in H2.
    exact (Nt _ (grown_trans _ _ _ _ H1 H2) Hdone).
  - exfalso.
    pose proof (tracked_dbg env s s1 st en n t Hd H1 H2) as G0.
    pose proof (align_grown env t n (silence n)) as Ga. rewrite H3 in Ga.
    cbn [step_dbg] in Ga. exact (Na _ _ (Nt _ G0) Ga Hdone).
  - pose proof (tracked_dbg env s s1 st en n t Hd H1 H2) as G0.
    pose proof (align_grown env t n (silence n)) as Ga. rewrite H3 in Ga.
    cbn [step_dbg fst] in Ga.
    destruct (align_start _ _ _ _ _ _ _ H3) as [T0 L3].
    assert (N3 : forall i, ~ In (EvSample i) (dbg s3)).
    { intros i Hin. destruct (grown_In _ _ _ _ Ga Hin) as [F'|F'];
        [discriminate|].
      destruct (grown_In _ _ _ _ G0 F') as [F''|[]]. discriminate. }
    assert (F3 : existsb is_enc_failure (dbg s3) = false).
    { rewrite (grown_existsb align_event is_enc_failure _ _
                 ltac:(intros []; cbn; congruence) Ga).
      apply (existsb_false_of_grown tracker_event); [|exact G0].
      intros []; cbn; congruence. }
    assert (F4 : existsb is_enc_failure (dbg s4) = false).
    { destruct (encode_and_output_end _ _ _ _ _ _ _ _ H4)
        as [(l & Hl & Gl)|(f & l & Hl & Hf & Gl & _)].
      - rewrite Hl. cbn.
        rewrite (grown_existsb is_EvSample is_enc_failure _ _
                   ltac:(intros []; cbn; congruence) Gl). exact F3.
      - exfalso. rewrite Hl in Hdone.
        destruct Hdone as [Hx|[Hx|Hx]]; [discriminate | |].
        + subst f. discriminate.
        + destruct (grown_In _ _ _ _ Gl Hx) as [F'|F']; [discriminate|].
          exact (Na _ _ (Nt _ G0) Ga F'). }
    exists txf3. split; [exact T0|]. split; [|split].
    + intro Hno. rewrite existsb_rev_eq in Hno.
      unfold align in H3. cbv zeta in H3.
      destruct (needs_realign _ _ _ _).
      * apply realign_next_restart_at in H3.
        apply encode_and_output_grown in H4.
        rewrite (grown_existsb_mono _ is_EvRestartAt _ _ H4 H3) in Hno.
        discriminate.
      * destruct (soft_condition _ _); inversion H3; reflexivity.
    + intros i Hi. rewrite <- in_rev. split.
      * intro Hin.
        pose proof (encode_and_output_within _ _ _ _ _ _ _ _ H4) as W.
        destruct (grown_In _ _ _ _ W Hin) as [F'|F'].
        -- unfold output_within in F'. cbn in F'. rewrite orb_false_r in F'.
           apply andb_true_iff in F'. destruct F' as [F' _].
           now apply Z.leb_le in F'.
        -- now apply N3 in F'.
      * intro Hle. apply (encode_and_output_covers _ _ _ _ _ _ _ _ H4 F4). lia.
    + intros i Hi. apply Hsil; [lia|].
      rewrite <- in_rev. intro Hin.
      pose proof (encode_and_output_within _ _ _ _ _ _ _ _ H4) as W.
      destruct (grown_In _ _ _ _ W Hin) as [F'|F'].
      * unfold output_within in F'. cbn in F'. rewrite orb_false_r in F'.
        apply andb_true_iff in F'. destruct F' as [F' _].
        apply Z.leb_le in F'. lia.
      * now apply N3 in F'.
Qed.

(** X3: whatever way a cycle takes, a sample of the port buffer that it
    does not write is silence. *)
Theorem X3_unwritten_silence env s st en n r i :
  dbg s = [] ->
  send_ltc_for_cycle env (Some s) st en n = Some r ->
  0 <= i -> ~ In (EvSample i) (r_trace r) ->
  nth (Z.to_nat i) (r_out r) 0%Q = 0%Q.
Proof. apply cycle_unwritten_silent. Qed.

(** ** A speed beyond the bound *)

Lemma speed_and_direction_too_fast env s st en n :
  (10 < fabs (effective_speed env st en n))%Q ->
  exists s3,
    speed_and_direction env s st en n
    = Some (Leave (ltc_tx_reset (trace EvOutOfBounds s3)))
    /\ tracker_frame s s3
    /\ grown tracker_event (dbg s) (dbg s3).
Proof.
  unfold effective_speed, speed_and_direction, settle_speed. cbv zeta.
  set (v := rescale_speed env (raw_speed st en n)).
  intro Hv.
  destruct ((en =? st) || Qltb (fabs v) (1 # 10)) eqn:C.
  { exfalso. revert Hv. apply Qle_not_lt. discriminate. }
  destruct (direction_check_frame s v) as [F1 _].
  pose proof (direction_check_grown s v) as G1.
  set (s1 := direction_check s v) in *.
  destruct (speed_change_check_frame env s1 v) as (F2 & _).
  pose proof (speed_change_check_grown env s1 v) as G2.
  destruct (speed_change_check env s1 v) as [s2 changed].
  cbn [fst snd] in *.
  unfold not_rolling_check. rewrite C.
  apply Qltb_lt in Hv. rewrite Hv.
  exists s2. split; [reflexivity|].
  split; eauto using tracker_frame_trans, grown_trans.
Qed.

(** X4: a block whose speed exceeds 10 in magnitude is not rendered: the
    cycle resets the generator and ends in silence before the alignment
    check, and it stores neither the speed nor the start of the block. *)
Theorem X4_speed_out_of_bounds env s st en n r :
  dbg s = [] ->
  ltc_output_port env = true ->
  generation_off env = false ->
  ltc_enc_tcformat s = timecode_format env ->
  Qltb 30 (timecode_to_frames_per_second (timecode_format env)) = false ->
  send_ltc_for_cycle env (Some s) st en n = Some r ->
  (10 < fabs (effective_speed env st en n))%Q ->
  r_out r = silence n
  /\ existsb is_EvAlign (r_trace r) = false
  /\ (exists before, r_trace r = before ++ [EvOutOfBounds; EvReset])
  /\ exists s',
       r_session r = Some s'
       /\ ltc_enc_pos s' = -9999
       /\ ltc_buf_len s' = 0 /\ ltc_buf_off s' = 0
       /\ ltc_speed s' = ltc_speed s
       /\ ltc_prev_cycle s' = ltc_prev_cycle s.
Proof.
  intros Hd Hp G Hfmt F H Hv.
  destruct (cycle_tracker env s st en n r Hp G Hfmt F H) as (x & Hx & _ & Hl).
  destruct (speed_and_direction_too_fast env s st en n Hv)
    as (s3 & H3 & (_ & Fs & Fp & _) & G3).
  rewrite H3 in Hx. inversion Hx; subst x.
  rewrite (Hl _ eq_refl). unfold leave. cbn.
  split; [reflexivity|]. split; [|split].
  - rewrite !existsb_app. cbn. rewrite existsb_rev_eq.
    rewrite Hd in G3.
    rewrite (existsb_false_of_grown tracker_event is_EvAlign (dbg s3));
      [reflexivity | | exact G3].
    intros []; cbn; congruence.
  - exists (rev (dbg s3)). now rewrite <- app_assoc.
  - eexists. split; [reflexivity|]. cbn. repeat split; assumption.
Qed.

(** ** The rise time of the filter *)

Lemma Qeq_bool_false (x y : Q) : ~ (x == y)%Q -> Qeq_bool x y = false.
Proof.
  intro H. apply Qneqb_neq in H. unfold Qneqb in H.
  now apply negb_true_iff in H.
Qed.

Lemma MAX_ge (a b : Q) : (a <= MAX a b)%Q /\ (b <= MAX a b)%Q.
Proof.
  unfold MAX. destruct (Qltb b a) eqn:C.
  - apply Qltb_lt in C. split; [apply Qle_refl | now apply Qlt_le_weak].
  - apply Qltb_ge in C. split; [exact C | apply Qle_refl].
Qed.

Lemma MAX_mono (a b b' : Q) : (b <= b')%Q -> (MAX a b <= MAX a b')%Q.
Proof.
  intro H. unfold MAX.
  destruct (Qltb b a) eqn:C, (Qltb b' a) eqn:C';
    rewrite ?Qltb_lt, ?Qltb_ge in *; try lra.
Qed.

Lemma MIN_mono (a b b' : Q) : (b <= b')%Q -> (MIN a b <= MIN a b')%Q.
Proof.
  intro H. unfold MIN.
  destruct (Qltb a b) eqn:C, (Qltb a b') eqn:C';
    rewrite ?Qltb_lt, ?Qltb_ge in *; try lra.
Qed.

(** X5: the rise time handed to the filter of the encoder lies between 40
    and 100 for every speed.  For a reverse speed it is 40; among forward
    speeds it does not grow with the speed; speed 0 gets the rise time of
    speed 1. *)
Theorem X5_rise_time env (speed : Q) :
  (40 <= LTC_RISE_TIME env speed <= 100)%Q
  /\ (0 < engine_sample_rate env -> (speed < 0)%Q ->
      (LTC_RISE_TIME env speed == 40)%Q)
  /\ (0 < engine_sample_rate env ->
      forall speed', (0 < speed)%Q -> (speed <= speed')%Q ->
        (LTC_RISE_TIME env speed' <= LTC_RISE_TIME env speed)%Q)
  /\ LTC_RISE_TIME env 0 = LTC_RISE_TIME env 1.
Proof.
  split; [|split; [|split]].
  - unfold LTC_RISE_TIME.
    set (x := (4000000 / _ / _)%Q).
    pose proof (MAX_ge 40 x) as [M1 _].
    unfold MIN. destruct (Qltb 100 (MAX 40 x)) eqn:C.
    + split; [discriminate | apply Qle_refl].
    + apply Qltb_ge in C. split; assumption.
  - intros Hsr Hneg. unfold LTC_RISE_TIME.
    assert (Hz : Qeq_bool speed 0 = false).
    { apply Qeq_bool_false. intro Hx. rewrite Hx in Hneg.
      exact (Qlt_irrefl _ Hneg). }
    rewrite Hz.
    set (x := (4000000 / speed / inject_Z (engine_sample_rate env))%Q).
    assert (Hx : (x <= 0)%Q).
    { assert (Hsr' : (0 < inject_Z (engine_sample_rate env))%Q).
      { change 0%Q with (inject_Z 0). now rewrite <- Zlt_Qlt. }
      assert (I1 : (0 < / - speed)%Q) by (apply Qinv_lt_0_compat; lra).
      assert (I2 : (0 < / inject_Z (engine_sample_rate env))%Q)
        by now apply Qinv_lt_0_compat.
      assert (Hx : (x == - (4000000 * / - speed
                            * / inject_Z (engine_sample_rate env)))%Q).
      { unfold x. field. split; lra. }
      rewrite Hx. nra. }
    assert (Hm : MAX 40 x = 40%Q).
    { unfold MAX. assert (C : Qltb x 40 = true) by (apply Qltb_lt; lra).
      now rewrite C. }
    rewrite Hm. reflexivity.
  - intros Hsr speed' Hpos Hle. unfold LTC_RISE_TIME.
    assert (Hz : forall q, (0 < q)%Q -> Qeq_bool q 0 = false).
    { intros q Hq. apply Qeq_bool_false. intro Hx. rewrite Hx in Hq.
      exact (Qlt_irrefl _ Hq). }
    rewrite (Hz speed Hpos), (Hz speed') by lra.
    apply MIN_mono, MAX_mono.
    assert (I2 : (0 < / inject_Z (engine_sample_rate env))%Q).
    { apply Qinv_lt_0_compat. change 0%Q with (inject_Z 0).
      now rewrite <- Zlt_Qlt. }
    assert (I1 : (/ speed' <= / speed)%Q).
    { destruct (Qlt_le_dec speed speed') as [Hlt|Hge].
      - apply Qlt_le_weak. apply -> Qinv_lt_contravar; [exact Hlt | lra | lra].
      - assert (Heq : (speed' == speed)%Q) by lra.
        rewrite Heq. apply Qle_refl. }
    unfold Qdiv. nra.
  - reflexivity.
Qed.

(** ** The session of [ltc_tx_initialize] *)

(** X6: [ltc_tx_initialize] leaves an empty queue, the sentinel position,
    speed 0 and no last block; the format of the encoder is the configured
    one, so the first cycle does not re-initialise the encoder, and if that
    cycle gets to the alignment check it performs the hard resync. *)
Theorem X6_initialize env (e : E) (latency_max : Z) :
  let s := ltc_tx_initialize env e latency_max in
  buffer_inv s
  /\ ltc_enc_pos s = -9999 /\ ltc_buf_len s = 0 /\ ltc_buf_off s = 0
  /\ ltc_speed s = 0%Q /\ ltc_prev_cycle s = -1 /\ restarting s = false
  /\ ltc_out_latency_max s = latency_max
  /\ ltc_timecode_offset s = timecode_generator_offset env
  /\ check_fps env s = Next s
  /\ forall st en n r,
       ltc_output_port env = true ->
       send_ltc_for_cycle env (Some s) st en n = Some r ->
       existsb is_EvAlign (r_trace r) = true ->
       existsb is_EvRealign (r_trace r) = true.
Proof.
  intro s.
  assert (Hfmt : ltc_enc_tcformat s = timecode_format env) by reflexivity.
  split; [split; cbn; lia|]. repeat (split; [reflexivity|]).
  split; [now apply check_fps_same|].
  intros st en n r Hp H. apply (sentinel_forces_realign env s st en n r);
    [reflexivity | exact Hp | cbn; lia | exact H].
Qed.

(** ** A reset before the alignment check *)

Lemma reset_shows_reset s : reset_shows (ltc_tx_reset s).
Proof. intros _. reflexivity. Qed.

Lemma check_fps_reset_shows env s s1 :
  check_fps env s = Next s1 -> reset_shows s -> reset_shows s1.
Proof.
  unfold check_fps. intros H I.
  repeat break_in H; inversion H; subst; [apply reset_shows_reset | exact I].
Qed.

Lemma speed_and_direction_reset_shows env s st en n t :
  speed_and_direction env s st en n = Some (Next t) ->
  reset_shows s -> reset_shows (t_session t).
Proof.
  unfold speed_and_direction, settle_speed. cbv zeta. intros H I.
  set (v := rescale_speed env (raw_speed st en n)) in *.
  assert (I1 : reset_shows (direction_check s v)).
  { unfold direction_check. break_goal; [apply reset_shows_reset | exact I]. }
  set (s1 := direction_check s v) in *.
  assert (I2 : reset_shows (fst (speed_change_check env s1 v))).
  { unfold speed_change_check. break_goal; [|exact I1].
    intro Hr. cbn in Hr. apply I1 in Hr. exact Hr. }
  destruct (speed_change_check env s1 v) as [s2 changed]. cbn [fst] in I2.
  destruct (not_rolling_check env s2 st en v) as [s3|l|[s3 v']] eqn:Hnr;
    try discriminate.
  assert (I3 : reset_shows s3).
  { unfold not_rolling_check in Hnr.
    repeat break_in Hnr; inversion Hnr; subst;
      [apply reset_shows_reset | | exact I2].
    intro Hr. cbn in Hr. apply I2 in Hr. exact Hr. }
  destruct (Qltb 10 (fabs v')); [discriminate|].
  assert (I4 : reset_shows (started_rolling_check s3 v')).
  { unfold started_rolling_check.
    break_goal; [apply reset_shows_reset | exact I3]. }
  set (s4 := started_rolling_check s3 v') in *.
  assert (Fin : forall s5, reset_shows s5 ->
            reset_shows (trace (EvSpeed (ltc_speed (set_speed v'
                                                      (set_prev_cycle st s5))))
                           (set_speed v' (set_prev_cycle st s5)))).
  { intros s5 I5 Hr. cbn in Hr. apply I5 in Hr. exact Hr. }
  destruct (changed && Qneqb v' 0).
  - destruct (resample env s4 v' _) as [[s5 p5]|] eqn:Hr; [|discriminate].
    inversion H; subst t. cbn [t_session]. apply Fin.
    apply resample_frame in Hr.
    destruct Hr as (_ & [(Rp & _ & Rd & _)|(Rp & _)]).
    + intro Hx. rewrite Rd in Hx. rewrite Rp. now apply I4.
    + intros _. exact Rp.
  - inversion H; subst t. cbn [t_session]. apply Fin. exact I4.
Qed.

Lemma split_unique (f : Event -> bool) :
  forall l1 l1' a a' l2 l2',
    l1 ++ a :: l2 = l1' ++ a' :: l2' ->
    f a = true -> f a' = true ->
    existsb f l1' = false -> existsb f l2' = false ->
    l1 = l1' /\ l2 = l2'.
Proof.
  induction l1 as [|x l1 IH]; intros l1' a a' l2 l2' H Ha Ha' N1 N2.
  - destruct l1' as [|y l1']; cbn in *.
    + inversion H. now split.
    + inversion H; subst. rewrite Ha in N1. discriminate.
  - destruct l1' as [|y l1']; cbn in *.
    + exfalso. inversion H; subst.
      assert (Hin : existsb f (l1 ++ a :: l2) = true).
      { rewrite existsb_app. cbn. rewrite Ha. apply orb_true_iff. right.
        reflexivity. }
      congruence.
    + inversion H; subst. apply orb_false_iff in N1. destruct N1 as [_ N1].
      destruct (IH _ _ _ _ _ H2 Ha Ha' N1 N2) as [-> ->]. now split.
Qed.

Lemma forallb_existsb_false (P f : Event -> bool) l :
  (forall e, P e = true -> f e = false) ->
  forallb P l = true -> existsb f l = false.
Proof.
  intros HP. induction l as [|e l IH]; [reflexivity|]. cbn.
  rewrite andb_true_iff. intros [He Hl]. now rewrite (HP e He), IH.
Qed.

Lemma align_trace env t n out :
  let s := t_session t in
  let c := t_cycle_start t in
  let ev := EvAlign c (tc_sample_start_of env s c)
              (soff_of env s c (t_speed t)) in
  exists post,
    step_dbg (fun x => fst (fst x)) (align env t n out) = post ++ ev :: dbg s
    /\ forallb (fun e => align_event e && negb (is_EvAlign e)) post = true
    /\ (ltc_enc_pos s = -9999 -> existsb is_EvRealign post = true).
Proof.
  intros s c ev. pose proof (align_shape env t n out) as H. cbv zeta in H.
  fold s c ev in H.
  destruct (needs_realign env (trace ev s) c (t_poff t)) eqn:Hn.
  - apply grown_app in H. destruct H as (front & -> & Hf).
    exists (front ++ [EvRealign c (tc_sample_start_of env s c)
                        (soff_of env s c (t_speed t)); EvReset]).
    split; [now rewrite <- app_assoc|]. split.
    + rewrite forallb_app. cbn. rewrite andb_true_r.
      rewrite forallb_forall in *. intros e He. apply Hf in He.
      destruct e; try discriminate; reflexivity.
    + intros _. rewrite existsb_app. cbn. apply orb_true_r.
  - assert (Hp : ltc_enc_pos s = -9999 -> False).
    { intro Hp. unfold needs_realign in Hn.
      change (ltc_enc_pos (trace ev s)) with (ltc_enc_pos s) in Hn.
      rewrite Hp in Hn. discriminate. }
    destruct (soft_condition _ _); rewrite H.
    + exists [EvSoft]. repeat split. intro Hx. now apply Hp in Hx.
    + exists []. repeat split. intro Hx. now apply Hp in Hx.
Qed.

(** X7: in a cycle that gets to the alignment check, a reset made before
    the check (for a new format, a change of direction, a seek while
    stopped, the start of rolling or a queue that cannot be re-sampled) makes
    the check choose the hard resync. *)
Theorem X7_reset_forces_resync env s st en n r before after c tcs soff :
  dbg s = [] ->
  ltc_output_port env = true ->
  send_ltc_for_cycle env (Some s) st en n = Some r ->
  r_trace r = before ++ EvAlign c tcs soff :: after ->
  In EvReset before ->
  existsb is_EvRealign after = true.
Proof.
  intros Hd Hp H Htr Hin.
  apply cycle_anatomy in H; [|assumption].
  assert (Nt : forall l, grown tracker_event [] l ->
                 existsb is_EvAlign l = false).
  { intros l G. apply (existsb_false_of_grown tracker_event); [|exact G].
    intros []; cbn; congruence. }
  assert (Na : forall e, align_event e && negb (is_EvAlign e) = true ->
                 is_EvAlign e = false)
    by (intros []; cbn; congruence).
  assert (Has : existsb is_EvAlign (r_trace r) = true).
  { rewrite Htr, existsb_app. cbn. apply orb_true_r. }
  destruct H as [G|l G H1|s1 G H1 F|s1 s2 G H1 F H2|s1 t s3 G H1 F H2 H3
                |s1 t s3 out3 txf3 s4 out4 G H1 F H2 H3 H4];
    unfold leave, gone in *; cbn [r_trace r_out] in *;
    rewrite existsb_rev_eq in Has.
  - rewrite Hd in Has. discriminate.
  - exfalso. pose proof (check_fps_grown env s) as Gr. rewrite H1, Hd in Gr.
    cbn [step_dbg] in Gr.
    assert (Hno : existsb is_EvAlign l = false).
    { eapply existsb_false_of_grown; [|exact Gr]. intros []; cbn; congruence. }
    congruence.
  - apply check_fps_next in H1. rewrite Hd in H1.
    rewrite (Nt _ H1) in Has. discriminate.
  - apply check_fps_next in H1. rewrite Hd in H1.
    apply speed_and_direction_grown in H2. cbn [step_dbg] in H2.
    rewrite (Nt _ (grown_trans _ _ _ _ H1 H2)) in Has. discriminate.
  - pose proof (tracked_dbg env s s1 st en n t Hd H1 H2) as G0.
    destruct (align_trace env t n (silence n)) as (post & Hpost & Hf & Hre).
    rewrite H3 in Hpost. cbn [step_dbg] in Hpost.
    rewrite Hpost, rev_app_distr in Htr. cbn [rev] in Htr.
    rewrite <- app_assoc in Htr. cbn [app] in Htr.
    symmetry in Htr.
    destruct (split_unique is_EvAlign _ _ _ _ _ _ Htr eq_refl eq_refl)
      as [-> ->].
    + rewrite existsb_rev_eq. now apply Nt.
    + rewrite existsb_rev_eq.
      apply (forallb_existsb_false _ _ _ Na Hf).
    + rewrite existsb_rev_eq. apply Hre.
      apply (speed_and_direction_reset_shows _ _ _ _ _ _ H2).
      * apply (check_fps_reset_shows _ _ _ H1). intro Hx. rewrite Hd in Hx.
        discriminate.
      * rewrite <- existsb_rev_eq. apply existsb_exists. exists EvReset.
        now split.
  - pose proof (tracked_dbg env s s1 st en n t Hd H1 H2) as G0.
    destruct (align_trace env t n (silence n)) as (post & Hpost & Hf & Hre).
    rewrite H3 in Hpost. cbn [step_dbg fst] in Hpost.
    apply encode_and_output_grown in H4. apply grown_app in H4.
    destruct H4 as (front & H4 & Hfront).
    rewrite H4, Hpost, !rev_app_distr in Htr. cbn [rev] in Htr.
    rewrite <- !app_assoc in Htr. cbn [app] in Htr.
    symmetry in Htr.
    destruct (split_unique is_EvAlign _ _ _ _ _ _ Htr eq_refl eq_refl)
      as [-> ->].
    + rewrite existsb_rev_eq. now apply Nt.
    + rewrite existsb_app, !existsb_rev_eq.
      rewrite (forallb_existsb_false _ _ _ Na Hf).
      apply (forallb_existsb_false output_event); [|exact Hfront].
      intros []; cbn; congruence.
    + rewrite existsb_app, existsb_rev_eq. apply orb_true_iff. left.
      apply Hre.
      apply (speed_and_direction_reset_shows _ _ _ _ _ _ H2).
      * apply (check_fps_reset_shows _ _ _ H1). intro Hx. rewrite Hd in Hx.
        discriminate.
      * rewrite <- existsb_rev_eq. apply existsb_exists. exists EvReset.
        now split.
Qed.

(** ** Re-sampling of the queue *)

Lemma squeezed_refl {A : Type} (l : list A) : squeezed l l.
Proof. induction l; constructor; assumption. Qed.

Lemma stretched_refl {A : Type} (l : list A) : stretched l l.
Proof. induction l; constructor; assumption. Qed.

Lemma squeezed_all {A : Type} (l : list A) : squeezed l [].
Proof. induction l; constructor; assumption. Qed.

Lemma take_bytes_ext buf buf' : forall count from,
  (forall j, from <= j < from + Z.of_nat count -> buf' j = buf j) ->
  take_bytes buf' from count = take_bytes buf from count.
Proof.
  induction count as [|c IH]; intros from H; [reflexivity|]. cbn [take_bytes].
  rewrite H by lia. f_equal. apply IH. intros j Hj. apply H. lia.
Qed.

Lemma take_bytes_shift buf buf' d : forall count from,
  (forall j, from <= j < from + Z.of_nat count -> buf' (j + d) = buf j) ->
  take_bytes buf' (from + d) count = take_bytes buf from count.
Proof.
  induction count as [|c IH]; intros from H; [reflexivity|]. cbn [take_bytes].
  rewrite H by lia. f_equal.
  replace (from + d + 1) with (from + 1 + d) by lia.
  apply IH. intros j Hj. apply H. lia.
Qed.

Lemma take_bytes_app buf : forall a b from,
  take_bytes buf from (a + b)
  = take_bytes buf from a ++ take_bytes buf (from + Z.of_nat a) b.
Proof.
  induction a as [|a IH]; intros b from.
  - cbn. now rewrite Z.add_0_r.
  - cbn [take_bytes Nat.add app]. rewrite IH. do 3 f_equal. lia.
Qed.

Lemma bytes_split buf off rp len :
  off <= rp <= len ->
  bytes buf off len = bytes buf off rp ++ bytes buf rp len.
Proof.
  intro H. unfold bytes.
  replace (Z.to_nat (len - off))
    with (Z.to_nat (rp - off) + Z.to_nat (len - rp))%nat by lia.
  rewrite take_bytes_app. do 2 f_equal. lia.
Qed.

Lemma bytes_cons buf rp len :
  rp < len -> bytes buf rp len = buf rp :: bytes buf (rp + 1) len.
Proof.
  intro H. unfold bytes.
  replace (Z.to_nat (len - rp)) with (S (Z.to_nat (len - (rp + 1)))) by lia.
  reflexivity.
Qed.

Lemma bytes_snoc buf off rp :
  off <= rp -> bytes buf off (rp + 1) = bytes buf off rp ++ [buf rp].
Proof.
  intro H. rewrite (bytes_split buf off rp (rp + 1)) by lia.
  f_equal. rewrite bytes_cons by lia. unfold bytes.
  now replace (Z.to_nat (rp + 1 - (rp + 1))) with O by lia.
Qed.

Lemma bytes_empty buf off : bytes buf off off = [].
Proof. unfold bytes. now rewrite Z.sub_diag. Qed.

Lemma bytes_ext buf buf' off len :
  (forall j, off <= j < len -> buf' j = buf j) ->
  bytes buf' off len = bytes buf off len.
Proof. intro H. apply take_bytes_ext. intros j Hj. apply H. lia. Qed.

Lemma resample_insert_stretched fuel :
  forall off avg rp incnt buf len buf' len',
    off <= rp <= len ->
    resample_insert fuel off avg rp incnt buf len = Some (buf', len') ->
    exists R,
      bytes buf' off len' = bytes buf off rp ++ R
      /\ stretched (bytes buf rp len) R.
Proof.
  induction fuel as [|fuel IH]; intros off avg rp incnt buf len buf' len' Hr H;
    cbn [resample_insert] in H.
  - destruct (rp <? len - 1); [discriminate|]. inversion H; subst.
    exists (bytes buf' rp len'). split; [now apply bytes_split|].
    apply stretched_refl.
  - destruct (rp <? len - 1) eqn:C.
    2:{ inversion H; subst. exists (bytes buf' rp len').
        split; [now apply bytes_split | apply stretched_refl]. }
    apply Z.ltb_lt in C.
    assert (Keep : forall incnt',
              resample_insert fuel off avg (rp + 1) incnt' buf len
              = Some (buf', len') ->
              exists R, bytes buf' off len' = bytes buf off rp ++ R
                        /\ stretched (bytes buf rp len) R).
    { intros incnt' H'. apply IH in H'; [|lia].
      destruct H' as (R1 & E1 & S1).
      exists (buf rp :: R1). split.
      - rewrite E1, bytes_snoc by lia. now rewrite <- app_assoc.
      - rewrite bytes_cons by lia. now constructor. }
    destruct (Qltb _ _); [now apply Keep in H|].
    destruct (_ && _); [now apply Keep in H|].
    apply IH in H; [|lia]. destruct H as (R1 & E1 & S1).
    set (buf1 := memmove buf (rp + 1) rp (len - rp)) in *.
    assert (B1 : bytes buf1 off (rp + 1) = bytes buf off rp ++ [buf rp]).
    { rewrite <- bytes_snoc by lia. apply bytes_ext. intros j Hj.
      unfold buf1, memmove.
      destruct (Z.leb_spec (rp + 1) j); [lia | reflexivity]. }
    assert (B2 : bytes buf1 (rp + 1) (len + 1) = bytes buf rp len).
    { unfold bytes.
      replace (Z.to_nat (len + 1 - (rp + 1))) with (Z.to_nat (len - rp)) by lia.
      apply take_bytes_shift. intros j Hj. unfold buf1, memmove.
      destruct (Z.leb_spec (rp + 1) (j + 1)); [|lia].
      destruct (Z.ltb_spec (j + 1) (rp + 1 + (len - rp))); [|lia].
      cbn. f_equal. lia. }
    exists (buf rp :: R1). split.
    + rewrite E1, B1. now rewrite <- app_assoc.
    + rewrite B2 in S1. rewrite bytes_cons in * by lia.
      now apply stretched_dup.
Qed.

Lemma resample_remove_squeezed fuel :
  forall off avg rp rmcnt buf len buf' len',
    off <= rp <= len ->
    resample_remove fuel off avg rp rmcnt buf len = Some (buf', len') ->
    exists R,
      bytes buf' off len' = bytes buf off rp ++ R
      /\ squeezed (bytes buf rp len) R.
Proof.
  induction fuel as [|fuel IH]; intros off avg rp rmcnt buf len buf' len' Hr H;
    cbn [resample_remove] in H.
  - destruct (rp <? len - 1); [discriminate|]. inversion H; subst.
    exists (bytes buf' rp len'). split; [now apply bytes_split|].
    apply squeezed_refl.
  - destruct (rp <? len - 1) eqn:C.
    2:{ inversion H; subst. exists (bytes buf' rp len').
        split; [now apply bytes_split | apply squeezed_refl]. }
    apply Z.ltb_lt in C.
    assert (Keep : forall rmcnt',
              resample_remove fuel off avg (rp + 1) rmcnt' buf len
              = Some (buf', len') ->
              exists R, bytes buf' off len' = bytes buf off rp ++ R
                        /\ squeezed (bytes buf rp len) R).
    { intros rmcnt' H'. apply IH in H'; [|lia].
      destruct H' as (R1 & E1 & S1).
      exists (buf rp :: R1). split.
      - rewrite E1, bytes_snoc by lia. now rewrite <- app_assoc.
      - rewrite bytes_cons by lia. now constructor. }
    destruct (Qltb _ _); [now apply Keep in H|].
    destruct (_ && _); [now apply Keep in H|].
    apply IH in H; [|lia]. destruct H as (R1 & E1 & S1).
    set (buf1 := memmove buf rp (rp + 1) (len - rp - 1)) in *.
    assert (B1 : bytes buf1 off (rp + 1) = bytes buf off rp ++ [buf (rp + 1)]).
    { rewrite bytes_snoc by lia. f_equal.
      - apply bytes_ext. intros j Hj. unfold buf1, memmove.
        destruct (Z.leb_spec rp j); [lia | reflexivity].
      - unfold buf1, memmove.
        destruct (Z.leb_spec rp rp); [|lia].
        destruct (Z.ltb_spec rp (rp + (len - rp - 1))); [|lia].
        cbn. do 2 f_equal. lia. }
    assert (B2 : bytes buf1 (rp + 1) (len - 1) = bytes buf (rp + 2) len).
    { unfold bytes.
      replace (Z.to_nat (len - 1 - (rp + 1))) with (Z.to_nat (len - (rp + 2)))
        by lia.
      replace (rp + 1) with (rp + 2 + (-1)) by lia.
      apply take_bytes_shift. intros j Hj. unfold buf1, memmove.
      destruct (Z.leb_spec rp (j + -1)); [|lia].
      destruct (Z.ltb_spec (j + -1) (rp + (len - rp - 1))); [|lia].
      cbn. f_equal. lia. }
    exists (buf (rp + 1) :: R1). split.
    + rewrite E1, B1. now rewrite <- app_assoc.
    + rewrite B2 in S1. rewrite (bytes_cons buf rp) by lia.
      rewrite (bytes_cons buf (rp + 1)) by lia.
      replace (rp + 1 + 1) with (rp + 2) by lia.
      apply squeezed_drop. now apply squeezed_keep.
Qed.

(** X8: re-sampling the queue for a new speed keeps the order of the
    samples and invents none: the new queue is the old one with samples
    repeated next to their original, or the old one with samples left out
    (all of them when the queue cannot be re-sampled). *)
Theorem X8_resample_keeps_order env s v poff s' poff' :
  ltc_buf_off s <= ltc_buf_len s ->
  resample env s v poff = Some (s', poff') ->
  stretched (queue s) (queue s') \/ squeezed (queue s) (queue s').
Proof.
  intros Hle H. unfold resample in H. cbv zeta in H.
  destruct (_ || _).
  { inversion H; subst. right. apply squeezed_all. }
  destruct (_ && _).
  { destruct (resample_insert _ _ _ _ _ _ _) as [[buf len]|] eqn:Hi;
      [|discriminate].
    inversion H; subst. left.
    apply resample_insert_stretched in Hi; [|lia].
    destruct Hi as (R & E1 & S1). unfold queue. cbn.
    rewrite E1, bytes_empty. exact S1. }
  destruct (_ && _); [|inversion H; subst; left; apply stretched_refl].
  destruct (Qle_bool _ _).
  { inversion H; subst. right. apply squeezed_all. }
  destruct (resample_remove _ _ _ _ _ _ _) as [[buf len]|] eqn:Hi;
    [|discriminate].
  inversion H; subst. right.
  apply resample_remove_squeezed in Hi; [|lia].
  destruct Hi as (R & E1 & S1). unfold queue. cbn.
  rewrite E1, bytes_empty. exact S1.
Qed.

Lemma resample_insert_count fuel :
  forall off avg rp incnt buf len buf' len' d L,
    (forall k ro, d <= k -> (inject_Z k * avg <= inject_Z ro)%Q ->
                  ro < L + k - 1 -> False) ->
    len - off = L + incnt -> incnt <= d ->
    resample_insert fuel off avg rp incnt buf len = Some (buf', len') ->
    len <= len' <= len + (d - incnt).
Proof.
  induction fuel as [|fuel IH];
    intros off avg rp incnt buf len buf' len' d L F Hl Hd H;
    cbn [resample_insert] in H.
  - destruct (rp <? len - 1); [discriminate|]. inversion H; subst. lia.
  - destruct (rp <? len - 1) eqn:C; [|inversion H; subst; lia].
    apply Z.ltb_lt in C.
    destruct (Qltb _ _) eqn:C1;
      [apply (IH _ _ _ _ _ _ _ _ d L F Hl Hd H)|].
    destruct (_ && _);
      [apply (IH _ _ _ _ _ _ _ _ d L F Hl Hd H)|].
    apply Qltb_ge in C1.
    assert (Hlt : incnt < d).
    { destruct (Z.lt_ge_cases incnt d) as [Hx|Hx]; [exact Hx|].
      exfalso. apply (F incnt (rp - off) Hx C1). lia. }
    apply (IH _ _ _ _ _ _ _ _ d L F) in H; lia.
Qed.

Lemma resample_remove_count fuel :
  forall off avg rp rmcnt buf len buf' len' d L,
    (forall k ro, d <= k -> (inject_Z k * avg <= inject_Z ro)%Q ->
                  ro < L - k - 1 -> False) ->
    len - off = L - rmcnt -> rmcnt <= d ->
    resample_remove fuel off avg rp rmcnt buf len = Some (buf', len') ->
    len - (d - rmcnt) <= len' <= len.
Proof.
  induction fuel as [|fuel IH];
    intros off avg rp rmcnt buf len buf' len' d L F Hl Hd H;
    cbn [resample_remove] in H.
  - destruct (rp <? len - 1); [discriminate|]. inversion H; subst. lia.
  - destruct (rp <? len - 1) eqn:C; [|inversion H; subst; lia].
    apply Z.ltb_lt in C.
    destruct (Qltb _ _) eqn:C1;
      [apply (IH _ _ _ _ _ _ _ _ d L F Hl Hd H)|].
    destruct (_ && _);
      [apply (IH _ _ _ _ _ _ _ _ d L F Hl Hd H)|].
    apply Qltb_ge in C1.
    assert (Hlt : rmcnt < d).
    { destruct (Z.lt_ge_cases rmcnt d) as [Hx|Hx]; [exact Hx|].
      exfalso. apply (F rmcnt (rp - off) Hx C1). lia. }
    apply (IH _ _ _ _ _ _ _ _ d L F) in H; lia.
Qed.

Lemma inject_Z_sub (a b : Z) : (inject_Z (a - b) == inject_Z a - inject_Z b)%Q.
Proof.
  unfold Z.sub. rewrite inject_Z_plus, inject_Z_opp. reflexivity.
Qed.

(** No insertion is due once [ceil (newbuflen - oldbuflen)] samples are in. *)
Lemma insert_full (L : Z) (new : Q) :
  1 <= L -> (inject_Z L < new)%Q ->
  let d := ceil (new - inject_Z L) in
  1 <= d
  /\ forall k ro, d <= k ->
       (inject_Z k * (new / inject_Z d) <= inject_Z ro)%Q ->
       ro < L + k - 1 -> False.
Proof.
  intros HL Hnew d.
  pose proof (Qle_ceiling (new - inject_Z L)) as U.
  pose proof (Qceiling_lt (new - inject_Z L)) as Lo.
  fold (ceil (new - inject_Z L)) in U, Lo. fold d in U, Lo.
  rewrite inject_Z_sub in Lo. change (inject_Z 1) with 1%Q in Lo.
  assert (Hd : 1 <= d).
  { assert (Hx : (inject_Z 0 < inject_Z d)%Q).
    { change (inject_Z 0) with 0%Q. eapply Qlt_le_trans; [|exact U]. lra. }
    rewrite <- Zlt_Qlt in Hx. lia. }
  split; [exact Hd|]. intros k ro Hk Hle Hro.
  assert (Dq : (1 <= inject_Z d)%Q)
    by (change 1%Q with (inject_Z 1); now rewrite <- Zle_Qle).
  assert (Lq : (1 <= inject_Z L)%Q)
    by (change 1%Q with (inject_Z 1); now rewrite <- Zle_Qle).
  assert (Kq : (inject_Z d <= inject_Z k)%Q) by now rewrite <- Zle_Qle.
  assert (Rq : (inject_Z ro <= inject_Z L + inject_Z k - 2)%Q).
  { change 2%Q with (inject_Z 2).
    rewrite <- inject_Z_plus, <- inject_Z_sub, <- Zle_Qle. lia. }
  set (avg := (new / inject_Z d)%Q) in *.
  assert (Ha : (inject_Z d * avg == new)%Q) by (unfold avg; field; lra).
  assert (H1 : (1 <= avg)%Q).
  { unfold avg. apply Qle_shift_div_l; lra. }
  nra.
Qed.

(** No removal is due once [ceil (oldbuflen - newbuflen)] samples are out. *)
Lemma remove_full (L : Z) (new : Q) :
  (0 <= new)%Q -> (new < inject_Z L)%Q ->
  let d := ceil (inject_Z L - new) in
  1 <= d
  /\ forall k ro, d <= k ->
       (inject_Z k * (new / inject_Z d) <= inject_Z ro)%Q ->
       ro < L - k - 1 -> False.
Proof.
  intros H0 Hnew d.
  pose proof (Qle_ceiling (inject_Z L - new)) as U.
  fold (ceil (inject_Z L - new)) in U. fold d in U.
  assert (Hd : 1 <= d).
  { assert (Hx : (inject_Z 0 < inject_Z d)%Q).
    { change (inject_Z 0) with 0%Q. eapply Qlt_le_trans; [|exact U]. lra. }
    rewrite <- Zlt_Qlt in Hx. lia. }
  split; [exact Hd|]. intros k ro Hk Hle Hro.
  assert (Dq : (1 <= inject_Z d)%Q)
    by (change 1%Q with (inject_Z 1); now rewrite <- Zle_Qle).
  assert (Kq : (inject_Z d <= inject_Z k)%Q) by now rewrite <- Zle_Qle.
  assert (Rq : (inject_Z ro <= inject_Z L - inject_Z k - 2)%Q).
  { change 2%Q with (inject_Z 2).
    rewrite <- !inject_Z_sub, <- Zle_Qle. lia. }
  set (avg := (new / inject_Z d)%Q) in *.
  assert (Ha : (inject_Z d * avg == new)%Q) by (unfold avg; field; lra).
  assert (H1 : (0 <= avg)%Q).
  { unfold avg. apply Qle_shift_div_l; lra. }
  nra.
Qed.

(** X9: re-sampling changes the number of queued samples by no more than
    [ceil |newbuflen - oldbuflen|], in the direction of the new length: it
    never overshoots.  When the test "would destroy information" holds, the
    queue is dropped instead and [poff] is 0. *)
Theorem X9_resample_length env s v poff s' poff' :
  ltc_buf_off s <= ltc_buf_len s ->
  resample env s v poff = Some (s', poff') ->
  let old := queue_length s in
  let new := resampled_length s v in
  let d := ceil (fabs (new - inject_Z old)) in
  if resample_destroys s v
  then ltc_buf_len s' = 0 /\ ltc_buf_off s' = 0 /\ poff' = 0%Q
  else poff' = poff
       /\ ((inject_Z old <= new)%Q ->
           old <= queue_length s' <= old + d)
       /\ ((new <= inject_Z old)%Q ->
           old - d <= queue_length s' <= old).
Proof.
  intros Hle H. cbv zeta. unfold resample in H. cbv zeta in H.
  unfold resample_destroys, resampled_length. cbv zeta.
  fold (queue_length s) in H.
  set (old := queue_length s) in *.
  set (new := (inject_Z old * fabs (ltc_speed s / v))%Q) in *.
  set (d := ceil (fabs (new - inject_Z old))).
  set (diff := inject_Z (rint (new - inject_Z old))) in *.
  assert (Hold : 0 <= old) by (unfold old, queue_length; lia).
  assert (Hnew : (0 <= new)%Q).
  { unfold new.
    apply Qmult_le_0_compat; [|apply Qabs_nonneg].
    change 0%Q with (inject_Z 0). now rewrite <- Zle_Qle. }
  destruct (Qltb new (fabs diff) || Qltb (inject_Z old) (fabs diff)).
  { inversion H; subst. repeat split. }
  destruct (Qneqb diff 0 && Qltb (inject_Z old) new) eqn:Ci.
  { apply andb_true_iff in Ci. destruct Ci as [_ Ci]. apply Qltb_lt in Ci.
    destruct (resample_insert _ _ _ _ _ _ _) as [[buf len]|] eqn:Hi;
      [|discriminate].
    inversion H; subst s' poff'. clear H.
    assert (HL : 1 <= old).
    { destruct (Z.eq_dec old 0) as [Hz|Hz]; [|lia]. exfalso.
      unfold new in Ci. rewrite Hz in Ci.
      change (inject_Z 0) with 0%Q in Ci. rewrite Qmult_0_l in Ci.
      exact (Qlt_irrefl _ Ci). }
    destruct (insert_full old new HL Ci) as [Hd F].
    apply (resample_insert_count _ _ _ _ _ _ _ _ _ _ old F) in Hi;
      [|unfold old, queue_length; lia | lia].
    assert (Ed : d = ceil (new - inject_Z old)).
    { unfold d, fabs. rewrite Qabs_pos; [reflexivity | lra]. }
    unfold queue_length. cbn.
    split; [reflexivity|]. split; intro Hc.
    - fold (ceil (new - inject_Z old)) in Hi. rewrite Ed.
      unfold old, queue_length in *. lia.
    - lra. }
  destruct (Qneqb diff 0 && Qltb new (inject_Z old)) eqn:Cr.
  2:{ inversion H; subst. split; [reflexivity|].
      assert (Hd : 0 <= d).
      { unfold d, ceil. change 0 with (Qceiling 0).
        apply Qceiling_resp_le. apply Qabs_nonneg. }
      fold old. split; intros _; lia. }
  apply andb_true_iff in Cr. destruct Cr as [_ Cr]. apply Qltb_lt in Cr.
  destruct (remove_full old new Hnew Cr) as [Hd F].
  assert (Ed : d = ceil (inject_Z old - new)).
  { unfold d, fabs. rewrite Qabs_neg by lra. unfold ceil.
    apply Qceiling_comp. ring. }
  destruct (Qle_bool (inject_Z old) _) eqn:Ca.
  { inversion H; subst s' poff'. clear H. unfold queue_length. cbn.
    split; [reflexivity|]. apply Qle_bool_iff in Ca.
    fold (ceil (inject_Z old - new)) in Ca.
    rewrite <- Zle_Qle in Ca. rewrite <- Ed in Ca.
    split; intro Hc; [lra | lia]. }
  destruct (resample_remove _ _ _ _ _ _ _) as [[buf len]|] eqn:Hi;
    [|discriminate].
  inversion H; subst s' poff'. clear H.
  apply (resample_remove_count _ _ _ _ _ _ _ _ _ _ old F) in Hi;
    [|unfold old, queue_length; lia | lia].
  unfold queue_length. cbn.
  split; [reflexivity|]. split; intro Hc; [lra|].
  fold (ceil (inject_Z old - new)) in Hi. rewrite Ed.
  unfold old, queue_length in *. lia.
Qed.


(** ** Step (6a): sending the queue *)

(** X10: the loop "send remaining buffer" sends
    [min (queued samples, samples left in the block)] samples, in the order
    of the queue and one sample for each byte, each of the value
    [(byte - 128) * ltcvol]; it moves the read offset and the write index by
    that number and changes nothing else of the port buffer. *)
Theorem X10_send_remaining env s n out txf :
  0 <= txf <= n ->
  ltc_buf_off s <= ltc_buf_len s ->
  n <= Z.of_nat (length out) ->
  let k := Z.min (queue_length s) (n - txf) in
  exists s1 out1,
    send_remaining (Z.to_nat (n - txf)) env s n out txf
    = Some (s1, out1, txf + k)
    /\ ltc_buf_off s1 = ltc_buf_off s + k
    /\ ltc_buf_len s1 = ltc_buf_len s
    /\ ltc_enc_buf s1 = ltc_enc_buf s
    /\ length out1 = length out
    /\ (forall j, 0 <= j < k ->
          nth (Z.to_nat (txf + j)) out1 0%Q
          = ((inject_Z (ltc_enc_buf s (ltc_buf_off s + j)) - 128)
             * ltcvol env)%Q)
    /\ (forall i, 0 <= i -> i < txf \/ txf + k <= i ->
          nth (Z.to_nat i) out1 0%Q = nth (Z.to_nat i) out 0%Q).
Proof.
  intros Ht Hq Hn k.
  destruct (send_remaining_total (Z.to_nat (n - txf)) env s n out txf)
    as [[[s1 out1] txf1] H]; [lia|].
  pose proof (send_remaining_spec _ _ _ _ _ _ _ _ _ H)
    as (Sl & _ & So & Sle & Sq & Se & _ & _ & _ & _ & _ & Sb & Sn).
  pose proof (send_remaining_out _ _ _ _ _ _ _ _ _ (proj1 Ht) H)
    as (Ol & Ou & Ov).
  specialize (Sq Hq). specialize (Sn (proj2 Ht)).
  assert (Hk : txf1 = txf + k).
  { unfold k, queue_length.
    destruct (Z.lt_ge_cases txf1 n) as [Hlt|Hge]; [specialize (Se Hlt)|]; lia. }
  assert (Kb : k <= n - txf) by (unfold k; lia).
  subst txf1. exists s1, out1.
  split; [exact H|]. split; [lia|]. split; [exact Sl|]. split; [exact Sb|].
  split; [exact Ol|]. split.
  - intros j Hj. rewrite Ov by lia.
    now replace (txf + j - txf) with j by lia.
  - intros i Hi Ho. now apply Ou.
Qed.

(** ** Formats beyond 30 frames per second *)

(** X13: while the configured format has more than 30 frames per second, a
    cycle generates nothing: the port buffer is silence and the cycle gets
    neither to the transport tracker nor to the alignment check. *)
Theorem X13_no_ltc_above_30 env s st en n r :
  dbg s = [] ->
  ltc_output_port env = true ->
  (30 < timecode_to_frames_per_second (timecode_format env))%Q ->
  send_ltc_for_cycle env (Some s) st en n = Some r ->
  r_out r = silence n
  /\ existsb is_EvAlign (r_trace r) = false
  /\ existsb (fun e => match e with EvSpeed _ => true | _ => false end)
       (r_trace r) = false
  /\ forall i, ~ In (EvSample i) (r_trace r).
Proof.
  intros Hd Hp Hf H. apply Qltb_lt in Hf.
  apply cycle_anatomy in H; [|assumption].
  destruct H as [G|l G H1|s1 G H1 F|s1 s2 G H1 F H2|s1 t s3 G H1 F H2 H3
                |s1 t s3 out3 txf3 s4 out4 G H1 F H2 H3 H4];
    try congruence; unfold leave, gone; cbn [r_trace r_out].
  - rewrite Hd. cbn. repeat split. intros i [].
  - unfold check_fps in H1.
    destruct (negb _); [|discriminate].
    destruct (ltc_encoder_reinit _ _ _ _); [discriminate|].
    inversion H1; subst l. cbn. rewrite Hd. cbn. repeat split.
    intros i [Hx|[Hx|[Hx|[]]]]; discriminate.
  - unfold check_fps in H1.
    destruct (negb _).
    + destruct (ltc_encoder_reinit _ _ _ _); [|discriminate].
      inversion H1; subst s1. cbn. rewrite Hd. cbn. repeat split.
      intros i [Hx|[Hx|[]]]; discriminate.
    + inversion H1; subst s1. rewrite Hd. cbn. repeat split. intros i [].
Qed.

(** ** The distance to the byte of a restart *)

Lemma resync_offset_bounds (fptcf speed : Q) (soff : Z) :
  (0 < fptcf)%Q ->
  0 <= resync_offset fptcf speed soff
  /\ (inject_Z (resync_offset fptcf speed soff) < fptcf / 10 + 1)%Q.
Proof.
  intros Hf. unfold resync_offset, resync_byte.
  set (x := (10 * inject_Z soff / fptcf)%Q).
  assert (Hx : (x * fptcf == 10 * inject_Z soff)%Q) by (unfold x; field; lra).
  destruct (Qltb speed 0).
  - set (b := Qfloor x).
    pose proof (Qfloor_le x) as B1. pose proof (Qlt_floor x) as B2.
    fold b in B1, B2. rewrite inject_Z_plus in B2.
    change (inject_Z 1) with 1%Q in B2.
    set (y := (inject_Z b * fptcf / 10)%Q).
    assert (Hy : (y * 10 == inject_Z b * fptcf)%Q) by (unfold y; field).
    pose proof (Qle_ceiling y) as C1.
    assert (Y1 : (y <= inject_Z soff)%Q) by nra.
    assert (C2 : Qceiling y <= soff).
    { rewrite <- (Qceiling_Z soff). now apply Qceiling_resp_le. }
    split; [lia|].
    rewrite inject_Z_sub.
    assert (E10 : (fptcf / 10 * 10 == fptcf)%Q) by field.
    nra.
  - set (b := Qceiling x).
    pose proof (Qle_ceiling x) as B1. pose proof (Qceiling_lt x) as B2.
    fold b in B1, B2. rewrite inject_Z_sub in B2.
    change (inject_Z 1) with 1%Q in B2.
    set (y := (inject_Z b * fptcf / 10)%Q).
    assert (Hy : (y * 10 == inject_Z b * fptcf)%Q) by (unfold y; field).
    pose proof (Qle_ceiling y) as C1. pose proof (Qceiling_lt y) as C2.
    rewrite inject_Z_sub in C2. change (inject_Z 1) with 1%Q in C2.
    assert (Y1 : (inject_Z soff <= y)%Q) by nra.
    assert (C3 : (inject_Z soff <= inject_Z (Qceiling y))%Q) by lra.
    rewrite <- Zle_Qle in C3.
    split; [lia|].
    rewrite inject_Z_sub.
    assert (E10 : (fptcf / 10 * 10 == fptcf)%Q) by field.
    nra.
Qed.

(** X14: in a hard resync, the byte at which the output restarts is never
    behind the current position and less than one byte and one sample
    ahead of it.  So when the alignment check asks for the hard resync in a
    block of at least [frameSamples / 10 + 1] and less than 2^31 samples,
    with [soff] inside the frame, the resync is never deferred: the restart
    takes place in the block of the resync, zeroes the samples before the
    byte and sets the position of the encoder. *)
Theorem X14_restart_within_a_byte env t n out :
  let s := t_session t in
  let c := t_cycle_start t in
  let tcs := tc_sample_start_of env s c in
  let soff := soff_of env s c (t_speed t) in
  let fptcf := samples_per_timecode_frame env in
  let cyc_off := resync_offset fptcf (ltc_speed s) soff in
  (0 < fptcf)%Q ->
  needs_realign env s c (t_poff t) = true ->
  0 <= soff -> (inject_Z soff < fptcf)%Q ->
  (forall s0, snd (byte_for_offset env s0 soff)
              = resync_offset fptcf (ltc_speed s0) soff
              /\ 0 <= snd (byte_for_offset env s0 soff)
              /\ (inject_Z (snd (byte_for_offset env s0 soff))
                  < fptcf / 10 + 1)%Q)
  /\ ((fptcf / 10 + 1 <= inject_Z n)%Q -> n < 2147483648 ->
      exists s' txf,
        align env t n out = Next (s', zero_prefix out (Z.to_nat cyc_off), txf)
        /\ ltc_enc_pos s' = Z.rem tcs (wrap24h env)
        /\ 0 <= cyc_off <= n).
Proof.
  intros s c tcs soff fptcf cyc_off Hf Hre H0 Hlt. split.
  - intro s0.
    destruct (byte_for_offset_spec env s0 soff) as (-> & _).
    split; [reflexivity|]. now apply resync_offset_bounds.
  - intros Hn Hn31.
    assert (Ha : align env t n out
                 = realign env (trace (EvAlign c tcs soff) s) n c
                     (tc_start_of env s c) tcs soff out).
    { unfold align. fold s. fold c. fold tcs. fold soff.
      change (needs_realign env (trace _ s) c (t_poff t))
        with (needs_realign env s c (t_poff t)).
      rewrite Hre. reflexivity. }
    destruct (realign_in_range env (trace (EvAlign c tcs soff) s) n c
                (tc_start_of env s c) tcs soff out H0 Hlt)
      as (s' & Hr & _).
    change (ltc_speed (trace _ s)) with (ltc_speed s) in Hr.
    destruct (resync_offset_bounds fptcf (ltc_speed s) soff Hf) as [B1 B2].
    fold fptcf in Hr. fold cyc_off in Hr, B1, B2.
    assert (B3 : cyc_off <= n).
    { assert (Hx : (inject_Z cyc_off < inject_Z n)%Q) by lra.
      rewrite <- Zlt_Qlt in Hx. lia. }
    rewrite int32_t_small in Hr by lia.
    assert (C : (0 <=? cyc_off) && (cyc_off <=? n) = true).
    { apply andb_true_iff. split; apply Z.leb_le; assumption. }
    rewrite C in Hr. rewrite Ha, Hr. do 2 eexists.
    split; [reflexivity|]. split; [reflexivity | lia].
Qed.

(** ** The steady state *)

Lemma speed_and_direction_steady env s st en n :
  let v := rescale_speed env (raw_speed st en n) in
  let v' := effective_speed env st en n in
  SIGNUM v = SIGNUM (ltc_speed s) ->
  (ltc_speed s == v')%Q ->
  ((v' == 0)%Q -> ltc_send_continuously env = true /\ st = ltc_prev_cycle s) ->
  Qltb 10 (fabs v') = false ->
  exists t,
    speed_and_direction env s st en n = Some (Next t)
    /\ grown (fun e => tracker_event e && negb (is_EvReset e))
         (dbg s) (dbg (t_session t))
    /\ ltc_enc_pos (t_session t) = ltc_enc_pos s
    /\ ltc_enc_cnt (t_session t) = ltc_enc_cnt s
    /\ ltc_enc_tcformat (t_session t) = ltc_enc_tcformat s
    /\ ltc_speed (t_session t) = v'
    /\ t_cycle_start t = cycle_start env s st (raw_speed st en n)
    /\ t_poff t
       = (inject_Z (ltc_buf_len s - ltc_buf_off s) * ltc_speed s)%Q.
Proof.
  intros v v'. subst v'. unfold effective_speed. cbv zeta. fold v.
  unfold speed_and_direction, settle_speed. cbv zeta. fold v.
  unfold not_rolling_check, speed_change_check, started_rolling_check.
  destruct ((en =? st) || Qltb (fabs v) (1 # 10)) eqn:C;
    intros Hsig Hsp Hz Hb;
    unfold direction_check; rewrite Hsig, Z.eqb_refl; cbn [negb].
  - destruct (Hz ltac:(reflexivity)) as [Hc Hp].
    change (Qltb 10 (fabs 0)) with false.
    change (Qneqb 0 0) with false.
    destruct (Qneqb (ltc_speed s) v);
      rewrite Hc; cbn [negb]; cbn [ltc_prev_cycle trace set_encoder set_dbg];
      rewrite <- Hp, Z.eqb_refl; cbn [negb andb]; rewrite ?andb_false_r;
      eexists; (split; [reflexivity|]); cbn;
      (split; [grow|]); repeat split.
  - assert (Hn : Qneqb (ltc_speed s) v = false) by now apply Qneqb_eq.
    rewrite Hn, Hb.
    assert (Hnz : Qeq_bool (ltc_speed s) 0 = false).
    { apply Qeq_bool_false. intro Hx. rewrite Hsp in Hx.
      apply orb_false_iff in C. destruct C as [_ C]. apply Qltb_ge in C.
      rewrite Hx in C. revert C. apply Qlt_not_le. reflexivity. }
    rewrite Hnz. cbn [andb].
    eexists. split; [reflexivity|]. cbn.
    split; [grow|]. repeat split.
Qed.

Lemma needs_realign_same env s1 s2 c poff :
  ltc_enc_pos s1 = ltc_enc_pos s2 -> ltc_enc_cnt s1 = ltc_enc_cnt s2 ->
  ltc_speed s1 = ltc_speed s2 -> ltc_enc_tcformat s1 = ltc_enc_tcformat s2 ->
  needs_realign env s1 c poff = needs_realign env s2 c poff.
Proof.
  intros Hp Hc Hs Hf. unfold needs_realign, maxdiff. now rewrite Hp, Hc, Hs, Hf.
Qed.

(** X15: the steady state.  When the block has the direction and the speed
    of the block before it (for a stopped transport: continuous generation is
    on and the block starts where the last one did) and the alignment check
    finds the encoder within the tolerance, the cycle makes no hard resync;
    and unless the encoder fails, it makes no reset at all and writes every
    sample of the block. *)
Theorem X15_steady_state env s st en n r :
  let v := rescale_speed env (raw_speed st en n) in
  let v' := effective_speed env st en n in
  dbg s = [] ->
  ltc_output_port env = true ->
  generation_off env = false ->
  ltc_enc_tcformat s = timecode_format env ->
  Qltb 30 (timecode_to_frames_per_second (timecode_format env)) = false ->
  SIGNUM v = SIGNUM (ltc_speed s) ->
  (ltc_speed s == v')%Q ->
  ((v' == 0)%Q -> ltc_send_continuously env = true /\ st = ltc_prev_cycle s) ->
  (fabs v' <= 10)%Q ->
  needs_realign env (set_speed v' s) (cycle_start env s st (raw_speed st en n))
    (inject_Z (queue_length s) * ltc_speed s) = false ->
  send_ltc_for_cycle env (Some s) st en n = Some r ->
  existsb is_EvAlign (r_trace r) = true
  /\ existsb is_EvRealign (r_trace r) = false
  /\ (existsb is_enc_failure (r_trace r) = false ->
      existsb is_EvReset (r_trace r) = false
      /\ forall i, 0 <= i < n -> In (EvSample i) (r_trace r)).
Proof.
  intros v v' Hd Hp G Hfmt F Hsig Hsp Hz Hb Hno H.
  apply Qltb_ge in Hb.
  destruct (speed_and_direction_steady env s st en n Hsig Hsp Hz Hb)
    as (t & Ht & Gt & Tp & Tc & Tf & Ts & Tcs & Tpo).
  fold v' in Ts.
  pose proof (check_fps_same env s Hfmt) as Hc.
  rewrite Hd in Gt.
  set (ev := EvAlign (t_cycle_start t)
               (tc_sample_start_of env (t_session t) (t_cycle_start t))
               (soff_of env (t_session t) (t_cycle_start t) (t_speed t))).
  assert (Hn : needs_realign env (trace ev (t_session t)) (t_cycle_start t)
                 (t_poff t) = false).
  { rewrite Tcs, Tpo. rewrite <- Hno. apply needs_realign_same; assumption. }
  assert (Ha : exists s3,
             align env t n (silence n) = Next (s3, silence n, 0)
             /\ (dbg s3 = ev :: dbg (t_session t)
                 \/ dbg s3 = EvSoft :: ev :: dbg (t_session t))).
  { unfold align. cbv zeta. fold ev. rewrite Hn.
    destruct (soft_condition _ _); eexists; (split; [reflexivity|]);
      [right | left]; reflexivity. }
  destruct Ha as (s3 & Ha & D3).
  assert (N3 : forall f : Event -> bool,
            f EvSoft = false -> f ev = false ->
            (forall e, tracker_event e && negb (is_EvReset e) = true ->
                       f e = false) ->
            existsb f (dbg s3) = false).
  { intros f F1 F2 F3.
    assert (Hts : existsb f (dbg (t_session t)) = false)
      by (eapply existsb_false_of_grown; [exact F3 | exact Gt]).
    destruct D3 as [-> | ->]; cbn; now rewrite ?F1, ?F2, Hts. }
  apply cycle_anatomy in H; [|assumption].
  destruct H as [G'|l G' H1|s1 G' H1 F'|s1 s2 G' H1 F' H2
                |s1 t' s3' G' H1 F' H2 H3
                |s1 t' s3' out3 txf3 s4 out4 G' H1 F' H2 H3 H4];
    try congruence;
    rewrite Hc in H1; inversion H1; subst s1; try congruence.
  assert (t' = t) by congruence. subst t'.
  rewrite Ha in H3. inversion H3; subst s3' out3 txf3. clear H3.
  unfold leave. cbn [r_trace].
  rewrite !existsb_rev_eq.
  pose proof (encode_and_output_grown _ _ _ _ _ _ _ _ H4) as G4.
  split; [|split].
  - apply (grown_existsb_mono _ is_EvAlign _ _ G4).
    destruct D3 as [-> | ->]; reflexivity.
  - rewrite (grown_existsb output_event is_EvRealign _ _
               ltac:(intros []; cbn; congruence) G4).
    apply N3; try reflexivity. intros []; cbn; congruence.
  - intro Hf. split.
    + destruct (encode_and_output_end _ _ _ _ _ _ _ _ H4)
        as [(l & Hl & Gl)|(f & l & Hl & Hff & _)].
      * rewrite Hl. cbn.
        rewrite (grown_existsb is_EvSample is_EvReset _ _
                   ltac:(intros []; cbn; congruence) Gl).
        apply N3; try reflexivity. intros []; cbn; congruence.
      * exfalso. rewrite Hl in Hf. cbn in Hf. rewrite Hff in Hf.
        discriminate.
    + intros i Hi. rewrite <- in_rev.
      apply (encode_and_output_covers _ _ _ _ _ _ _ _ H4 Hf). lia.
Qed.



(** ** The configuration that a cycle keeps *)

Lemma same_config_refl s : same_config s s.
Proof. repeat split. Qed.

Lemma same_config_trans s1 s2 s3 :
  same_config s1 s2 -> same_config s2 s3 -> same_config s1 s3.
Proof.
  unfold same_config, same_setup.
  intros ((A1 & A2 & A3 & A4) & A5) ((B1 & B2 & B3 & B4) & B5).
  repeat split; congruence.
Qed.

Lemma send_remaining_config fuel : forall env s n out txf s1 out1 txf1,
  send_remaining fuel env s n out txf = Some (s1, out1, txf1) ->
  same_config s s1.
Proof.
  induction fuel as [|fuel IH]; intros env s n out txf s1 out1 txf1 H;
    cbn [send_remaining] in H.
  - destruct (_ && _); [discriminate|]. inversion H; subst.
    apply same_config_refl.
  - destruct ((ltc_buf_off s <? ltc_buf_len s) && (txf <? n)).
    + apply IH in H. eapply same_config_trans; [|exact H]. repeat split.
    + inversion H; subst. apply same_config_refl.
Qed.

Lemma step_back_config env s : same_config s (step_back env s).
Proof. unfold step_back. repeat break_goal; repeat split. Qed.

Lemma step_forward_config env s k : same_config s (step_forward env s k).
Proof. unfold step_forward. repeat break_goal; repeat split. Qed.

Lemma encode_next_config env s :
  match encode_next env s with
  | inl (s', _) => same_config s s'
  | inr s' => same_config s s'
  end.
Proof.
  unfold encode_next. destruct (restarting s); [repeat split|].
  destruct (ltc_encoder_encode_byte _ _ _) as [err e].
  destruct err; [repeat split|].
  cbn. destruct (ltc_encoder_get_buffer e). repeat split.
Qed.

Lemma encode_and_output_config fuel : forall env s n out txf s' out',
  encode_and_output fuel env s n out txf = Some (s', out') ->
  same_config s s'.
Proof.
  induction fuel as [|fuel IH]; intros env s n out txf s' out' H;
    cbn [encode_and_output] in H; [discriminate|].
  destruct (send_remaining _ env s n out txf) as [[[s1 out1] txf1]|] eqn:Hs;
    [|discriminate].
  apply send_remaining_config in Hs.
  destruct (n <=? txf1).
  { inversion H; subst. eapply same_config_trans; [exact Hs|]. repeat split. }
  set (s2 := step_back env _) in H.
  assert (C2 : same_config s s2).
  { eapply same_config_trans; [exact Hs|].
    eapply same_config_trans; [|apply step_back_config]. repeat split. }
  pose proof (encode_next_config env s2) as Hn.
  destruct (encode_next env s2) as [[s3 k]|s3].
  - destruct (k <=? 0).
    + inversion H; subst. eapply same_config_trans; [exact C2|].
      eapply same_config_trans; [exact Hn|]. repeat split.
    + apply IH in H.
      eauto using same_config_trans, step_forward_config.
  - inversion H; subst. eauto using same_config_trans.
Qed.

Lemma byte_for_offset_config env s soff :
  same_config s (fst (byte_for_offset env s soff)).
Proof. unfold byte_for_offset. repeat break_goal; repeat split. Qed.

Lemma align_config env t n out s' :
  step_session (fun x => fst (fst x)) (align env t n out) = Some s' ->
  same_config (t_session t) s'.
Proof.
  unfold align. cbv zeta.
  set (s0 := trace _ (t_session t)).
  assert (C0 : same_config (t_session t) s0) by repeat split.
  destruct (needs_realign _ _ _ _).
  - unfold realign. cbv zeta.
    set (s1 := trace _ (seed_encoder env s0 _)).
    assert (C1 : same_config (t_session t) s1) by repeat split.
    destruct (_ || _).
    + intro H. inversion H; subst. repeat split.
    + match goal with
      | |- context [byte_for_offset env s1 ?soff] =>
          pose proof (byte_for_offset_config env s1 soff) as Hb;
          destruct (byte_for_offset env s1 soff) as [s2 cyc_off]
      end.
      cbn [fst] in Hb.
      assert (C3 : same_config (t_session t)
                     (mark_restarting
                        (trace (EvRestart
                                  (soff_of env (t_session t) (t_cycle_start t)
                                     (t_speed t))
                                  (ltc_enc_byte s2) cyc_off) s2))).
      { eapply same_config_trans; [exact C1|].
        eapply same_config_trans; [exact Hb|].
        unfold mark_restarting. break_goal; repeat split. }
      destruct (_ && _); intro H; inversion H; subst; cbn [fst];
        [|exact C3].
      eapply same_config_trans; [exact C3|]. repeat split.
  - destruct (soft_condition _ _); intro H; inversion H; subst; repeat split.
Qed.

Lemma speed_and_direction_leave_setup env s st en n s2 :
  speed_and_direction env s st en n = Some (Leave s2) -> same_setup s s2.
Proof.
  unfold speed_and_direction, settle_speed. cbv zeta. intro H.
  set (v := rescale_speed env (raw_speed st en n)) in *.
  destruct (direction_check_frame s v) as [(F1 & _) _].
  set (s1 := direction_check s v) in *.
  destruct (speed_change_check_frame env s1 v) as ((F2 & _) & _).
  destruct (speed_change_check env s1 v) as [s2' changed]. cbn [fst] in F2.
  assert (F12 : same_setup s s2').
  { unfold same_setup in *. destruct F1 as (A1 & A2 & A3 & A4).
    destruct F2 as (B1 & B2 & B3 & B4). repeat split; congruence. }
  destruct (not_rolling_check env s2' st en v) as [s3|l|[s3 v']] eqn:Hnr;
    try discriminate.
  - inversion H; subst s3. clear H. unfold not_rolling_check in Hnr.
    repeat break_in Hnr; inversion Hnr; subst. exact F12.
  - apply not_rolling_check_next in Hnr. destruct Hnr as (_ & (F3 & _) & _).
    assert (F13 : same_setup s s3).
    { unfold same_setup in *. destruct F12 as (A1 & A2 & A3 & A4).
      destruct F3 as (B1 & B2 & B3 & B4). repeat split; congruence. }
    destruct (Qltb 10 (fabs v')).
    + inversion H; subst. exact F13.
    + destruct (if changed && Qneqb v' 0 then _ else _) as [[s5 p5]|];
        discriminate.
Qed.

(** X16: a cycle never writes the port latency, and while generation is
    on it leaves the format of the encoder equal to the configured one, so
    that step (1) of the next cycle has nothing to do; a cycle that gets to
    the alignment check leaves the start of its block in [ltc_prev_cycle]. *)
Theorem X16_cycle_keeps_config env s st en n r s' :
  dbg s = [] ->
  ltc_output_port env = true ->
  send_ltc_for_cycle env (Some s) st en n = Some r ->
  r_session r = Some s' ->
  ltc_out_latency_max s' = ltc_out_latency_max s
  /\ (generation_off env = false ->
      ltc_enc_tcformat s' = timecode_format env
      /\ check_fps env s' = Next s')
  /\ (existsb is_EvAlign (r_trace r) = true -> ltc_prev_cycle s' = st).
Proof.
  intros Hd Hp H Hs.
  apply cycle_anatomy in H; [|assumption].
  assert (Nt : forall l, grown tracker_event [] l ->
                 existsb is_EvAlign l = false).
  { intros l G. apply (existsb_false_of_grown tracker_event); [|exact G].
    intros []; cbn; congruence. }
  assert (Fin : forall s0 : Session E,
            ltc_enc_tcformat s0 = timecode_format env ->
            ltc_enc_tcformat (set_dbg [] s0) = timecode_format env
            /\ check_fps env (set_dbg [] s0) = Next (set_dbg [] s0)).
  { intros s0 Hf. split; [exact Hf|]. now apply check_fps_same. }
  destruct H as [G|l G H1|s1 G H1 F|s1 s2 G H1 F H2|s1 t s3 G H1 F H2 H3
                |s1 t s3 out3 txf3 s4 out4 G H1 F H2 H3 H4];
    unfold leave, gone in *; cbn [r_trace r_session] in *;
    try discriminate; inversion Hs; subst s'; clear Hs;
    rewrite existsb_rev_eq.
  - split; [reflexivity|]. split; [congruence|].
    rewrite Hd. discriminate.
  - destruct (check_fps_setup env s s1 H1) as (L1 & T1 & _).
    split; [exact L1|]. split; [intros _; now apply Fin|].
    apply check_fps_next in H1. rewrite Hd in H1.
    rewrite (Nt _ H1). discriminate.
  - destruct (check_fps_setup env s s1 H1) as (L1 & T1 & _).
    destruct (speed_and_direction_leave_setup _ _ _ _ _ _ H2)
      as (L2 & T2 & _).
    split; [cbn; congruence|].
    split; [intros _; apply Fin; congruence|].
    apply check_fps_next in H1. rewrite Hd in H1.
    apply speed_and_direction_grown in H2. cbn [step_dbg] in H2.
    rewrite (Nt _ (grown_trans _ _ _ _ H1 H2)). discriminate.
  - destruct (check_fps_setup env s s1 H1) as (L1 & T1 & _).
    destruct (speed_and_direction_next _ _ _ _ _ _ H2)
      as (_ & _ & _ & P2 & (L2 & T2 & _) & _).
    destruct (align_config env t n (silence n) s3) as ((L3 & T3 & _) & P3);
      [now rewrite H3|].
    split; [cbn; congruence|].
    split; [intros _; apply Fin; congruence|].
    intros _. cbn. congruence.
  - destruct (check_fps_setup env s s1 H1) as (L1 & T1 & _).
    destruct (speed_and_direction_next _ _ _ _ _ _ H2)
      as (_ & _ & _ & P2 & (L2 & T2 & _) & _).
    destruct (align_config env t n (silence n) s3) as ((L3 & T3 & _) & P3);
      [now rewrite H3|].
    destruct (encode_and_output_config _ _ _ _ _ _ _ _ H4)
      as ((L4 & T4 & _) & P4).
    split; [cbn; congruence|].
    split; [intros _; apply Fin; congruence|].
    intros _. cbn. congruence.
Qed.

(** ** A reset between two cycles *)

(** X17: after [ltc_tx_reset], the handler of an xrun, the queue is empty
    and the byte index is 0, speed and [restarting] are those of before, and
    the next cycle that gets to the alignment check performs the hard
    resync. *)
Theorem X17_reset_between_cycles env s :
  let s' := set_dbg [] (ltc_tx_reset s) in
  buffer_inv s'
  /\ queue s' = []
  /\ ltc_enc_pos s' = -9999 /\ ltc_enc_byte s' = 0 /\ ltc_enc_cnt s' = 0%Q
  /\ ltc_speed s' = ltc_speed s /\ restarting s' = restarting s
  /\ ltc_prev_cycle s' = ltc_prev_cycle s
  /\ forall st en n r,
       ltc_output_port env = true ->
       send_ltc_for_cycle env (Some s') st en n = Some r ->
       existsb is_EvAlign (r_trace r) = true ->
       existsb is_EvRealign (r_trace r) = true.
Proof.
  intro s'. split; [split; cbn; lia|]. repeat (split; [reflexivity|]).
  intros st en n r Hp H.
  apply (sentinel_forces_realign env s' st en n r);
    [reflexivity | exact Hp | cbn; lia | exact H].
Qed.


(** ** Every cycle returns *)

(** X18: for a block of at least one sample with the LTC port present (the
    conditions of the two [assert]s), [send_ltc_for_cycle] returns, and so
    does any sequence of such cycles: the insertion loop of the re-sampling
    ends within [oldbuflen + samples_to_insert] rounds, the removal loop
    within [oldbuflen], loop (6a) within [n_samples - txf] and the loop
    [while (1)] of step (6) within [n_samples - txf + 1], the bounds that
    the loops are given here. *)
Theorem X18_cycle_returns env (ss : option (Session E)) (st en n : Z)
    (cs : list Cycle) :
  0 < n ->
  ltc_output_port env = true ->
  Forall (fun c => 0 < c_n c /\ ltc_output_port (c_env c) = true) cs ->
  (exists r, send_ltc_for_cycle env ss st en n = Some r)
  /\ (exists rs ss', run ss cs = Some (rs, ss') /\ length rs = length cs).
Proof.
  intros _ _ _.
  split; [apply cycle_total|].
  revert ss. induction cs as [|c cs IH]; intro ss.
  - exists [], ss. split; reflexivity.
  - cbn [run].
    destruct (cycle_total (c_env c) ss (c_start c) (c_end c) (c_n c))
      as [r Hr].
    rewrite Hr. destruct (IH (r_session r)) as (rs & ss' & Hrun & Hlen).
    rewrite Hrun. exists (r :: rs), ss'. split; [reflexivity|].
    cbn. now rewrite Hlen.
Qed.


End Properties.

(** * The theorems at concrete sessions *)

Lemma C8_buffer_invariant_witness :
  buffer_inv (TestEnv.cold 100)
  /\ exists r,
       send_ltc_for_cycle (TestEnv.env25 true) (Some (TestEnv.cold 100))
         3 259 256 = Some r
       /\ forall s', r_session r = Some s' -> buffer_inv s'.
Proof.
  assert (H : buffer_inv (TestEnv.cold 100)) by (unfold buffer_inv; cbn; lia).
  split; [exact H|].
  exact (proj2 (proj2 (C8_buffer_invariant (TestEnv.env25 true)
                         (TestEnv.cold 100))) 3 259 256 H).
Defined.

Lemma C10_restart_filler_witness :
  restarting (set_restarting true (TestEnv.cold 100)) = true
  /\ exists s',
       encode_next (TestEnv.env25 true) (set_restarting true (TestEnv.cold 100))
       = inl (s', 192).
Proof.
  split; [reflexivity|].
  destruct (C10_restart_filler (TestEnv.env25 true)
              (set_restarting true (TestEnv.cold 100)) eq_refl)
    as [[s' [H _]] _].
  exists s'. exact H.
Defined.

Lemma C1_hard_resync_witness :
  dbg (TestEnv.cold 100) = []
  /\ ltc_output_port (TestEnv.env25 true) = true
  /\ exists r,
       send_ltc_for_cycle (TestEnv.env25 true) (Some (TestEnv.cold 100))
         3 259 256 = Some r
       /\ exists s1 t,
            generation_off (TestEnv.env25 true) = false
            /\ check_fps (TestEnv.env25 true) (TestEnv.cold 100) = Next s1
            /\ Qltb 30 (timecode_to_frames_per_second
                          (timecode_format (TestEnv.env25 true))) = false
            /\ speed_and_direction (TestEnv.env25 true) s1 3 259 256
               = Some (Next t)
            /\ resync_due (TestEnv.env25 true) (t_session t)
                 (t_cycle_start t) (t_poff t).
Proof.
  split; [reflexivity|]. split; [reflexivity|].
  destruct (send_ltc_for_cycle (TestEnv.env25 true) (Some (TestEnv.cold 100))
              3 259 256) as [r|] eqn:Hr.
  - exists r. split; [reflexivity|].
    apply (proj1 (C1_hard_resync (TestEnv.env25 true) (TestEnv.cold 100)
                    3 259 256 r eq_refl eq_refl Hr)).
    revert Hr. vm_compute. intro Hr. inversion Hr. reflexivity.
  - exfalso. revert Hr. vm_compute. discriminate.
Defined.

(** C1 as stated fails: after a cycle at speed 1 the next cycle runs at
    speed 2 and starts 3 samples late.  The condition of the claim, with the
    previous speed 1 (tolerance 2), holds; the code tests the tolerance of the
    current speed 2 (tolerance 4) and does not resync. *)
Lemma C1_previous_speed_counterexample :
  exists s1 r2,
    session_after 0
      (run (Some (TestEnv.cold 100))
         [mkCycle (TestEnv.env25 true) 3 259 256;
          mkCycle (TestEnv.env25 true) 262 774 256]) = Some s1
    /\ result_at 1
         (run (Some (TestEnv.cold 100))
            [mkCycle (TestEnv.env25 true) 3 259 256;
             mkCycle (TestEnv.env25 true) 262 774 256]) = Some r2
    /\ (ltc_speed s1 == 1)%Q
    /\ claimed_resync_due (TestEnv.env25 true) (ltc_enc_tcformat s1)
         (ltc_enc_pos s1) (ltc_enc_cnt s1) (ltc_buf_len s1 - ltc_buf_off s1)
         (ltc_speed s1)
         (cycle_start (TestEnv.env25 true) s1 262 (raw_speed 262 774 256))
       = true
    /\ existsb is_EvRealign (r_trace r2) = false.
Proof.
  set (R := run _ _).
  assert (H : match session_after 0 R, result_at 1 R with
              | Some s1, Some r2 =>
                  Qeq_bool (ltc_speed s1) 1
                  && claimed_resync_due (TestEnv.env25 true)
                       (ltc_enc_tcformat s1) (ltc_enc_pos s1) (ltc_enc_cnt s1)
                       (ltc_buf_len s1 - ltc_buf_off s1) (ltc_speed s1)
                       (cycle_start (TestEnv.env25 true) s1 262
                          (raw_speed 262 774 256))
                  && negb (existsb is_EvRealign (r_trace r2))
              | _, _ => false
              end = true) by (vm_compute; reflexivity).
  destruct (session_after 0 R) as [s1|]; [|discriminate].
  destruct (result_at 1 R) as [r2|]; [|discriminate].
  exists s1, r2.
  repeat (apply andb_true_iff in H; destruct H as [H ?]).
  repeat split; try assumption;
    first [now apply Qeq_bool_iff | now apply negb_true_iff].
Qed.

Lemma C7_soft_correction_witness :
  dbg Scenario.locked = []
  /\ ltc_output_port (TestEnv.env25 true) = true
  /\ (0 <= effective_speed (TestEnv.env25 true) 259 515 256)%Q
  /\ exists r,
       send_ltc_for_cycle (TestEnv.env25 true) (Some Scenario.locked)
         259 515 256 = Some r
       /\ existsb is_EvSoft (r_trace r) = true
       /\ existsb is_EvRealign (r_trace r) = false.
Proof.
  split; [vm_compute; reflexivity|]. split; [reflexivity|].
  assert (Hv : (0 <= effective_speed (TestEnv.env25 true) 259 515 256)%Q)
    by (vm_compute; discriminate).
  split; [exact Hv|].
  destruct (send_ltc_for_cycle (TestEnv.env25 true) (Some Scenario.locked)
              259 515 256) as [r|] eqn:Hr.
  - exists r. split; [reflexivity|].
    assert (Hs : existsb is_EvSoft (r_trace r) = true).
    { revert Hr. vm_compute. intro Hr. inversion Hr. reflexivity. }
    split; [exact Hs|].
    assert (Hd : dbg Scenario.locked = []) by (vm_compute; reflexivity).
    exact (proj2 (C7_soft_correction (TestEnv.env25 true) Scenario.locked
                    259 515 256 r Hd eq_refl Hr Hv) Hs).
  - exfalso. revert Hr. vm_compute. discriminate.
Defined.

(** C7 as stated fails: at speed 8 one byte lasts 24 samples, more than 3,
    and the second cycle performs no hard resync, yet the soft correction is
    not applied: one bit lasts 3 samples, which does not exceed 3. *)
Lemma C7_byte_duration_counterexample :
  exists s1 r2,
    session_after 0 (run (Some (TestEnv.cold 100)) Scenario.fast) = Some s1
    /\ result_at 1 (run (Some (TestEnv.cold 100)) Scenario.fast) = Some r2
    /\ (ltc_speed s1 == 8)%Q
    /\ (effective_speed (TestEnv.env25 true) 1923 3843 240 == 8)%Q
    /\ claimed_soft_due (existsb is_EvRealign (r_trace r2))
         (samples_per_timecode_frame (TestEnv.env25 true)) 8 = true
    /\ existsb is_EvSoft (r_trace r2) = false.
Proof.
  set (R := run _ _).
  assert (H : match session_after 0 R, result_at 1 R with
              | Some s1, Some r2 =>
                  Qeq_bool (ltc_speed s1) 8
                  && Qeq_bool (effective_speed (TestEnv.env25 true)
                                 1923 3843 240) 8
                  && claimed_soft_due (existsb is_EvRealign (r_trace r2))
                       (samples_per_timecode_frame (TestEnv.env25 true)) 8
                  && negb (existsb is_EvSoft (r_trace r2))
              | _, _ => false
              end = true) by (vm_compute; reflexivity).
  destruct (session_after 0 R) as [s1|]; [|discriminate].
  destruct (result_at 1 R) as [r2|]; [|discriminate].
  exists s1, r2.
  repeat (apply andb_true_iff in H; destruct H as [H ?]).
  repeat split; try assumption;
    first [now apply Qeq_bool_iff | now apply negb_true_iff].
Qed.

Lemma C2_tracker_resets_witness :
  dbg (TestEnv.cold 100) = []
  /\ ltc_output_port (TestEnv.env25 true) = true
  /\ generation_off (TestEnv.env25 true) = false
  /\ Qltb 30 (timecode_to_frames_per_second
                (timecode_format (TestEnv.env25 true))) = false
  /\ exists r,
       send_ltc_for_cycle (TestEnv.env25 true) (Some (TestEnv.cold 100))
         3 259 256 = Some r
       /\ existsb is_EvNotRolling (r_trace r) = false
       /\ reset_precedes_output (r_trace r).
Proof.
  do 4 (split; [reflexivity|]).
  assert (Hb : match send_ltc_for_cycle (TestEnv.env25 true)
                       (Some (TestEnv.cold 100)) 3 259 256 with
               | Some r => negb (existsb is_EvNotRolling (r_trace r))
               | None => false
               end = true) by (vm_compute; reflexivity).
  destruct (send_ltc_for_cycle (TestEnv.env25 true) (Some (TestEnv.cold 100))
              3 259 256) as [r|] eqn:Hr; [|discriminate].
  apply negb_true_iff in Hb.
  exists r. split; [reflexivity|]. split; [exact Hb|].
  apply (proj1 (proj2 (proj2 (C2_tracker_resets (TestEnv.env25 true)
                                (TestEnv.cold 100) 3 259 256 r
                                eq_refl eq_refl eq_refl eq_refl Hr)
                         eq_refl))).
  - vm_compute. reflexivity.
  - exact Hb.
Defined.

(** C2 as stated fails: the generator is locked at speed 1 with bytes in
    its queue, continuous generation is disabled and the next block does not
    roll (speed 0).  This first idle block after a rolling one performs no
    reset, and the queued bytes stay. *)
Lemma C2_idle_transition_counterexample :
  (ltc_speed Scenario.locked == 1)%Q
  /\ (effective_speed (TestEnv.env25 false) 259 259 256 == 0)%Q
  /\ exists r s',
       send_ltc_for_cycle (TestEnv.env25 false) (Some Scenario.locked)
         259 259 256 = Some r
       /\ existsb is_EvReset (r_trace r) = false
       /\ r_session r = Some s'
       /\ ltc_buf_off s' < ltc_buf_len s'
       /\ ltc_enc_pos s' <> -9999.
Proof.
  split; [vm_compute; reflexivity|]. split; [vm_compute; reflexivity|].
  assert (H : match send_ltc_for_cycle (TestEnv.env25 false)
                      (Some Scenario.locked) 259 259 256 with
              | Some r =>
                  match r_session r with
                  | Some s' =>
                      negb (existsb is_EvReset (r_trace r))
                      && (ltc_buf_off s' <? ltc_buf_len s')
                      && negb (ltc_enc_pos s' =? -9999)
                  | None => false
                  end
              | None => false
              end = true) by (vm_compute; reflexivity).
  destruct (send_ltc_for_cycle _ _ _ _ _) as [r|]; [|discriminate].
  destruct (r_session r) as [s'|] eqn:Hs; [|discriminate].
  exists r, s'.
  repeat (apply andb_true_iff in H; destruct H as [H ?]).
  split; [reflexivity|]. split; [now apply negb_true_iff|].
  split; [exact Hs|]. split; [now apply Z.ltb_lt|].
  apply Z.eqb_neq. now apply negb_true_iff.
Qed.

(** C4 as stated fails: the conversions still run at 25 fps (1920 samples
    per frame) while [samples_per_timecode_frame] already is 1600, the case
    that the guard on [soff] is written for.  The cold cycle performs the
    hard resync with [soff = 1700]; the index of the claim,
    [ceil (10 * 1700 / 1600) = 11], is no byte index, and the code leaves
    with byte index 0 and the sentinel. *)
Lemma C4_offset_guard_counterexample :
  claimed_byte 1600 1 1700 = 11
  /\ exists r s',
       send_ltc_for_cycle (TestEnv.with_frame_samples 1600 (TestEnv.env25 true))
         (Some (TestEnv.cold 100)) 1703 1959 256 = Some r
       /\ r_session r = Some s'
       /\ existsb (is_EvRealign_at 1700 0 1700) (r_trace r) = true
       /\ (ltc_speed s' == 1)%Q
       /\ ltc_enc_byte s' = 0
       /\ ltc_enc_byte s'
          <> claimed_byte
               (samples_per_timecode_frame
                  (TestEnv.with_frame_samples 1600 (TestEnv.env25 true)))
               (ltc_speed s') 1700.
Proof.
  split; [vm_compute; reflexivity|].
  assert (H : match send_ltc_for_cycle
                      (TestEnv.with_frame_samples 1600 (TestEnv.env25 true))
                      (Some (TestEnv.cold 100)) 1703 1959 256 with
              | Some r =>
                  match r_session r with
                  | Some s' =>
                      existsb (is_EvRealign_at 1700 0 1700) (r_trace r)
                      && Qeq_bool (ltc_speed s') 1
                      && (ltc_enc_byte s' =? 0)
                      && negb (ltc_enc_byte s'
                               =? claimed_byte
                                    (samples_per_timecode_frame
                                       (TestEnv.with_frame_samples 1600
                                          (TestEnv.env25 true)))
                                    (ltc_speed s') 1700)
                  | None => false
                  end
              | None => false
              end = true) by (vm_compute; reflexivity).
  destruct (send_ltc_for_cycle _ _ _ _ _) as [r|]; [|discriminate].
  destruct (r_session r) as [s'|] eqn:Hs; [|discriminate].
  exists r, s'.
  repeat (apply andb_true_iff in H; destruct H as [H ?]).
  split; [reflexivity|]. split; [exact Hs|]. split; [|split; [|split]].
  - exact H.
  - now apply Qeq_bool_iff.
  - now apply Z.eqb_eq.
  - apply Z.eqb_neq. now apply negb_true_iff.
Qed.

Lemma C4_hard_resync_witness :
  speed_and_direction (TestEnv.env25 true) (TestEnv.cold 100) 259 515 256
  = Some (Next Scenario.handed)
  /\ needs_realign (TestEnv.env25 true) (t_session Scenario.handed)
       (t_cycle_start Scenario.handed) (t_poff Scenario.handed) = true
  /\ 0 <= 256 < 2147483648
  /\ t_cycle_start Scenario.handed = 256
  /\ exists s',
       align (TestEnv.env25 true) Scenario.handed 256 (silence 256)
       = Next (trace (EvRestartAt 0) (set_enc_pos 0 s'),
               zero_prefix (silence 256) 128, 128)
       /\ ltc_enc_byte s' = 2
       /\ ltc_enc_pos s' = -9999
       /\ ltc_encoder s'
          = ltc_encoder (seed_encoder (TestEnv.env25 true)
                           (t_session Scenario.handed)
                           (TestEnv.sample_to_timecode25 256 false 0)).
Proof.
  assert (Hre : needs_realign (TestEnv.env25 true) (t_session Scenario.handed)
                  (t_cycle_start Scenario.handed) (t_poff Scenario.handed)
                = true) by (vm_compute; reflexivity).
  assert (Hn : 0 <= 256 < 2147483648) by lia.
  split; [vm_compute; reflexivity|]. split; [exact Hre|]. split; [exact Hn|].
  split; [vm_compute; reflexivity|].
  pose proof (proj1 (proj2 (C4_hard_resync (TestEnv.env25 true)
                              Scenario.handed 256 (silence 256) Hre Hn)))
    as H.
  destruct H as (s' & Hb & He & Hp & Hin & _).
  - vm_compute. discriminate.
  - vm_compute. reflexivity.
  - destruct Hin as (txf & Ha & Ht).
    + vm_compute. split; discriminate.
    + exists s'. rewrite Ha, Ht.
      * split; [vm_compute; reflexivity|].
        split; [rewrite Hb; vm_compute; reflexivity|].
        split; [exact Hp|]. rewrite He. vm_compute. reflexivity.
      * intro Hq. revert Hq. vm_compute. discriminate.
Defined.

Lemma C6_encoder_failure_witness :
  dbg (TestEnv.cold 1) = []
  /\ ltc_output_port (TestEnv.env25 true) = true
  /\ exists r,
       send_ltc_for_cycle (TestEnv.env25 true) (Some (TestEnv.cold 1))
         3 259 256 = Some r
       /\ existsb is_enc_failure (r_trace r) = true
       /\ exists s',
            r_session r = Some s' /\ dbg s' = [] /\ ltc_enc_pos s' = -9999
            /\ ltc_buf_len s' = 0 /\ ltc_buf_off s' = 0.
Proof.
  split; [reflexivity|]. split; [reflexivity|].
  destruct (send_ltc_for_cycle (TestEnv.env25 true) (Some (TestEnv.cold 1))
              3 259 256) as [r|] eqn:Hr.
  - exists r. split; [reflexivity|].
    assert (Hf : existsb is_enc_failure (r_trace r) = true).
    { revert Hr. vm_compute. intro Hr. inversion Hr. reflexivity. }
    split; [exact Hf|].
    exact (proj1 (proj2 (C6_encoder_failure (TestEnv.env25 true)
                           (TestEnv.cold 1) 3 259 256 r
                           eq_refl eq_refl Hr Hf))).
  - exfalso. revert Hr. vm_compute. discriminate.
Defined.

(** C6 as stated fails: the encoder delivers the first byte (192 samples)
    and fails at the second.  The cycle resets and aborts, but the 192
    samples written before the failure stay in the port buffer: it is not
    all silence. *)
Lemma C6_written_samples_counterexample :
  exists r,
    send_ltc_for_cycle (TestEnv.env25 true) (Some (TestEnv.cold 1))
      3 259 256 = Some r
    /\ existsb is_enc_failure (r_trace r) = true
    /\ (nth 0 (r_out r) 0%Q == 45)%Q
    /\ r_out r <> silence 256.
Proof.
  assert (H : match send_ltc_for_cycle (TestEnv.env25 true)
                      (Some (TestEnv.cold 1)) 3 259 256 with
              | Some r =>
                  existsb is_enc_failure (r_trace r)
                  && Qeq_bool (nth 0 (r_out r) 0%Q) 45
              | None => false
              end = true) by (vm_compute; reflexivity).
  destruct (send_ltc_for_cycle _ _ _ _ _) as [r|]; [|discriminate].
  exists r. apply andb_true_iff in H. destruct H as [H1 H2].
  apply Qeq_bool_iff in H2.
  split; [reflexivity|]. split; [exact H1|]. split; [exact H2|].
  intro Heq. rewrite Heq in H2. revert H2. vm_compute. discriminate.
Qed.

Lemma C5_format_error_witness :
  dbg (TestEnv.cold 100) = []
  /\ ltc_output_port (TestEnv.with_format timecode_60 (TestEnv.env25 true))
     = true
  /\ generation_off (TestEnv.with_format timecode_60 (TestEnv.env25 true))
     = false
  /\ TimecodeFormat_eqb timecode_60 (ltc_enc_tcformat (TestEnv.cold 100))
     = false
  /\ ltc_encoder_reinit (ltc_encoder (TestEnv.cold 100)) 48000 60
       (TV_STANDARD timecode_60) = None
  /\ exists r,
       send_ltc_for_cycle
         (TestEnv.with_format timecode_60 (TestEnv.env25 true))
         (Some (TestEnv.cold 100)) 3 259 256 = Some r
       /\ r_trace r = [EvReinit; EvError; EvCleanup]
       /\ r_session r = None
       /\ exists rs,
            run (r_session r)
              [mkCycle (TestEnv.env25 true) 259 515 256;
               mkCycle (TestEnv.env25 true) 515 771 256]
            = Some (rs, None)
            /\ Forall (fun r' => r_trace r' = [] /\ r_out r' = silence 256) rs.
Proof.
  do 4 (split; [reflexivity|]).
  assert (Hre : ltc_encoder_reinit (ltc_encoder (TestEnv.cold 100)) 48000 60
                  (TV_STANDARD timecode_60) = None)
    by (vm_compute; reflexivity).
  split; [exact Hre|].
  destruct (C5_format_error
              (TestEnv.with_format timecode_60 (TestEnv.env25 true))
              (TestEnv.cold 100) 3 259 256
              eq_refl eq_refl eq_refl eq_refl Hre)
    as (r & Hr & Ht & Hs & _ & Hlater).
  exists r. split; [exact Hr|]. split; [exact Ht|]. split; [exact Hs|].
  destruct (Hlater [mkCycle (TestEnv.env25 true) 259 515 256;
                    mkCycle (TestEnv.env25 true) 515 771 256])
    as (rs & Hrun & Hall).
  exists rs. split; [exact Hrun|].
  inversion Hall as [|c1 r1 cs1 rs1 (A1 & _ & B1) Hall1]; subst.
  inversion Hall1 as [|c2 r2 cs2 rs2 (A2 & _ & B2) Hall2]; subst.
  inversion Hall2; subst.
  repeat constructor; assumption.
Defined.

(** C5 as stated fails: the format changes to 60 fps, which the test
    encoder refuses; the caller is notified and the encoder released.  The
    format is then set back to 25 fps, which the encoder would accept, but
    generation does not resume: the cycle is silent. *)
Lemma C5_no_resume_counterexample :
  (exists e,
      ltc_encoder_reinit (ltc_encoder (TestEnv.cold 100)) 48000
        (timecode_to_frames_per_second timecode_25) (TV_STANDARD timecode_25)
      = Some e)
  /\ exists r1 r2,
       send_ltc_for_cycle
         (TestEnv.with_format timecode_60 (TestEnv.env25 true))
         (Some (TestEnv.cold 100)) 3 259 256 = Some r1
       /\ existsb is_EvError (r_trace r1) = true
       /\ send_ltc_for_cycle (TestEnv.env25 true) (r_session r1) 259 515 256
          = Some r2
       /\ r_session r2 = None
       /\ r_out r2 = silence 256
       /\ r_trace r2 = [].
Proof.
  split.
  - destruct (ltc_encoder_reinit (ltc_encoder (TestEnv.cold 100)) 48000
                (timecode_to_frames_per_second timecode_25)
                (TV_STANDARD timecode_25)) as [e|] eqn:He.
    + now exists e.
    + exfalso. revert He. vm_compute. discriminate.
  - assert (H : match send_ltc_for_cycle
                        (TestEnv.with_format timecode_60 (TestEnv.env25 true))
                        (Some (TestEnv.cold 100)) 3 259 256 with
                | Some r1 =>
                    existsb is_EvError (r_trace r1)
                    && match r_session r1 with
                       | None => true
                       | Some _ => false
                       end
                | None => false
                end = true) by (vm_compute; reflexivity).
    destruct (send_ltc_for_cycle _ _ _ _ _) as [r1|]; [|discriminate].
    apply andb_true_iff in H. destruct H as [H1 H2].
    destruct (r_session r1) as [s1|] eqn:Hs; [discriminate|].
    exists r1, (mkResult None (silence 256) []).
    split; [reflexivity|]. split; [exact H1|].
    rewrite Hs. repeat split.
Qed.

(** C9, at a constant speed within the bound: from the cold session, none
    of the cycles of 128 samples at speed 3/2 that start at sample 4 gets
    past "resync next cycle".  However many of them are rendered, each one
    leaves silence and the session still holds the sentinel. *)
Theorem C9_no_start (k : nat) :
  exists rs s',
    run (Some (TestEnv.cold 100)) (Scenario.stalled k) = Some (rs, Some s')
    /\ ltc_enc_pos s' = -9999
    /\ length rs = k
    /\ Forall (deferred 128) rs.
Proof.
  assert (W : waiting (TestEnv.cold 100)) by (repeat split).
  destruct (deferred_run k 0 (TestEnv.cold 100) W)
    as (rs & s' & Hrun & (Hp & _) & Hall & Hlen).
  exists rs, s'. unfold Scenario.stalled, constant_cycles.
  split; [exact Hrun|]. split; [exact Hp|]. split; assumption.
Qed.

(** * The further properties at concrete sessions *)

Lemma X1_port_buffer_bounds_witness :
  dbg (TestEnv.cold 100) = []
  /\ ltc_output_port (TestEnv.env25 true) = true
  /\ exists r,
       send_ltc_for_cycle (TestEnv.env25 true) (Some (TestEnv.cold 100))
         3 259 256 = Some r
       /\ length (r_out r) = Z.to_nat 256.
Proof.
  split; [reflexivity|]. split; [reflexivity|].
  destruct (send_ltc_for_cycle (TestEnv.env25 true) (Some (TestEnv.cold 100))
              3 259 256) as [r|] eqn:Hr.
  - exists r. split; [reflexivity|].
    exact (proj1 (X1_port_buffer_bounds (TestEnv.env25 true)
                    (TestEnv.cold 100) 3 259 256 r eq_refl eq_refl Hr)).
  - exfalso. revert Hr. vm_compute. discriminate.
Defined.

Lemma X2_block_rendered_witness :
  dbg (TestEnv.cold 100) = []
  /\ ltc_output_port (TestEnv.env25 true) = true
  /\ exists r,
       send_ltc_for_cycle (TestEnv.env25 true) (Some (TestEnv.cold 100))
         3 259 256 = Some r
       /\ In EvDone (r_trace r)
       /\ exists txf,
            0 <= txf
            /\ (existsb is_EvRestartAt (r_trace r) = false -> txf = 0)
            /\ (forall i, 0 <= i < 256 ->
                  (In (EvSample i) (r_trace r) <-> txf <= i))
            /\ (forall i, 0 <= i < txf ->
                  nth (Z.to_nat i) (r_out r) 0%Q = 0%Q).
Proof.
  split; [reflexivity|]. split; [reflexivity|].
  destruct (send_ltc_for_cycle (TestEnv.env25 true) (Some (TestEnv.cold 100))
              3 259 256) as [r|] eqn:Hr.
  - exists r. split; [reflexivity|].
    assert (Hdone : In EvDone (r_trace r)).
    { apply in_rev. revert Hr. vm_compute. intro Hr. inversion Hr.
      left. reflexivity. }
    split; [exact Hdone|].
    exact (X2_block_rendered (TestEnv.env25 true) (TestEnv.cold 100)
             3 259 256 r eq_refl eq_refl Hr Hdone).
  - exfalso. revert Hr. vm_compute. discriminate.
Defined.

Lemma X3_unwritten_silence_witness :
  dbg (TestEnv.cold 100) = []
  /\ exists r,
       send_ltc_for_cycle (TestEnv.env25 true) (Some (TestEnv.cold 100))
         4 196 128 = Some r
       /\ 0 <= 5
       /\ ~ In (EvSample 5) (r_trace r)
       /\ nth (Z.to_nat 5) (r_out r) 0%Q = 0%Q.
Proof.
  split; [reflexivity|].
  destruct (send_ltc_for_cycle (TestEnv.env25 true) (Some (TestEnv.cold 100))
              4 196 128) as [r|] eqn:Hr.
  - exists r. split; [reflexivity|].
    assert (H0 : 0 <= 5) by lia.
    assert (Hn : ~ In (EvSample 5) (r_trace r)).
    { assert (Hb : forallb (fun e => negb (is_EvSample e)) (r_trace r) = true).
      { revert Hr. vm_compute. intro Hr. inversion Hr. reflexivity. }
      intro Hin. rewrite forallb_forall in Hb. apply Hb in Hin.
      discriminate. }
    split; [exact H0|]. split; [exact Hn|].
    exact (X3_unwritten_silence (TestEnv.env25 true) (TestEnv.cold 100)
             4 196 128 r 5 eq_refl Hr H0 Hn).
  - exfalso. revert Hr. vm_compute. discriminate.
Defined.

Lemma X4_speed_out_of_bounds_witness :
  dbg (TestEnv.cold 100) = []
  /\ ltc_output_port (TestEnv.env25 true) = true
  /\ generation_off (TestEnv.env25 true) = false
  /\ ltc_enc_tcformat (TestEnv.cold 100) = timecode_format (TestEnv.env25 true)
  /\ Qltb 30 (timecode_to_frames_per_second
                (timecode_format (TestEnv.env25 true))) = false
  /\ (10 < fabs (effective_speed (TestEnv.env25 true) 3 3003 256))%Q
  /\ exists r,
       send_ltc_for_cycle (TestEnv.env25 true) (Some (TestEnv.cold 100))
         3 3003 256 = Some r
       /\ r_out r = silence 256
       /\ existsb is_EvAlign (r_trace r) = false.
Proof.
  do 5 (split; [reflexivity|]).
  assert (Hv : (10 < fabs (effective_speed (TestEnv.env25 true) 3 3003 256))%Q)
    by (vm_compute; reflexivity).
  split; [exact Hv|].
  destruct (send_ltc_for_cycle (TestEnv.env25 true) (Some (TestEnv.cold 100))
              3 3003 256) as [r|] eqn:Hr.
  - exists r. split; [reflexivity|].
    destruct (X4_speed_out_of_bounds (TestEnv.env25 true) (TestEnv.cold 100)
                3 3003 256 r eq_refl eq_refl eq_refl eq_refl eq_refl Hr Hv)
      as (H1 & H2 & _).
    split; assumption.
  - exfalso. revert Hr. vm_compute. discriminate.
Defined.

Lemma X7_reset_forces_resync_witness :
  dbg (TestEnv.cold 100) = []
  /\ ltc_output_port (TestEnv.env25 true) = true
  /\ exists r before after,
       send_ltc_for_cycle (TestEnv.env25 true) (Some (TestEnv.cold 100))
         3 259 256 = Some r
       /\ r_trace r = before ++ EvAlign 0 0 0 :: after
       /\ In EvReset before
       /\ existsb is_EvRealign after = true.
Proof.
  split; [reflexivity|]. split; [reflexivity|].
  destruct (send_ltc_for_cycle (TestEnv.env25 true) (Some (TestEnv.cold 100))
              3 259 256) as [r|] eqn:Hr.
  - exists r, (firstn 4 (r_trace r)), (skipn 5 (r_trace r)).
    split; [reflexivity|].
    assert (Htr : r_trace r
                  = firstn 4 (r_trace r) ++ EvAlign 0 0 0 :: skipn 5 (r_trace r)).
    { revert Hr. vm_compute. intro Hr. inversion Hr. reflexivity. }
    assert (Hin : In EvReset (firstn 4 (r_trace r))).
    { revert Hr. vm_compute. intro Hr. inversion Hr.
      right. right. left. reflexivity. }
    split; [exact Htr|]. split; [exact Hin|].
    exact (X7_reset_forces_resync (TestEnv.env25 true) (TestEnv.cold 100)
             3 259 256 r _ _ 0 0 0 eq_refl eq_refl Hr Htr Hin).
  - exfalso. revert Hr. vm_compute. discriminate.
Defined.

Lemma X8_resample_keeps_order_witness :
  ltc_buf_off Scenario.locked <= ltc_buf_len Scenario.locked
  /\ exists s' poff',
       resample (TestEnv.env25 true) Scenario.locked (1 # 2) 128
       = Some (s', poff')
       /\ (stretched (queue Scenario.locked) (queue s')
           \/ squeezed (queue Scenario.locked) (queue s')).
Proof.
  assert (Hle : ltc_buf_off Scenario.locked <= ltc_buf_len Scenario.locked)
    by (vm_compute; discriminate).
  split; [exact Hle|].
  assert (Hb : match resample (TestEnv.env25 true) Scenario.locked (1 # 2) 128
               with Some _ => true | None => false end = true)
    by (vm_compute; reflexivity).
  destruct (resample (TestEnv.env25 true) Scenario.locked (1 # 2) 128)
    as [[s' poff']|] eqn:Hr; [|discriminate].
  exists s', poff'. split; [reflexivity|].
  exact (X8_resample_keeps_order (TestEnv.env25 true) Scenario.locked
           (1 # 2) 128 s' poff' Hle Hr).
Defined.

Lemma X9_resample_length_witness :
  ltc_buf_off Scenario.locked <= ltc_buf_len Scenario.locked
  /\ exists s' poff',
       resample (TestEnv.env25 true) Scenario.locked (3 # 2) 128
       = Some (s', poff')
       /\ resample_destroys Scenario.locked (3 # 2) = false
       /\ poff' = 128%Q
       /\ queue_length Scenario.locked
          - ceil (fabs (resampled_length Scenario.locked (3 # 2)
                        - inject_Z (queue_length Scenario.locked)))
          <= queue_length s' <= queue_length Scenario.locked.
Proof.
  assert (Hle : ltc_buf_off Scenario.locked <= ltc_buf_len Scenario.locked)
    by (vm_compute; discriminate).
  split; [exact Hle|].
  assert (Hb : match resample (TestEnv.env25 true) Scenario.locked (3 # 2) 128
               with Some _ => true | None => false end = true)
    by (vm_compute; reflexivity).
  destruct (resample (TestEnv.env25 true) Scenario.locked (3 # 2) 128)
    as [[s' poff']|] eqn:Hr; [|discriminate].
  exists s', poff'. split; [reflexivity|].
  assert (Hd : resample_destroys Scenario.locked (3 # 2) = false)
    by (vm_compute; reflexivity).
  split; [exact Hd|].
  pose proof (X9_resample_length (TestEnv.env25 true) Scenario.locked
                (3 # 2) 128 s' poff' Hle Hr) as T.
  cbv zeta in T. rewrite Hd in T. destruct T as (T1 & _ & T3).
  split; [exact T1|]. apply T3. vm_compute. discriminate.
Defined.

Lemma X10_send_remaining_witness :
  0 <= 0 <= 256
  /\ ltc_buf_off Scenario.locked <= ltc_buf_len Scenario.locked
  /\ 256 <= Z.of_nat (length (silence 256))
  /\ exists s1 out1,
       send_remaining (Z.to_nat (256 - 0)) (TestEnv.env25 true)
         Scenario.locked 256 (silence 256) 0
       = Some (s1, out1, 0 + Z.min (queue_length Scenario.locked) (256 - 0))
       /\ ltc_buf_off s1
          = ltc_buf_off Scenario.locked
            + Z.min (queue_length Scenario.locked) (256 - 0).
Proof.
  assert (H0 : 0 <= 0 <= 256) by lia.
  assert (Hle : ltc_buf_off Scenario.locked <= ltc_buf_len Scenario.locked)
    by (vm_compute; discriminate).
  assert (Hn : 256 <= Z.of_nat (length (silence 256)))
    by (vm_compute; discriminate).
  split; [exact H0|]. split; [exact Hle|]. split; [exact Hn|].
  destruct (X10_send_remaining (TestEnv.env25 true) Scenario.locked 256
              (silence 256) 0 H0 Hle Hn) as (s1 & out1 & H1 & H2 & _).
  exists s1, out1. split; assumption.
Defined.

Lemma X13_no_ltc_above_30_witness :
  dbg (TestEnv.cold 100) = []
  /\ ltc_output_port (TestEnv.with_format timecode_60 (TestEnv.env25 true))
     = true
  /\ (30 < timecode_to_frames_per_second
             (timecode_format
                (TestEnv.with_format timecode_60 (TestEnv.env25 true))))%Q
  /\ exists r,
       send_ltc_for_cycle
         (TestEnv.with_format timecode_60 (TestEnv.env25 true))
         (Some (TestEnv.cold 100)) 3 259 256 = Some r
       /\ r_out r = silence 256.
Proof.
  split; [reflexivity|]. split; [reflexivity|].
  assert (Hf : (30 < timecode_to_frames_per_second
                       (timecode_format
                          (TestEnv.with_format timecode_60
                             (TestEnv.env25 true))))%Q)
    by (vm_compute; reflexivity).
  split; [exact Hf|].
  destruct (send_ltc_for_cycle
              (TestEnv.with_format timecode_60 (TestEnv.env25 true))
              (Some (TestEnv.cold 100)) 3 259 256) as [r|] eqn:Hr.
  - exists r. split; [reflexivity|].
    exact (proj1 (X13_no_ltc_above_30
                    (TestEnv.with_format timecode_60 (TestEnv.env25 true))
                    (TestEnv.cold 100) 3 259 256 r eq_refl eq_refl Hf Hr)).
  - exfalso. revert Hr. vm_compute. discriminate.
Defined.

Lemma X14_restart_within_a_byte_witness :
  speed_and_direction (TestEnv.env25 true) (TestEnv.cold 100) 259 515 256
  = Some (Next Scenario.handed)
  /\ (0 < samples_per_timecode_frame (TestEnv.env25 true))%Q
  /\ needs_realign (TestEnv.env25 true) (t_session Scenario.handed)
       (t_cycle_start Scenario.handed) (t_poff Scenario.handed) = true
  /\ soff_of (TestEnv.env25 true) (t_session Scenario.handed)
       (t_cycle_start Scenario.handed) (t_speed Scenario.handed) = 256
  /\ (samples_per_timecode_frame (TestEnv.env25 true) / 10 + 1
      <= inject_Z 256)%Q
  /\ 256 < 2147483648
  /\ exists s' txf,
       align (TestEnv.env25 true) Scenario.handed 256 (silence 256)
       = Next (s', zero_prefix (silence 256) 128, txf)
       /\ ltc_enc_pos s' = 0.
Proof.
  assert (H1 : (0 < samples_per_timecode_frame (TestEnv.env25 true))%Q)
    by reflexivity.
  assert (Hre : needs_realign (TestEnv.env25 true) (t_session Scenario.handed)
                  (t_cycle_start Scenario.handed) (t_poff Scenario.handed)
                = true) by (vm_compute; reflexivity).
  assert (Hs : soff_of (TestEnv.env25 true) (t_session Scenario.handed)
                 (t_cycle_start Scenario.handed) (t_speed Scenario.handed)
               = 256) by (vm_compute; reflexivity).
  assert (H4 : (samples_per_timecode_frame (TestEnv.env25 true) / 10 + 1
                <= inject_Z 256)%Q) by (vm_compute; discriminate).
  assert (H5 : 256 < 2147483648) by lia.
  split; [vm_compute; reflexivity|]. split; [exact H1|]. split; [exact Hre|].
  split; [exact Hs|]. split; [exact H4|]. split; [exact H5|].
  destruct (proj2 (X14_restart_within_a_byte (TestEnv.env25 true)
                     Scenario.handed 256 (silence 256) H1 Hre
                     ltac:(rewrite Hs; lia)
                     ltac:(rewrite Hs; reflexivity)) H4 H5)
    as (s' & txf & Ha & Hp & _).
  exists s', txf. split; [|exact Hp].
  rewrite Ha. reflexivity.
Defined.

Lemma X15_steady_state_witness :
  dbg Scenario.locked = []
  /\ ltc_output_port (TestEnv.env25 true) = true
  /\ generation_off (TestEnv.env25 true) = false
  /\ ltc_enc_tcformat Scenario.locked = timecode_format (TestEnv.env25 true)
  /\ Qltb 30 (timecode_to_frames_per_second
                (timecode_format (TestEnv.env25 true))) = false
  /\ SIGNUM (rescale_speed (TestEnv.env25 true) (raw_speed 259 515 256))
     = SIGNUM (ltc_speed Scenario.locked)
  /\ (ltc_speed Scenario.locked
      == effective_speed (TestEnv.env25 true) 259 515 256)%Q
  /\ (fabs (effective_speed (TestEnv.env25 true) 259 515 256) <= 10)%Q
  /\ needs_realign (TestEnv.env25 true)
       (set_speed (effective_speed (TestEnv.env25 true) 259 515 256)
          Scenario.locked)
       (cycle_start (TestEnv.env25 true) Scenario.locked 259
          (raw_speed 259 515 256))
       (inject_Z (queue_length Scenario.locked) * ltc_speed Scenario.locked)
     = false
  /\ exists r,
       send_ltc_for_cycle (TestEnv.env25 true) (Some Scenario.locked)
         259 515 256 = Some r
       /\ existsb is_EvAlign (r_trace r) = true
       /\ existsb is_EvRealign (r_trace r) = false.
Proof.
  assert (Hd : dbg Scenario.locked = []) by (vm_compute; reflexivity).
  assert (Hf : ltc_enc_tcformat Scenario.locked
               = timecode_format (TestEnv.env25 true))
    by (vm_compute; reflexivity).
  assert (Hsig : SIGNUM (rescale_speed (TestEnv.env25 true)
                           (raw_speed 259 515 256))
                 = SIGNUM (ltc_speed Scenario.locked))
    by (vm_compute; reflexivity).
  assert (Hsp : (ltc_speed Scenario.locked
                 == effective_speed (TestEnv.env25 true) 259 515 256)%Q)
    by (vm_compute; reflexivity).
  assert (Hz : (effective_speed (TestEnv.env25 true) 259 515 256 == 0)%Q ->
               ltc_send_continuously (TestEnv.env25 true) = true
               /\ 259 = ltc_prev_cycle Scenario.locked).
  { intro Hx. exfalso. revert Hx. vm_compute. discriminate. }
  assert (Hb : (fabs (effective_speed (TestEnv.env25 true) 259 515 256)
                <= 10)%Q) by (vm_compute; discriminate).
  assert (Hn : needs_realign (TestEnv.env25 true)
                 (set_speed (effective_speed (TestEnv.env25 true) 259 515 256)
                    Scenario.locked)
                 (cycle_start (TestEnv.env25 true) Scenario.locked 259
                    (raw_speed 259 515 256))
                 (inject_Z (queue_length Scenario.locked)
                  * ltc_speed Scenario.locked) = false)
    by (vm_compute; reflexivity).
  split; [exact Hd|]. split; [reflexivity|]. split; [reflexivity|].
  split; [exact Hf|]. split; [reflexivity|]. split; [exact Hsig|].
  split; [exact Hsp|]. split; [exact Hb|]. split; [exact Hn|].
  destruct (send_ltc_for_cycle (TestEnv.env25 true) (Some Scenario.locked)
              259 515 256) as [r|] eqn:Hr.
  - exists r. split; [reflexivity|].
    destruct (X15_steady_state (TestEnv.env25 true) Scenario.locked
                259 515 256 r Hd eq_refl eq_refl Hf eq_refl Hsig Hsp Hz Hb
                Hn Hr) as (A1 & A2 & _).
    split; assumption.
  - exfalso. revert Hr. vm_compute. discriminate.
Defined.

Lemma X16_cycle_keeps_config_witness :
  dbg (TestEnv.cold 100) = []
  /\ ltc_output_port (TestEnv.env25 true) = true
  /\ exists r s',
       send_ltc_for_cycle (TestEnv.env25 true) (Some (TestEnv.cold 100))
         3 259 256 = Some r
       /\ r_session r = Some s'
       /\ ltc_out_latency_max s' = ltc_out_latency_max (TestEnv.cold 100)
       /\ (existsb is_EvAlign (r_trace r) = true -> ltc_prev_cycle s' = 3).
Proof.
  split; [reflexivity|]. split; [reflexivity|].
  assert (Hb : match send_ltc_for_cycle (TestEnv.env25 true)
                       (Some (TestEnv.cold 100)) 3 259 256 with
               | Some r => match r_session r with
                           | Some _ => true
                           | None => false
                           end
               | None => false
               end = true) by (vm_compute; reflexivity).
  destruct (send_ltc_for_cycle (TestEnv.env25 true) (Some (TestEnv.cold 100))
              3 259 256) as [r|] eqn:Hr; [|discriminate].
  destruct (r_session r) as [s'|] eqn:Hs; [|discriminate].
  exists r, s'. split; [reflexivity|]. split; [exact Hs|].
  destruct (X16_cycle_keeps_config (TestEnv.env25 true) (TestEnv.cold 100)
              3 259 256 r s' eq_refl eq_refl Hr Hs) as (A1 & _ & A3).
  split; assumption.
Defined.

Lemma X18_cycle_returns_witness :
  0 < 256
  /\ ltc_output_port (TestEnv.env25 true) = true
  /\ Forall (fun c => 0 < c_n c /\ ltc_output_port (c_env c) = true)
       Scenario.fast
  /\ (exists r,
        send_ltc_for_cycle (TestEnv.env25 true) (Some (TestEnv.cold 100))
          3 259 256 = Some r)
  /\ exists rs ss',
       run (Some (TestEnv.cold 100)) Scenario.fast = Some (rs, ss')
       /\ length rs = 2%nat.
Proof.
  assert (H1 : 0 < 256) by lia.
  assert (H2 : ltc_output_port (TestEnv.env25 true) = true) by reflexivity.
  assert (H3 : Forall (fun c => 0 < c_n c
                                /\ ltc_output_port (c_env c) = true)
                 Scenario.fast).
  { repeat constructor. }
  split; [exact H1|]. split; [exact H2|]. split; [exact H3|].
  exact (X18_cycle_returns (TestEnv.env25 true) (Some (TestEnv.cold 100))
           3 259 256 Scenario.fast H1 H2 H3).
Defined.
